(** * HDHomeRun signal monitor: the controller of the backend server

    A shallow embedding of [HDHomeRunController] (the cache-aware server
    variant), and the properties of its discovery, probing and monitoring
    code.

    Conventions of the embedding

    - A JavaScript string is a [string]: a sequence of code units, here the
      Latin-1 ones ([ascii]).
    - A JavaScript Number is a binary64 [float] (the kernel's primitive
      floats), so arithmetic rounds as it does in the program.
    - [null] and [undefined] results are [None].
    - The outside world (child processes, the HTTPS endpoint, the clock, the
      environment) is a [World]: an oracle answering each request, which may
      answer the same request differently at different points of the trace.
    - Asynchronous code runs in a state monad over the controller's fields
      and the trace of requests issued so far. *)

From Stdlib Require Import ZArith Floats Ascii String List Lia Bool DecimalString.
From stdpp Require Import base gmap strings list.

Set Warnings "-inexact-float".
Local Open Scope string_scope.
Local Open Scope list_scope.

(** ** JavaScript strings *)

Module JS.

(** [\s], and what [trim] strips: WhiteSpace and LineTerminator code units
    (tab, LF, VT, FF, CR, space, NBSP among the Latin-1 ones). *)
Definition is_space (a : ascii) : bool :=
  let n := nat_of_ascii a in
  (n =? 9)%nat || (n =? 10)%nat || (n =? 11)%nat || (n =? 12)%nat ||
  (n =? 13)%nat || (n =? 32)%nat || (n =? 160)%nat.

(** [\d] *)
Definition is_digit (a : ascii) : bool :=
  let n := nat_of_ascii a in (48 <=? n)%nat && (n <=? 57)%nat.

(** [.] without the [s] flag: anything but a line terminator. *)
Definition is_dot (a : ascii) : bool :=
  let n := nat_of_ascii a in negb ((n =? 10)%nat || (n =? 13)%nat).

Definition is_char (c : ascii) (a : ascii) : bool := Ascii.eqb a c.

Fixpoint trimStart (s : string) : string :=
  match s with
  | String a s' => if is_space a then trimStart s' else s
  | EmptyString => EmptyString
  end.

Fixpoint trimEnd (s : string) : string :=
  match s with
  | String a s' =>
      match trimEnd s' with
      | EmptyString => if is_space a then EmptyString else String a EmptyString
      | t => String a t
      end
  | EmptyString => EmptyString
  end.

(** [s.trim()] *)
Definition trim (s : string) : string := trimEnd (trimStart s).

(** Truthiness of a string: every string but the empty one. *)
Definition truthy (s : string) : bool :=
  match s with EmptyString => false | _ => true end.

(** [s.split(sep)] for a one-character separator. *)
Fixpoint split (sep : ascii) (s : string) : list string :=
  match s with
  | EmptyString => [EmptyString]
  | String a s' =>
      if Ascii.eqb a sep then EmptyString :: split sep s'
      else match split sep s' with
           | l :: ls => String a l :: ls
           | [] => [String a EmptyString]
           end
  end.

(** [s.startsWith(p)], returning what follows the prefix. *)
Fixpoint strip_prefix (p s : string) : option string :=
  match p with
  | EmptyString => Some s
  | String a p' =>
      match s with
      | String b s' => if Ascii.eqb a b then strip_prefix p' s' else None
      | EmptyString => None
      end
  end.

(** [s.includes(needle)] *)
Fixpoint includes (needle s : string) : bool :=
  match strip_prefix needle s with
  | Some _ => true
  | None => match s with
            | String _ s' => includes needle s'
            | EmptyString => false
            end
  end.

(** The first [n] code units of [s]. *)
Fixpoint take (n : nat) (s : string) : string :=
  match n, s with
  | S n', String a s' => String a (take n' s')
  | _, _ => EmptyString
  end.

(** The longest prefix of [s] in the class [p], and what follows it. *)
Fixpoint span (p : ascii -> bool) (s : string) : string * string :=
  match s with
  | String a s' =>
      if p a then let '(v, r) := span p s' in (String a v, r) else (EmptyString, s)
  | EmptyString => (EmptyString, EmptyString)
  end.

End JS.

(** ** Regular expressions

    The fragment of JavaScript's regular expressions the controller uses,
    with the backtracking semantics of [String.prototype.match] without the
    [g] flag: the leftmost start position at which the pattern matches,
    alternatives and quantifiers tried in priority order. *)

Module Regex.

Inductive regex : Type :=
| Eps                                  (* the empty pattern *)
| Chr (p : ascii -> bool)              (* one code unit of a class *)
| Cat (r1 r2 : regex)                  (* r1r2 *)
| Alt (r1 r2 : regex)                  (* r1|r2, r1 first *)
| Star (greedy : bool) (r : regex)     (* r* and r*? *)
| Grp (n : nat) (r : regex)            (* the n-th capturing group *)
| Eos.                                 (* $ *)

(** The captures recorded so far, most recent first. *)
Definition captures := list (nat * string).

Fixpoint capture (n : nat) (c : captures) : option string :=
  match c with
  | (k, v) :: c' => if (k =? n)%nat then Some v else capture n c'
  | [] => None
  end.

(** A literal string. *)
Fixpoint Lit (s : string) : regex :=
  match s with
  | String a EmptyString => Chr (JS.is_char a)
  | String a s' => Cat (Chr (JS.is_char a)) (Lit s')
  | EmptyString => Eps
  end.

(** [r+], [r+?] and [r?] *)
Definition Plus (greedy : bool) (r : regex) : regex := Cat r (Star greedy r).
Definition Opt (r : regex) : regex := Alt r Eps.

(** The iterations of a star whose body is matched by [step]: a greedy
    star tries one more iteration before it tries to go on, a lazy one the
    other way round. An iteration that consumes nothing is refused, as in
    JavaScript, so [fuel] = the length of the input is enough. *)
Fixpoint star_iter (greedy : bool)
    (step : string -> captures -> (string -> captures -> option captures) -> option captures)
    (k : string -> captures -> option captures)
    (fuel : nat) (s : string) (c : captures) : option captures :=
  match fuel with
  | O => k s c
  | S fuel' =>
      let again (_ : unit) :=
        step s c (fun s1 c1 =>
          if (String.length s1 <? String.length s)%nat
          then star_iter greedy step k fuel' s1 c1 else None) in
      if greedy then
        match again tt with
        | Some res => Some res
        | None => k s c
        end
      else
        match k s c with
        | Some res => Some res
        | None => again tt
        end
  end.

(** [exec_at r s c k]: match [r] at the start of [s], then continue with
    [k] on the rest; [None] when every way of matching fails. *)
Fixpoint exec_at (r : regex) (s : string) (c : captures)
    (k : string -> captures -> option captures) : option captures :=
  match r with
  | Eps => k s c
  | Chr p =>
      match s with
      | String a s' => if p a then k s' c else None
      | EmptyString => None
      end
  | Cat r1 r2 => exec_at r1 s c (fun s1 c1 => exec_at r2 s1 c1 k)
  | Alt r1 r2 =>
      match exec_at r1 s c k with
      | Some res => Some res
      | None => exec_at r2 s c k
      end
  | Star greedy r1 => star_iter greedy (exec_at r1) k (String.length s) s c
  | Grp n r1 =>
      exec_at r1 s c (fun s1 c1 =>
        k s1 ((n, JS.take (String.length s - String.length s1) s) :: c1))
  | Eos =>
      match s with
      | EmptyString => k s c
      | _ => None
      end
  end.

(** [s.match(r)]: the captures of the leftmost match. *)
Fixpoint search (r : regex) (s : string) : option captures :=
  match exec_at r s [] (fun _ c => Some c) with
  | Some c => Some c
  | None =>
      match s with
      | String _ s' => search r s'
      | EmptyString => None
      end
  end.

(** [m[n]] of a match result. *)
Definition group (n : nat) (m : option captures) : option string :=
  match m with Some c => capture n c | None => None end.

End Regex.

(** ** JavaScript numbers *)

Module Num.

(** The Number nearest to an integer (ties to even, infinite on overflow). *)
Definition Z2float (z : Z) : float :=
  SF2Prim (binary_normalize prec emax z 0 false).

Fixpoint digits_value (acc : Z) (s : string) : Z :=
  match s with
  | String a s' => digits_value (10 * acc + (Z.of_nat (nat_of_ascii a) - 48)) s'
  | EmptyString => acc
  end.

(** [parseInt(s)] on text that starts with its digits, which is how the
    controller calls it (on what [\d+] captured): the Number for the leading
    run of decimal digits, NaN when there is none. Signs, leading blanks and
    the [0x] prefix are not read. *)
Definition parseInt (s : string) : float :=
  match fst (JS.span JS.is_digit s) with
  | EmptyString => nan
  | ds => Z2float (digits_value 0 ds)
  end.

(** [Math.round(x)]: the integer nearest to [x], ties towards +infinity;
    NaN, infinities and zeros are returned as they are, and a negative [x]
    that rounds to zero gives [-0]. *)
Definition Math_round (x : float) : float :=
  match Prim2SF x with
  | S754_finite sign m e =>
      if (0 <=? e)%Z then x
      else
        let v := if sign then Z.opp (Z.pos m) else Z.pos m in
        let n := Z.div (2 * v + 2 ^ (- e)) (2 ^ (1 - e)) in
        if (n =? 0)%Z then (if sign then PrimFloat.neg_zero else PrimFloat.zero) else Z2float n
  | _ => x
  end.

(** The integer a finite integral Number denotes. *)
Definition float_to_Z (x : float) : option Z :=
  match Prim2SF x with
  | S754_zero _ => Some 0%Z
  | S754_finite sign m e =>
      if (0 <=? e)%Z
      then Some ((if sign then Z.opp (Z.pos m) else Z.pos m) * 2 ^ e)%Z
      else if (Z.pos m mod 2 ^ (- e) =? 0)%Z
      then Some ((if sign then Z.opp (Z.pos m) else Z.pos m) / 2 ^ (- e))%Z
      else None
  | _ => None
  end.

(** The decimal rendering of an integer: [String(n)]. *)
Definition Z_toString (z : Z) : string := NilEmpty.string_of_int (Z.to_int z).

(** The number of decimal digits of a positive integer. *)
Definition decimalLength (z : Z) : Z := Z.of_nat (String.length (Z_toString z)).

(** The integer with the fewest significant digits that a Number denotes
    as well as [v = m * 2 ^ e] does (the integers nearer to [v] than to the
    Numbers next to it; a tie goes to the even mantissa); of several, the
    one nearest to [v]. [k] counts the significant digits tried; with all
    [n] digits of [v] the integer is [v] itself. *)
Fixpoint shortestFrom (fuel : nat) (k n v lo4 hi4 : Z) (closed : bool) : Z :=
  match fuel with
  | O => v
  | S fuel' =>
      let p := (10 ^ (n - k))%Z in
      let s := (v / p)%Z in
      let d1 := (s * p)%Z in
      let d2 := ((s + 1) * p)%Z in
      let inside (d : Z) :=
        if closed then (lo4 <=? 4 * d)%Z && (4 * d <=? hi4)%Z
        else (lo4 <? 4 * d)%Z && (4 * d <? hi4)%Z in
      match inside d1, inside d2 with
      | true, true =>
          if (v - d1 <? d2 - v)%Z then d1
          else if (d2 - v <? v - d1)%Z then d2
          else if Z.even s then d1 else d2
      | true, false => d1
      | false, true => d2
      | false, false => shortestFrom fuel' (k + 1) n v lo4 hi4 closed
      end
  end.

Definition shortestInteger (m : positive) (e : Z) : Z :=
  let v := (Z.pos m * 2 ^ e)%Z in
  let up := (2 * 2 ^ e)%Z in
  let down := if (Z.pos m =? 2 ^ 52)%Z then (2 ^ e)%Z else (2 * 2 ^ e)%Z in
  let n := decimalLength v in
  shortestFrom (Z.to_nat n) 1 n v (4 * v - down) (4 * v + up) (Z.even (Z.pos m)).

(** [s] without the zeros at its end. *)
Fixpoint stripZeros (s : string) : string :=
  match s with
  | EmptyString => EmptyString
  | String a s' =>
      match stripZeros s' with
      | EmptyString => if Ascii.eqb a "0" then EmptyString else String a EmptyString
      | t => String a t
      end
  end.

(** The rendering of a positive integer that is printed as it is: with all
    its digits up to 21 of them, and from there on as [d.ddde+x]. *)
Definition renderInteger (d : Z) : string :=
  let digits := Z_toString d in
  if (String.length digits <=? 21)%nat then digits
  else
    let exponent := NilEmpty.string_of_uint (Nat.to_uint (String.length digits - 1)) in
    match stripZeros digits with
    | String a EmptyString => String a EmptyString +:+ "e+" +:+ exponent
    | String a rest => String a ("." +:+ rest) +:+ "e+" +:+ exponent
    | EmptyString => digits
    end.

(** [String(x)] as a template literal renders it, for the Numbers the
    controller interpolates: those [parseInt] returns, which are integral,
    infinite or NaN. An integer is printed with the fewest digits that
    denote the same Number, followed by zeros (so above [2 ^ 53] not always
    with the digits it was read from), and from 1e21 on with an exponent.
    No Number with a fraction reaches this function; its last case is
    there for totality only. *)
Definition Number_toString (x : float) : string :=
  match Prim2SF x with
  | S754_zero _ => "0"
  | S754_infinity false => "Infinity"
  | S754_infinity true => "-Infinity"
  | S754_nan => "NaN"
  | S754_finite sign m e =>
      if (0 <=? e)%Z
      then (if sign then "-" else "") +:+ renderInteger (shortestInteger m e)
      else
        match float_to_Z x with
        | Some z => Z_toString z
        | None => "NaN"
        end
  end.

End Num.

(** ** The data model *)

(** [{id, ip, name, online}] *)
Module Device.
Record t : Type := mk { id : string; ip : string; name : string; online : bool }.
End Device.

(** The status object [getTunerStatus] resolves to. A field the program
    leaves unset is [None]; [lock] is always set. *)
Module TunerStatus.
Record t : Type := mk {
  channel : option string;
  lock : bool;
  ss : option float;
  snq : option float;
  seq : option float;
  bps : option float;
  pps : option float;
  ssDb : option float;
  snrDb : option float;
  debugRaw : option string
}.
End TunerStatus.

(** One element of the program list. *)
Module ProgramEntry.
Record t : Type := mk {
  programNum : string;
  virtualChannel : string;
  name : string;
  callsign : string;
  status : string;
  encrypted : bool;
  atsc3 : bool
}.
End ProgramEntry.

(** An entry of [deviceNameCache]: [{device, timestamp}]. *)
Record CacheEntry : Type := mkCacheEntry { device : Device.t; timestamp : Z }.

(** One element of the array the discovery endpoint answers with, as the
    program reads it: [DeviceID] when the entry has one (storage-only
    entries carry a [StorageID] instead) and [LocalIP], which the endpoint
    reports for every entry. *)
Record DiscoverEntry : Type := mkDiscoverEntry { DeviceID : option string; LocalIP : string }.

(** ** The outside world *)

(** What [exec]'s callback receives: whether [error] is set, and [stdout]. *)
Record ExecResult : Type := mkExecResult { error : bool; stdout : string }.

(** How the HTTPS request ends: an [error] event, the 5 s timeout, or the
    end of the response, whose body [JSON.parse] and the reading of the
    entries either accept ([Some]) or throw on ([None]). *)
Inductive HttpResult : Type :=
| HttpError
| HttpTimeout
| HttpEnd (entries : option (list DiscoverEntry)).

(** The requests the controller sends out, in the order it sends them. *)
Inductive Event : Type :=
| EvExec (command : string)
| EvHttpGet (url : string).

(** The world answers a request by its position in the trace. *)
Record World : Type := mkWorld {
  w_exec : nat -> string -> ExecResult;
  w_http : nat -> HttpResult;
  w_now : nat -> Z;
  env_HDHOMERUN_DISABLE_DISCOVERY : option string;
  env_HDHOMERUN_DEVICES : option string
}.

(** What a timer created by [setInterval] runs, and for which socket. *)
Inductive Task : Type :=
| SingleTask (socketId deviceId tuner : string)
| AntennaTask (socketId deviceId : string) (tunerCount : nat).

Definition task_owner (t : Task) : string :=
  match t with
  | SingleTask sid _ _ => sid
  | AntennaTask sid _ _ => sid
  end.

(** The controller's fields ([devices], [deviceNameCache],
    [httpDiscoveryCache], [monitoringIntervals]) and the runtime's: the
    timers that are set, the next timer handle and the trace. *)
Record State : Type := mkState {
  devices : list Device.t;
  deviceNameCache : gmap string CacheEntry;
  httpDiscoveryCache : option (list Device.t);
  monitoringIntervals : gmap string nat;
  timers : gmap nat Task;
  nextTimer : nat;
  trace : list Event
}.

(** [new HDHomeRunController()] in a fresh runtime. *)
Definition constructor : State :=
  mkState [] ∅ None ∅ ∅ 0 [].

Definition cacheTTL : Z := 5 * 60 * 1000.

Definition set_devices (v : list Device.t) (st : State) : State :=
  mkState v (deviceNameCache st) (httpDiscoveryCache st) (monitoringIntervals st)
          (timers st) (nextTimer st) (trace st).
Definition set_deviceNameCache (v : gmap string CacheEntry) (st : State) : State :=
  mkState (devices st) v (httpDiscoveryCache st) (monitoringIntervals st)
          (timers st) (nextTimer st) (trace st).
Definition set_httpDiscoveryCache (v : option (list Device.t)) (st : State) : State :=
  mkState (devices st) (deviceNameCache st) v (monitoringIntervals st)
          (timers st) (nextTimer st) (trace st).
Definition set_monitoringIntervals (v : gmap string nat) (st : State) : State :=
  mkState (devices st) (deviceNameCache st) (httpDiscoveryCache st) v
          (timers st) (nextTimer st) (trace st).
Definition set_timers (v : gmap nat Task) (n : nat) (st : State) : State :=
  mkState (devices st) (deviceNameCache st) (httpDiscoveryCache st)
          (monitoringIntervals st) v n (trace st).
Definition set_trace (v : list Event) (st : State) : State :=
  mkState (devices st) (deviceNameCache st) (httpDiscoveryCache st)
          (monitoringIntervals st) (timers st) (nextTimer st) v.

(** ** The monad of asynchronous code *)

Definition M (A : Type) : Type := World -> State -> A * State.

Definition ret {A : Type} (a : A) : M A := fun _ st => (a, st).

Definition bind {A B : Type} (m : M A) (f : A -> M B) : M B :=
  fun w st => let '(a, st') := m w st in f a w st'.

Notation "'let*' x ':=' c1 'in' c2" := (bind c1 (fun x => c2))
  (at level 10, x pattern, c1 at level 100, c2 at level 200).
Notation "c1 ;; c2" := (bind c1 (fun _ => c2))
  (at level 100, c2 at level 200, right associativity).

Definition get : M State := fun _ st => (st, st).
Definition modify (f : State -> State) : M unit := fun _ st => (tt, f st).
Definition env {A : Type} (f : World -> A) : M A := fun w st => (f w, st).

(** [await Promise.all(xs.map(f))] for calls that do not share state while
    they are pending: the requests go out in the order of [xs]. *)
Fixpoint mapM {A B : Type} (f : A -> M B) (xs : list A) : M (list B) :=
  match xs with
  | [] => ret []
  | x :: xs' => let* y := f x in let* ys := mapM f xs' in ret (y :: ys)
  end.

(** [exec(command, callback)]: the callback's arguments. *)
Definition exec (command : string) : M ExecResult :=
  fun w st =>
    (w_exec w (length (trace st)) command,
     set_trace (trace st ++ [EvExec command]) st).

(** [https.get(url, ...)] with its three ways of ending. *)
Definition https_get (url : string) : M HttpResult :=
  fun w st =>
    (w_http w (length (trace st)),
     set_trace (trace st ++ [EvHttpGet url]) st).

(** [Date.now()] *)
Definition Date_now : M Z := fun w st => (w_now w (length (trace st)), st).

(** ** DeviceProbe: tuner status *)

Import Regex.

(** [Seq [r1; ...; rn]] is the pattern r1...rn. *)
Fixpoint Seq (rs : list regex) : regex :=
  match rs with
  | [] => Eps
  | [r] => r
  | r :: rs' => Cat r (Seq rs')
  end.

Definition not_space (a : ascii) : bool := negb (JS.is_space a).

(** The patterns of [getTunerStatus]: [/ch=([^\s]+)/], [/lock=([^\s]+)/],
    [/ss=(\d+)/] and so on. *)
Definition key_pattern (key : string) (cls : ascii -> bool) : regex :=
  Cat (Lit (key +:+ "=")) (Grp 1 (Plus true (Chr cls))).

Definition patterns_channel : regex := key_pattern "ch" not_space.
Definition patterns_lock : regex := key_pattern "lock" not_space.
Definition patterns_ss : regex := key_pattern "ss" JS.is_digit.
Definition patterns_snq : regex := key_pattern "snq" JS.is_digit.
Definition patterns_seq : regex := key_pattern "seq" JS.is_digit.
Definition patterns_bps : regex := key_pattern "bps" JS.is_digit.
Definition patterns_pps : regex := key_pattern "pps" JS.is_digit.

(** [/dbg=(\d+)-(\d+)\/(-?\d+)/] *)
Definition pattern_dbg : regex :=
  Seq [Lit "dbg="; Grp 1 (Plus true (Chr JS.is_digit)); Lit "-";
       Grp 2 (Plus true (Chr JS.is_digit)); Lit "/";
       Grp 3 (Cat (Opt (Lit "-")) (Plus true (Chr JS.is_digit)))].

(** [{ channel: 'none', lock: false }] *)
Definition status_none : TunerStatus.t :=
  TunerStatus.mk (Some "none") false None None None None None None None None.

(** The status part of [getTunerStatus]: from [statusResult.trim()] to
    [status.lock = status.lock !== undefined]. *)
Definition parseStatusLine (statusResult : string) : TunerStatus.t :=
  let statusLine := JS.trim statusResult in
  if String.eqb statusLine "none" then status_none
  else
    let field (p : regex) := group 1 (search p statusLine) in
    TunerStatus.mk
      (field patterns_channel)
      (match field patterns_lock with Some _ => true | None => false end)
      (Num.parseInt <$> field patterns_ss)
      (Num.parseInt <$> field patterns_snq)
      (Num.parseInt <$> field patterns_seq)
      (Num.parseInt <$> field patterns_bps)
      (Num.parseInt <$> field patterns_pps)
      None None None.

(** ** SignalEstimator *)

(** The four branches on [signalRaw]. *)
Definition estimatedSignalDbm (signalRaw : float) : float :=
  if (80 <=? signalRaw)%float then (-40 - (100 - signalRaw) * 0.5)%float
  else if (60 <=? signalRaw)%float then (-50 - (80 - signalRaw) * 0.5)%float
  else if (20 <=? signalRaw)%float then (-60 - (60 - signalRaw) * 0.5)%float
  else (-80 - (20 - signalRaw) * 0.5)%float.

Definition estimatedSnrDb (snrRaw : float) : float := (snrRaw * 0.31)%float.

(** [Math.round(x * 10) / 10] *)
Definition round1 (x : float) : float := (Num.Math_round (x * 10) / 10)%float.

(** [(ssDb, snrDb)] as [getTunerStatus] sets them. *)
Definition estimate (signalRaw snrRaw : float) : float * float :=
  (round1 (estimatedSignalDbm signalRaw),
   if (0 <? snrRaw)%float then round1 (estimatedSnrDb snrRaw) else 0%float).

(** The debug part of [getTunerStatus]: the fields added to [status] when
    [debugResult] is truthy and matches. *)
Definition applyDebug (debugResult : option string) (status : TunerStatus.t) : TunerStatus.t :=
  match debugResult with
  | Some dbg =>
      if JS.truthy dbg then
        match search pattern_dbg dbg with
        | Some dbgMatch =>
            let signalRaw := Num.parseInt (default "" (capture 1 dbgMatch)) in
            let snrRaw := Num.parseInt (default "" (capture 2 dbgMatch)) in
            let '(ssDb, snrDb) := estimate signalRaw snrRaw in
            TunerStatus.mk
              (TunerStatus.channel status) (TunerStatus.lock status)
              (TunerStatus.ss status) (TunerStatus.snq status)
              (TunerStatus.seq status) (TunerStatus.bps status)
              (TunerStatus.pps status)
              (Some ssDb) (Some snrDb)
              (Some (Num.Number_toString signalRaw +:+ "-" +:+
                     Num.Number_toString snrRaw +:+ "/" +:+
                     default "" (capture 3 dbgMatch)))
        | None => status
        end
      else status
  | None => status
  end.

(** What [getTunerStatus] resolves to, given what its two queries resolved
    to. *)
Definition tunerStatusOf (statusResult debugResult : option string) : option TunerStatus.t :=
  match statusResult with
  | Some text =>
      if JS.truthy text then
        if String.eqb (JS.trim text) "none" then Some status_none
        else Some (applyDebug debugResult (parseStatusLine text))
      else None
  | None => None
  end.

Definition tunerCommand (deviceId tuner command : string) : string :=
  "hdhomerun_config " +:+ deviceId +:+ " get /tuner" +:+ tuner +:+ "/" +:+ command.

(** [getStatusCommand]: [null] on error, the trimmed output otherwise. *)
Definition getStatusCommand (deviceId tuner command : string) : M (option string) :=
  let* r := exec (tunerCommand deviceId tuner command) in
  ret (if error r then None else Some (JS.trim (stdout r))).

(** [getTunerStatus]: both queries are sent before either is awaited. *)
Definition getTunerStatus (deviceId tuner : string) : M (option TunerStatus.t) :=
  let* statusResult := getStatusCommand deviceId tuner "status" in
  let* debugResult := getStatusCommand deviceId tuner "debug" in
  ret (tunerStatusOf statusResult debugResult).

(** ** DeviceProbe: the program list *)

Definition digit_or_dot (a : ascii) : bool := JS.is_digit a || JS.is_char "." a.
Definition not_rparen (a : ascii) : bool := negb (JS.is_char ")" a).

(** [(\d+):\s*([\d.]+)\s+(.+?)(?:\s+\(([^)]+)\))?$], the part the two
    patterns of the program list share. *)
Definition pattern_program_tail : list regex :=
  [Grp 1 (Plus true (Chr JS.is_digit)); Lit ":"; Star true (Chr JS.is_space);
   Grp 2 (Plus true (Chr digit_or_dot)); Plus true (Chr JS.is_space);
   Grp 3 (Plus false (Chr JS.is_dot));
   Opt (Seq [Plus true (Chr JS.is_space); Lit "(";
             Grp 4 (Plus true (Chr not_rparen)); Lit ")"]);
   Eos].

(** [/(?:program|service)=(\d+):\s*([\d.]+)\s+(.+?)(?:\s+\(([^)]+)\))?$/] *)
Definition pattern_program : regex :=
  Seq (Alt (Lit "program") (Lit "service") :: Lit "=" :: pattern_program_tail).

(** [/(\d+):\s*([\d.]+)\s+(.+?)(?:\s+\(([^)]+)\))?$/] *)
Definition pattern_program_alt : regex := Seq pattern_program_tail.

Definition programOfMatch (m : captures) : ProgramEntry.t :=
  let name := JS.trim (default "" (capture 3 m)) in
  let status := default "" (capture 4 m) in
  ProgramEntry.mk (default "" (capture 1 m)) (default "" (capture 2 m))
    name name status
    (JS.includes "encrypted" status) (JS.includes "atsc3" status).

Definition parseProgramLine (line : string) : option ProgramEntry.t :=
  match search pattern_program line with
  | Some programMatch => Some (programOfMatch programMatch)
  | None =>
      match search pattern_program_alt line with
      | Some altMatch => Some (programOfMatch altMatch)
      | None => None
      end
  end.

(** [stdout.split('\n').filter(line => line.trim())] *)
Definition nonblank_lines (text : string) : list string :=
  List.filter (fun line => JS.truthy (JS.trim line)) (JS.split "010" text).

Definition parsePrograms (text : string) : list ProgramEntry.t :=
  omap parseProgramLine (nonblank_lines text).

(** [tryGetPrograms], by the retries that are left: [maxRetries - attempt].
    The waits between attempts (1.5 s after an error, 2 s after an empty
    list) only let time pass. *)
Fixpoint tryGetPrograms (deviceId tuner : string) (retriesLeft : nat)
    : M (list ProgramEntry.t) :=
  let* r := exec (tunerCommand deviceId tuner "streaminfo") in
  if error r then
    match retriesLeft with
    | S n => tryGetPrograms deviceId tuner n
    | O => ret []
    end
  else
    let programs := parsePrograms (stdout r) in
    match programs, retriesLeft with
    | [], S n => tryGetPrograms deviceId tuner n
    | _, _ => ret programs
    end.

(** [!status || !status.lock || status.channel === 'none'] *)
Definition notTuned (status : option TunerStatus.t) : bool :=
  match status with
  | None => true
  | Some st =>
      negb (TunerStatus.lock st) ||
      match TunerStatus.channel st with
      | Some ch => String.eqb ch "none"
      | None => false
      end
  end.

Definition getCurrentChannelPrograms (deviceId tuner : string) (maxRetries : nat)
    : M (list ProgramEntry.t) :=
  let* status := getTunerStatus deviceId tuner in
  if notTuned status then ret []
  else tryGetPrograms deviceId tuner maxRetries.

(** ** DiscoveryService *)

Definition hex_or_dash (a : ascii) : bool :=
  let n := nat_of_ascii a in
  ((65 <=? n)%nat && (n <=? 70)%nat) || JS.is_digit a || JS.is_char "-" a.

(** [/hdhomerun device ([A-F0-9-]+) found at ([0-9.]+)/] *)
Definition pattern_found : regex :=
  Seq [Lit "hdhomerun device "; Grp 1 (Plus true (Chr hex_or_dash));
       Lit " found at "; Grp 2 (Plus true (Chr digit_or_dot))].

(** [getDeviceModel]: [null] on error or on blank output. *)
Definition getDeviceModel (host : string) : M (option string) :=
  let* r := exec ("hdhomerun_config " +:+ host +:+ " get /sys/hwmodel") in
  ret (if error r then None
       else let model := JS.trim (stdout r) in
            if JS.truthy model then Some model else None).

(** [model ? `HDHomeRun ${deviceId} (${model})` : `HDHomeRun ${deviceId}`] *)
Definition tunerName (deviceId : string) (model : option string) : string :=
  match model with
  | Some m => "HDHomeRun " +:+ deviceId +:+ " (" +:+ m +:+ ")"
  | None => "HDHomeRun " +:+ deviceId
  end.

(** The [(deviceId, deviceIp)] pairs of the output of the discover command,
    the first of each id only. *)
Definition discoveredDevices (lines : list string) : list (string * string) :=
  fst (fold_left
         (fun (acc : list (string * string) * gset string) line =>
            let '(found, deviceSet) := acc in
            match search pattern_found line with
            | Some m =>
                let deviceId := default "" (capture 1 m) in
                let deviceIp := default "" (capture 2 m) in
                if decide (deviceId ∈ deviceSet) then acc
                else (found ++ [(deviceId, deviceIp)], {[deviceId]} ∪ deviceSet)
            | None => acc
            end)
         lines ([], ∅)).

Definition udpDiscoverDevices : M (list Device.t) :=
  let* r := exec "hdhomerun_config discover" in
  if error r then ret []
  else
    mapM (fun '(deviceId, deviceIp) =>
            let* model := getDeviceModel deviceIp in
            ret (Device.mk deviceId deviceIp (tunerName deviceId model) true))
         (discoveredDevices (nonblank_lines (stdout r))).

(** [e.DeviceID] as a condition. *)
Definition hasDeviceID (e : DiscoverEntry) : bool :=
  match DeviceID e with Some d => JS.truthy d | None => false end.

(** The device made of one entry of the answer, its model looked up. *)
Definition cloudDevice (entry : DiscoverEntry) : M Device.t :=
  let ip := LocalIP entry in
  let deviceId := default "" (DeviceID entry) in
  let* model := getDeviceModel ip in
  ret (Device.mk ip ip (tunerName deviceId model) true).

Definition httpDiscoverDevices : M (list Device.t) :=
  let* r := https_get "https://ipv4-api.hdhomerun.com/discover" in
  match r with
  | HttpEnd (Some entries) =>
      let tuners := List.filter hasDeviceID entries in
      mapM cloudDevice tuners
  | HttpEnd None => ret []
  | HttpError => ret []
  | HttpTimeout => ret []
  end.

Definition autoDiscoverDevices (forceRefresh : bool) : M (list Device.t) :=
  let* udpDevices := udpDiscoverDevices in
  if (0 <? length udpDevices)%nat then ret udpDevices
  else
    let* st := get in
    match forceRefresh, httpDiscoveryCache st with
    | false, Some cached => ret cached
    | _, _ =>
        let* httpDevices := httpDiscoverDevices in
        modify (set_httpDiscoveryCache (Some httpDevices)) ;;
        ret httpDevices
    end.

(** The start of [getDeviceByHost], up to the first suspension: the cached
    device when the entry is younger than [cacheTTL]. *)
Definition cachedDevice (host : string) : M (option Device.t) :=
  let* st := get in
  let* now := Date_now in
  ret (match deviceNameCache st !! host with
       | Some cached =>
           if (now - timestamp cached <? cacheTTL)%Z then Some (device cached) else None
       | None => None
       end).

Definition cacheDevice (host : string) (d : Device.t) : M unit :=
  let* now := Date_now in
  modify (fun st =>
    set_deviceNameCache (<[host := mkCacheEntry d now]> (deviceNameCache st)) st).

(** [{id: host, ip: host, name: `HDHomeRun (${host})`, online: false}] *)
Definition offlineDevice (host : string) : Device.t :=
  Device.mk host host ("HDHomeRun (" +:+ host +:+ ")") false.

(** The rest of [getDeviceByHost]: the two queries and their callbacks. *)
Definition queryDeviceByHost (host : string) : M Device.t :=
  let* r := exec ("hdhomerun_config " +:+ host +:+ " get /sys/hwmodel") in
  if error r then
    cacheDevice host (offlineDevice host) ;;
    ret (offlineDevice host)
  else
    let model := let m := JS.trim (stdout r) in if JS.truthy m then m else "Unknown" in
    let* d := exec ("hdhomerun_config discover " +:+ host) in
    let deviceId :=
      if JS.truthy (stdout d) then group 1 (search pattern_found (stdout d)) else None in
    let dev :=
      Device.mk host host
        (match deviceId with
         | Some i => "HDHomeRun " +:+ i +:+ " (" +:+ model +:+ ")"
         | None => "HDHomeRun " +:+ model +:+ " (" +:+ host +:+ ")"
         end)
        true in
    cacheDevice host dev ;;
    ret dev.

Definition getDeviceByHost (host : string) : M Device.t :=
  let* cached := cachedDevice host in
  match cached with
  | Some d => ret d
  | None => queryDeviceByHost host
  end.

(** A call of [getDeviceByHost] that is one of many. Called in a row, as
    [manualHosts.map] does, each call runs up to its first suspension: it
    returns the cached device, or sends the model query. The callbacks come
    later. *)
Inductive Started : Type :=
| StartedCached (d : Device.t)
| StartedQuery (host : string) (r : ExecResult).

(** After the callback of the model query: the call is settled (from the
    cache, or with the placeholder), or the discover query is out. *)
Inductive Pending : Type :=
| PendingDone (d : Device.t)
| PendingDiscover (host model : string) (d : ExecResult).

Definition startLookup (host : string) : M Started :=
  let* cached := cachedDevice host in
  match cached with
  | Some d => ret (StartedCached d)
  | None =>
      let* r := exec ("hdhomerun_config " +:+ host +:+ " get /sys/hwmodel") in
      ret (StartedQuery host r)
  end.

Definition modelCallback (s : Started) : M Pending :=
  match s with
  | StartedCached d => ret (PendingDone d)
  | StartedQuery host r =>
      if error r then
        cacheDevice host (offlineDevice host) ;;
        ret (PendingDone (offlineDevice host))
      else
        let model := let m := JS.trim (stdout r) in if JS.truthy m then m else "Unknown" in
        let* d := exec ("hdhomerun_config discover " +:+ host) in
        ret (PendingDiscover host model d)
  end.

Definition discoverCallback (p : Pending) : M Device.t :=
  match p with
  | PendingDone d => ret d
  | PendingDiscover host model d =>
      let deviceId :=
        if JS.truthy (stdout d) then group 1 (search pattern_found (stdout d)) else None in
      let dev :=
        Device.mk host host
          (match deviceId with
           | Some i => "HDHomeRun " +:+ i +:+ " (" +:+ model +:+ ")"
           | None => "HDHomeRun " +:+ model +:+ " (" +:+ host +:+ ")"
           end)
          true in
      cacheDevice host dev ;;
      ret dev
  end.

(** [await Promise.all(manualHosts.map(host => this.getDeviceByHost(host)))]:
    every call reads the cache and sends its model query before any
    callback runs, so the model queries of all hosts go out first, in the
    order of the hosts. The callbacks are taken in that order too: those of
    the model queries, which send the discover queries, then those of the
    discover queries. The devices come back in the order of the hosts. *)
Definition getDevicesByHosts (manualHosts : list string) : M (list Device.t) :=
  let* started := mapM startLookup manualHosts in
  let* pending := mapM modelCallback started in
  mapM discoverCallback pending.

(** The two [forEach] loops of [discoverDevices]: push the devices whose
    id [deviceSet] has not seen. *)
Definition mergeDevices (found : list Device.t) (acc : list Device.t * gset string)
    : list Device.t * gset string :=
  fold_left
    (fun (acc : list Device.t * gset string) d =>
       let '(devices, deviceSet) := acc in
       if decide (Device.id d ∈ deviceSet) then acc
       else (devices ++ [d], {[Device.id d]} ∪ deviceSet))
    found acc.

(** [manualDevices.split(',').map(h => h.trim()).filter(h => h)] *)
Definition manualHostsOf (manualDevices : string) : list string :=
  List.filter JS.truthy (map JS.trim (JS.split "," manualDevices)).

Definition discoverDevices (forceRefresh : bool) : M (list Device.t) :=
  (if forceRefresh then modify (set_deviceNameCache ∅) else ret tt) ;;
  let* disableDiscovery :=
    env (fun w => match env_HDHOMERUN_DISABLE_DISCOVERY w with
                  | Some v => String.eqb v "true"
                  | None => false
                  end) in
  let* manualDevices := env (fun w => default "" (env_HDHOMERUN_DEVICES w)) in
  let* autoDiscovered :=
    (if negb disableDiscovery then autoDiscoverDevices forceRefresh else ret []) in
  let merged := mergeDevices autoDiscovered ([], ∅) in
  let* manualResults :=
    (if JS.truthy manualDevices then getDevicesByHosts (manualHostsOf manualDevices)
     else ret []) in
  let devices := fst (mergeDevices manualResults merged) in
  modify (set_devices devices) ;;
  ret devices.

(** ** MonitoringSessionManager *)

(** A socket.io socket, as far as the controller looks at it. *)
Record Socket : Type := mkSocket { socket_id : string }.

(** [setInterval(task, 1000)] and [clearInterval(handle)] *)
Definition setInterval (task : Task) (st : State) : nat * State :=
  (nextTimer st, set_timers (<[nextTimer st := task]> (timers st)) (S (nextTimer st)) st).

Definition clearInterval (handle : nat) (st : State) : State :=
  set_timers (delete handle (timers st)) (nextTimer st) st.

(** [stopMonitoring(socket)]; [socket?.id] is [undefined] for no socket. *)
Definition stopMonitoring (socket : option Socket) (st : State) : State :=
  match socket with
  | Some sk =>
      let socketId := socket_id sk in
      if JS.truthy socketId then
        match monitoringIntervals st !! socketId with
        | Some handle =>
            let st' := clearInterval handle st in
            set_monitoringIntervals (delete socketId (monitoringIntervals st')) st'
        | None => st
        end
      else st
  | None => st
  end.

Definition startMonitoring (socket : Socket) (deviceId tuner : string) (st : State) : State :=
  let st1 := stopMonitoring (Some socket) st in
  let '(intervalId, st2) := setInterval (SingleTask (socket_id socket) deviceId tuner) st1 in
  set_monitoringIntervals (<[socket_id socket := intervalId]> (monitoringIntervals st2)) st2.

Definition startAntennaMode (socket : Socket) (deviceId : string) (tunerCount : nat)
    (st : State) : State :=
  let st1 := stopMonitoring (Some socket) st in
  let '(intervalId, st2) := setInterval (AntennaTask (socket_id socket) deviceId tunerCount) st1 in
  set_monitoringIntervals (<[socket_id socket := intervalId]> (monitoringIntervals st2)) st2.

(** [{ tuner: i, status }] *)
Record TunerData : Type := mkTunerData { tuner : nat; status : option TunerStatus.t }.

(** [String(i)] for an array index. *)
Definition index_toString (i : nat) : string := NilEmpty.string_of_uint (Nat.to_uint i).

(** One run of the timer callback of [startAntennaMode]: the array it emits
    as [antenna-mode-status], for a [tunerCount] that is a number of tuners
    (a length an array can have). [getTunerStatus] never rejects, so the
    [catch] of each element is not taken. *)
Definition antennaTick (deviceId : string) (tunerCount : nat) : M (list TunerData) :=
  mapM (fun i =>
          let* status := getTunerStatus deviceId (index_toString i) in
          ret (mkTunerData i status))
       (List.seq 0 tunerCount).

(** ** DeviceProbe: device information *)

(** [checkTuner(tunerNum)] of [getTunerCount]: whether the status query of
    the tuner comes back without error. *)
Definition checkTuner (deviceId : string) (tunerNum : nat) : M bool :=
  let* r := exec (tunerCommand deviceId (index_toString tunerNum) "status") in
  ret (negb (error r)).

(** [getTunerCount]: tuners 0 to 7 are probed; no check ever rejects, so
    the [catch] is not taken. *)
Definition getTunerCount (deviceId : string) : M nat :=
  let* results := mapM (checkTuner deviceId) [0; 1; 2; 3; 4; 5; 6; 7] in
  let tunerCount := length (List.filter (fun exists_ : bool => exists_) results) in
  ret (if (0 <? tunerCount)%nat then tunerCount else 2).

(** [{ model, tuners, atsc3Support }] *)
Module DeviceInfo.
Record t : Type := mk { model : string; tuners : nat; atsc3Support : bool }.
End DeviceInfo.

(** [getDeviceInfo]. [getTunerCount] never rejects, so the detection of the
    tuner count by model name (in its [catch]) is not taken. *)
Definition getDeviceInfo (deviceId : string) : M DeviceInfo.t :=
  let* r := exec ("hdhomerun_config " +:+ deviceId +:+ " get /sys/model") in
  if error r then ret (DeviceInfo.mk "Unknown" 2 false)
  else
    let model := JS.trim (stdout r) in
    let atsc3Support := true in
    let* tunerCount := getTunerCount deviceId in
    ret (DeviceInfo.mk model tunerCount atsc3Support).

(** [getCurrentProgram]: [null] on error, on blank output and on ['none']. *)
Definition getCurrentProgram (deviceId tuner : string) : M (option string) :=
  let* r := exec (tunerCommand deviceId tuner "program") in
  ret (if error r then None
       else
         let program := JS.trim (stdout r) in
         if JS.truthy program && negb (String.eqb program "none")
         then Some program else None).

(** ** DeviceProbe: channel scan *)

(** [\w] *)
Definition is_word (a : ascii) : bool :=
  let n := nat_of_ascii a in
  ((65 <=? n)%nat && (n <=? 90)%nat) || ((97 <=? n)%nat && (n <=? 122)%nat) ||
  JS.is_digit a || (n =? 95)%nat.

(** [/SCANNING: (\d+) \(([^)]+)\)/] *)
Definition pattern_scanning : regex :=
  Seq [Lit "SCANNING: "; Grp 1 (Plus true (Chr JS.is_digit)); Lit " (";
       Grp 2 (Plus true (Chr not_rparen)); Lit ")"].

(** [/LOCK: (\w+) \(ss=(\d+) snq=(\d+) seq=(\d+)\)/] *)
Definition pattern_scan_lock : regex :=
  Seq [Lit "LOCK: "; Grp 1 (Plus true (Chr is_word)); Lit " (ss=";
       Grp 2 (Plus true (Chr JS.is_digit)); Lit " snq=";
       Grp 3 (Plus true (Chr JS.is_digit)); Lit " seq=";
       Grp 4 (Plus true (Chr JS.is_digit)); Lit ")"].

(** [/PROGRAM (\d+): ([\d.]+) (.+)/] *)
Definition pattern_scan_program : regex :=
  Seq [Lit "PROGRAM "; Grp 1 (Plus true (Chr JS.is_digit)); Lit ": ";
       Grp 2 (Plus true (Chr digit_or_dot)); Lit " ";
       Grp 3 (Plus true (Chr JS.is_dot))].

(** [{ programNum, virtualChannel, name }] *)
Module ScanProgram.
Record t : Type := mk { programNum : string; virtualChannel : string; name : string }.
End ScanProgram.

(** One element of the result of [scanChannels]. *)
Module ScanChannel.
Record t : Type := mk {
  frequency : string;
  channel : string;
  modulation : string;
  signalStrength : float;
  snr : float;
  symbolQuality : float;
  programs : list ScanProgram.t
}.
End ScanChannel.

(** [channels[channels.length - 1].programs.push(p)] *)
Definition addProgram (p : ScanProgram.t) (c : ScanChannel.t) : ScanChannel.t :=
  ScanChannel.mk (ScanChannel.frequency c) (ScanChannel.channel c) (ScanChannel.modulation c)
                 (ScanChannel.signalStrength c) (ScanChannel.snr c)
                 (ScanChannel.symbolQuality c) (ScanChannel.programs c ++ [p]).

Fixpoint pushProgram (p : ScanProgram.t) (channels : list ScanChannel.t) : list ScanChannel.t :=
  match channels with
  | [] => []
  | [c] => [addProgram p c]
  | c :: cs => c :: pushProgram p cs
  end.

(** The body of the loop over the lines of the scan output. *)
Definition scanLine (channels : list ScanChannel.t) (line : string) : list ScanChannel.t :=
  let scanMatch := search pattern_scanning line in
  let lockMatch := search pattern_scan_lock line in
  let programMatch := search pattern_scan_program line in
  let channels1 :=
    match scanMatch, lockMatch with
    | Some sm, Some lm =>
        channels ++
        [ScanChannel.mk (default "" (capture 1 sm)) (default "" (capture 2 sm))
           (default "" (capture 1 lm))
           (Num.parseInt (default "" (capture 2 lm)))
           (Num.parseInt (default "" (capture 3 lm)))
           (Num.parseInt (default "" (capture 4 lm)))
           []]
    | _, _ => channels
    end in
  match programMatch, channels1 with
  | Some pm, _ :: _ =>
      pushProgram (ScanProgram.mk (default "" (capture 1 pm)) (default "" (capture 2 pm))
                                 (default "" (capture 3 pm))) channels1
  | _, _ => channels1
  end.

(** The channels read off the output of the scan command. *)
Definition parseScanOutput (text : string) : list ScanChannel.t :=
  fold_left scanLine (JS.split "010" text) [].

Definition scanChannels (deviceId tuner channelMap : string) : M (list ScanChannel.t) :=
  let* r := exec ("hdhomerun_config " +:+ deviceId +:+ " scan /tuner" +:+ tuner +:+ " " +:+ channelMap) in
  ret (if error r then [] else parseScanOutput (stdout r)).

(** ** DeviceProbe: PLP and L1 tables *)

(** One entry of [plpData]; a field the line does not give is unset. *)
Module PlpEntry.
Record t : Type := mk {
  sfi : option string;
  modulation : option string;
  coderate : option string;
  layer : option string;
  timeInterleaving : option string;
  lls : option bool;
  lock : option bool
}.
End PlpEntry.

Definition digit_or_slash (a : ascii) : bool := JS.is_digit a || JS.is_char "/" a.

(** [/^(\d+):/], which can only match at the start of the line. *)
Definition pattern_plp_id : regex := Seq [Grp 1 (Plus true (Chr JS.is_digit)); Lit ":"].

Definition plpId (line : string) : option string :=
  group 1 (exec_at pattern_plp_id line [] (fun _ c => Some c)).

(** The entry made of one line: [/sfi=(\w+)/], [/mod=(\w+)/],
    [/cod=([0-9/]+)/], [/layer=(\w+)/], [/ti=(\w+)/], [/lls=(\d+)/] and
    [/lock=(\d+)/]; the last two are compared with ['1']. *)
Definition plpEntryOf (line : string) : PlpEntry.t :=
  let field (key : string) (cls : ascii -> bool) := group 1 (search (key_pattern key cls) line) in
  PlpEntry.mk
    (field "sfi" is_word) (field "mod" is_word) (field "cod" digit_or_slash)
    (field "layer" is_word) (field "ti" is_word)
    ((fun v => String.eqb v "1") <$> field "lls" JS.is_digit)
    ((fun v => String.eqb v "1") <$> field "lock" JS.is_digit).

(** [plpData] after the loop over the lines. *)
Definition parsePlpTable (text : string) : gmap string PlpEntry.t :=
  fold_left
    (fun (plpData : gmap string PlpEntry.t) line =>
       match plpId line with
       | Some i => <[i := plpEntryOf line]> plpData
       | None => plpData
       end)
    (nonblank_lines text) ∅.

(** [Object.keys(o).length > 0 ? o : null] *)
Definition nonEmptyOrNull {V : Type} (o : gmap string V) : option (gmap string V) :=
  if decide (o = ∅) then None else Some o.

Definition getPlpInfo (deviceId tuner : string) : M (option (gmap string PlpEntry.t)) :=
  let* r := exec (tunerCommand deviceId tuner "plpinfo") in
  ret (if error r then None else nonEmptyOrNull (parsePlpTable (stdout r))).

(** [/(\w+)=([^\s]+)/g] *)
Definition pattern_key_value : regex :=
  Seq [Grp 1 (Plus true (Chr is_word)); Lit "="; Grp 2 (Plus true (Chr not_space))].

(** The first [n] code units of [s] dropped. *)
Fixpoint dropChars (n : nat) (s : string) : string :=
  match n, s with
  | S n', String _ s' => dropChars n' s'
  | _, _ => s
  end.

(** [s.match(r)] with the [g] flag, for a pattern that matches no empty
    string: the matched texts, left to right, each search starting where the
    match before it ended. Every step consumes a code unit, so a [fuel] of the
    length of [s] plus one is never used up. *)
Fixpoint matchAll (r : regex) (fuel : nat) (s : string) : list string :=
  match fuel with
  | O => []
  | S fuel' =>
      match exec_at (Grp 0 r) s [] (fun _ c => Some c) with
      | Some c =>
          match default "" (capture 0 c) with
          | EmptyString => []
          | m => m :: matchAll r fuel' (dropChars (String.length m) s)
          end
      | None =>
          match s with
          | String _ s' => matchAll r fuel' s'
          | EmptyString => []
          end
      end
  end.

(** [l1Data[key] = value] for [[key, value] = match.split('=')]; a value is
    [undefined] ([None]) when the split has one element only. Assigning a
    string to [__proto__] adds no key. *)
Definition setL1 (l1Data : gmap string (option string)) (m : string)
    : gmap string (option string) :=
  match JS.split "=" m with
  | key :: rest =>
      if String.eqb key "__proto__" then l1Data else <[key := head rest]> l1Data
  | [] => l1Data
  end.

Definition parseL1Line (l1Data : gmap string (option string)) (line : string)
    : gmap string (option string) :=
  fold_left setL1 (matchAll pattern_key_value (S (String.length line)) line) l1Data.

(** [l1Data] after the loop over the lines. *)
Definition parseL1Table (text : string) : gmap string (option string) :=
  fold_left parseL1Line (nonblank_lines text) ∅.

Definition getL1Info (deviceId tuner : string) : M (option (gmap string (option string))) :=
  let* r := exec (tunerCommand deviceId tuner "l1info") in
  ret (if error r then None else nonEmptyOrNull (parseL1Table (stdout r))).

(** ** MonitoringSessionManager: the single-tuner tick *)

(** What the callback emits as [tuner-status]: the fields of [status]
    (none when it is [null]) and the three fields added to them. *)
Record TunerEvent : Type := mkTunerEvent {
  ev_status : option TunerStatus.t;
  currentProgram : option string;
  plpInfo : option (gmap string PlpEntry.t);
  l1Info : option (gmap string (option string))
}.

(** [status && status.channel && status.channel !== 'none'] *)
Definition tuned (status : option TunerStatus.t) : bool :=
  match status with
  | Some st =>
      match TunerStatus.channel st with
      | Some ch => JS.truthy ch && negb (String.eqb ch "none")
      | None => false
      end
  | None => false
  end.

(** One run of the timer callback of [startMonitoring]. None of the four
    queries rejects, so the [catch] is not taken. *)
Definition monitorTick (deviceId tuner : string) : M TunerEvent :=
  let* status := getTunerStatus deviceId tuner in
  let* currentProgram := getCurrentProgram deviceId tuner in
  if tuned status then
    let* plpInfo := getPlpInfo deviceId tuner in
    let* l1Info := getL1Info deviceId tuner in
    ret (mkTunerEvent status currentProgram plpInfo l1Info)
  else ret (mkTunerEvent status currentProgram None None).

(** ** The stream routes *)

(** A response: the status code and the body or, for the playlist, the
    file name of the [Content-Disposition] header and the content. *)
Inductive Response : Type :=
| JsonError (code : nat) (error : string)
| JsonUrl (url : string)
| Playlist (filename content : string).

(** [!v] for a query parameter that is absent or a string. *)
Definition missing (v : option string) : bool :=
  match v with Some s => negb (JS.truthy s) | None => true end.

(** [`http://${device.ip}:5004/auto/ch${ch}-${program}`] *)
Definition streamUrlOf (device : Device.t) (ch program : string) : string :=
  "http://" +:+ Device.ip device +:+ ":5004/auto/ch" +:+ ch +:+ "-" +:+ program.

(** [GET /api/devices/:id/stream/url] *)
Definition streamUrlRoute (id : string) (ch program : option string) (st : State) : Response :=
  match ch, program with
  | Some c, Some p =>
      if missing ch || missing program
      then JsonError 400 "Missing ch or program query parameter"
      else
        match List.find (fun d => String.eqb (Device.id d) id) (devices st) with
        | Some device => JsonUrl (streamUrlOf device c p)
        | None => JsonError 404 "Device not found"
        end
  | _, _ => JsonError 400 "Missing ch or program query parameter"
  end.

(** [[a-zA-Z0-9._-]] *)
Definition is_filename_char (a : ascii) : bool :=
  is_word a || JS.is_char "." a || JS.is_char "-" a.

(** [name.replace(/[^a-zA-Z0-9._-]/g, '_')] *)
Fixpoint sanitize (name : string) : string :=
  match name with
  | EmptyString => EmptyString
  | String a rest => String (if is_filename_char a then a else "_"%char) (sanitize rest)
  end.

(** The characters [setHeader] takes in a header value: the tab and the code
    units from 32 on, but for 127. On another one it throws. *)
Definition is_header_char (a : ascii) : bool :=
  let n := nat_of_ascii a in
  (n =? 9)%nat || ((32 <=? n)%nat && negb (n =? 127)%nat).

Fixpoint all_chars (p : ascii -> bool) (s : string) : bool :=
  match s with
  | EmptyString => true
  | String a rest => p a && all_chars p rest
  end.

Definition newline : string := String "010" EmptyString.
Definition dquote : string := String (ascii_of_nat 34) EmptyString.

(** A query parameter as Express hands it to the route: a string or, for a
    parameter that is repeated or written with brackets, an array or an
    object. Of an array or an object the routes use its truth, which is
    [true], and the text a template literal makes of it. *)
Inductive QueryValue : Type :=
| QString (s : string)
| QOther (rendered : string).

(** [`${v}`] *)
Definition render (v : QueryValue) : string :=
  match v with QString s => s | QOther r => r end.

(** [!v] for a query parameter of any kind. *)
Definition absent (v : option QueryValue) : bool :=
  match v with
  | Some (QString s) => negb (JS.truthy s)
  | Some (QOther _) => false
  | None => true
  end.

(** [GET /api/devices/:id/stream/play.m3u]. A name that is not a string
    has no [replace], and a file name the header cannot carry makes
    [setHeader] throw; the [catch] answers either with 500 and the message
    of the error. *)
Definition playlistRoute (id : string) (ch program name : option QueryValue) (st : State)
    : Response :=
  match ch, program with
  | Some c, Some p =>
      if absent ch || absent program
      then JsonError 400 "Missing ch or program query parameter"
      else
        let channelName :=
          match name with
          | Some v =>
              if absent name then "Ch" +:+ render c +:+ " Program " +:+ render p else render v
          | None => "Ch" +:+ render c +:+ " Program " +:+ render p
          end in
        match List.find (fun d => String.eqb (Device.id d) id) (devices st) with
        | Some device =>
            let streamUrl := streamUrlOf device (render c) (render p) in
            let m3uContent :=
              "#EXTM3U" +:+ newline +:+ "#EXTINF:-1," +:+ channelName +:+ newline +:+
              streamUrl +:+ newline in
            match name with
            | Some (QOther _) => JsonError 500 "name.replace is not a function"
            | _ =>
                let filename :=
                  match name with
                  | Some (QString s) =>
                      if JS.truthy s then sanitize s
                      else "ch" +:+ render c +:+ "-" +:+ render p
                  | _ => "ch" +:+ render c +:+ "-" +:+ render p
                  end in
                if all_chars is_header_char filename
                then Playlist filename m3uContent
                else JsonError 500 ("Invalid character in header content [" +:+ dquote +:+
                                    "Content-Disposition" +:+ dquote +:+ "]")
            end
        | None => JsonError 404 "Device not found"
        end
  | _, _ => JsonError 400 "Missing ch or program query parameter"
  end.

(** ** The front end: channel numbers *)

(** [Math.max(x, y)] and [Math.min(x, y)]: NaN when an argument is NaN;
    of the two zeros, [+0] is the larger. *)
Definition is_neg_zero (x : float) : bool :=
  match Prim2SF x with S754_zero true => true | _ => false end.

Definition Math_max (x y : float) : float :=
  if PrimFloat.is_nan x || PrimFloat.is_nan y then nan
  else if (x <? y)%float then y
  else if (y <? x)%float then x
  else if is_neg_zero x then y else x.

Definition Math_min (x y : float) : float :=
  if PrimFloat.is_nan x || PrimFloat.is_nan y then nan
  else if (x <? y)%float then x
  else if (y <? x)%float then y
  else if is_neg_zero x then x else y.

(** [vhfLowChannels]: [{ ch, freq }] *)
Definition vhfLowChannels : list (float * float) :=
  [(2, 57); (3, 63); (4, 69); (5, 79); (6, 85)]%float.

(** [frequencyToChannel(freqHz)] of [AntennaMode.js]; [null] is [None]. *)
Definition frequencyToChannel (freqHz : float) : option float :=
  let freqMhz := (freqHz / 1000000)%float in
  if (54 <=? freqMhz)%float && (freqMhz <=? 88)%float then
    let closest := (2, 57)%float in
    let minDiff := PrimFloat.abs (freqMhz - snd closest) in
    let '(closest, _) :=
      fold_left
        (fun (acc : (float * float) * float) (ch : float * float) =>
           let '(closest, minDiff) := acc in
           let diff := PrimFloat.abs (freqMhz - snd ch) in
           if (diff <? minDiff)%float then (ch, diff) else (closest, minDiff))
        vhfLowChannels (closest, minDiff) in
    Some (fst closest)
  else if (174 <=? freqMhz)%float && (freqMhz <=? 216)%float then
    let channel := (Num.Math_round ((freqMhz - 177) / 6) + 7)%float in
    Some (Math_max 7 (Math_min 13 channel))
  else if (470 <=? freqMhz)%float && (freqMhz <=? 608)%float then
    let channel := (Num.Math_round ((freqMhz - 473) / 6) + 14)%float in
    Some (Math_max 14 (Math_min 36 channel))
  else None.

(** ** The server before per-client sessions *)

(** [backend/server.js]: its controller keeps one timer for all clients. *)
Module Legacy.

(** The field [monitoringInterval] and the timers of the runtime. *)
Record State : Type := mkState {
  monitoringInterval : option nat;
  timers : gmap nat Task;
  nextTimer : nat
}.

Definition constructor : State := mkState None ∅ 0.

Definition stopMonitoring (st : State) : State :=
  match monitoringInterval st with
  | Some handle => mkState None (delete handle (timers st)) (nextTimer st)
  | None => st
  end.

Definition start (task : Task) (st : State) : State :=
  let st1 := stopMonitoring st in
  mkState (Some (nextTimer st1)) (<[nextTimer st1 := task]> (timers st1)) (S (nextTimer st1)).

Definition startMonitoring (socket : Socket) (deviceId tuner : string) : State -> State :=
  start (SingleTask (socket_id socket) deviceId tuner).

Definition startAntennaMode (socket : Socket) (deviceId : string) (tunerCount : nat)
    : State -> State :=
  start (AntennaTask (socket_id socket) deviceId tunerCount).

(** [{id, ip, name}]: the devices of this server have no [online] field. *)
Record Device : Type := mkDevice { id : string; ip : string; name : string }.

(** The device list of [discoverDevices]: the first line of each id only,
    and no query of the model. *)
Definition devicesOf (text : string) : list Device :=
  map (fun '(deviceId, deviceIp) => mkDevice deviceId deviceIp ("HDHomeRun " +:+ deviceId))
      (discoveredDevices (nonblank_lines text)).

Definition discoverDevices : M (list Device) :=
  let* r := exec "hdhomerun_config discover" in
  ret (if error r then [] else devicesOf (stdout r)).

End Legacy.

(** ** Notions the properties are stated with *)

(** *** Status lines *)

(** [key_occurs key cls line pre v]: after the prefix [pre], [line] reads
    [key=v], where [v] is a non-empty run of [cls] that goes on as far as
    the class does. *)
Definition key_occurs (key : string) (cls : ascii -> bool) (line pre v : string) : Prop :=
  exists a v' rest,
    v = String a v' /\
    line = pre +:+ (key +:+ "=") +:+ v +:+ rest /\
    JS.span cls (v +:+ rest) = (v, rest).

(** The value of the leftmost [key=v] of the line. *)
Definition first_value (key : string) (cls : ascii -> bool) (line v : string) : Prop :=
  exists pre,
    key_occurs key cls line pre v /\
    forall pre' v', key_occurs key cls line pre' v' -> String.length pre <= String.length pre'.

(** The line has no [key=v]. *)
Definition key_absent (key : string) (cls : ascii -> bool) (line : string) : Prop :=
  forall pre v, ~ key_occurs key cls line pre v.

(** The value [key=] is followed by, at the start of the line. *)
Definition value_here (key : string) (cls : ascii -> bool) (line : string) : option string :=
  match JS.strip_prefix (key +:+ "=") line with
  | Some rest =>
      match JS.span cls rest with
      | (String a v', _) => Some (String a v')
      | (EmptyString, _) => None
      end
  | None => None
  end.

(** The same search as a function: the value at the first position where
    [key=] is followed by a character of the class. *)
Fixpoint find_key (key : string) (cls : ascii -> bool) (line : string) : option string :=
  match value_here key cls line with
  | Some v => Some v
  | None =>
      match line with
      | String _ line' => find_key key cls line'
      | EmptyString => None
      end
  end.

(** A field of the status object holds the converted value of the
    leftmost [key=v] of the line, and is unset when the line has none. *)
Definition field_is {A : Type} (key : string) (cls : ascii -> bool) (conv : string -> A)
    (line : string) (field : option A) : Prop :=
  (forall x, field = Some x <-> exists v, first_value key cls line v /\ x = conv v) /\
  (field = None <-> key_absent key cls line).

(** The Number of a run of decimal digits. *)
Definition number_of_digits (v : string) : float := Num.Z2float (Num.digits_value 0 v).

(** *** The signal estimate, in tenths *)

(** Ten times the four-bucket estimate of the signal level. *)
Definition spec_ss_tenths (signalRaw : Z) : Z :=
  if (80 <=? signalRaw)%Z then -400 - (100 - signalRaw) * 5
  else if (60 <=? signalRaw)%Z then -500 - (80 - signalRaw) * 5
  else if (20 <=? signalRaw)%Z then -600 - (60 - signalRaw) * 5
  else -800 - (20 - signalRaw) * 5.

(** Ten times [snrRaw * 0.31], rounded to the nearest integer (halves up). *)
Definition spec_snr_tenths (snrRaw : Z) : Z := (31 * snrRaw + 5) / 10.

(** The Number with one decimal place that [t] tenths denote. *)
Definition tenths (t : Z) : float := (Num.Z2float t / 10)%float.

(** The counters the estimate is checked on: those of up to three digits. *)
Definition counterBound : nat := 1000.

(** Whether the estimate of the counter pair [(n, n)] is what the two
    formulas say; the two components of [estimate] do not depend on each
    other, so this covers every pair. *)
Definition estimate_agrees (n : nat) : bool :=
  let z := Z.of_nat n in
  let '(ssDb, snrDb) := estimate (Num.Z2float z) (Num.Z2float z) in
  PrimFloat.Leibniz.eqb ssDb (tenths (spec_ss_tenths z)) &&
  PrimFloat.Leibniz.eqb snrDb (if (z =? 0)%Z then 0%float else tenths (spec_snr_tenths z)).

(** *** Traces *)

Definition is_http (e : Event) : bool :=
  match e with EvHttpGet _ => true | EvExec _ => false end.

(** How often the trace called the discovery endpoint. *)
Definition httpCalls (tr : list Event) : nat := length (List.filter is_http tr).

(** [st'] is [st] after the requests [evs]; nothing else changed. *)
Definition after (evs : list Event) (st st' : State) : Prop :=
  st' = set_trace (trace st ++ evs) st.

(** A computation that only runs child processes: whatever the world
    answers, it leaves the state as it was but for the trace, to which it
    adds no call of the discovery endpoint. *)
Definition execs_only {A : Type} (m : M A) : Prop :=
  forall w st, exists evs,
    after evs st (snd (m w st)) /\ httpCalls evs = 0.

(** [getStatusCommand]'s reading of a response. *)
Definition statusOutput (r : ExecResult) : option string :=
  if error r then None else Some (JS.trim (stdout r)).

(** A program-list answer that leaves [tryGetPrograms] without programs. *)
Definition noPrograms (r : ExecResult) : Prop :=
  error r = true \/ parsePrograms (stdout r) = [].

(** The entry of tuner [i] in the array of an antenna tick whose two
    queries for that tuner are at positions [pos] and [pos + 1] of the
    trace. *)
Definition antennaEntry (deviceId : string) (w : World) (pos i : nat) : TunerData :=
  mkTunerData i
    (tunerStatusOf
       (statusOutput (w_exec w pos (tunerCommand deviceId (index_toString i) "status")))
       (statusOutput (w_exec w (S pos) (tunerCommand deviceId (index_toString i) "debug")))).

(** *** The stages of discovery *)

(** The three stages of [discoverDevices] on their own: the state after
    the forced clearing of the host cache, the automatic discovery (skipped
    when the environment disables it), and the lookup of the hosts
    configured by hand. *)
Definition discoveryDisabled (w : World) : bool :=
  match env_HDHOMERUN_DISABLE_DISCOVERY w with
  | Some v => String.eqb v "true"
  | None => false
  end.

Definition clearedState (forceRefresh : bool) (st : State) : State :=
  if forceRefresh then set_deviceNameCache ∅ st else st.

Definition autoStage (forceRefresh : bool) (w : World) (st : State) : list Device.t * State :=
  if discoveryDisabled w then ([], clearedState forceRefresh st)
  else autoDiscoverDevices forceRefresh w (clearedState forceRefresh st).

Definition manualStage (forceRefresh : bool) (w : World) (st : State) : list Device.t * State :=
  let manualDevices := default "" (env_HDHOMERUN_DEVICES w) in
  if JS.truthy manualDevices
  then getDevicesByHosts (manualHostsOf manualDevices) w (snd (autoStage forceRefresh w st))
  else ([], snd (autoStage forceRefresh w st)).

(** The first device of a list with a given id. *)
Definition deviceById (i : string) (l : list Device.t) : option Device.t :=
  List.find (fun d => String.eqb (Device.id d) i) l.

(** *** Caches and sessions *)

(** Every entry of [deviceNameCache] holds a device named by its key. *)
Definition cache_wf (st : State) : Prop :=
  forall host entry,
    deviceNameCache st !! host = Some entry -> Device.id (device entry) = host.

(** Every timer that is set is the one recorded for its socket, and timer
    handles below [nextTimer] are the only ones in use. *)
Definition sessions_wf (st : State) : Prop :=
  (forall handle task,
      timers st !! handle = Some task ->
      monitoringIntervals st !! task_owner task = Some handle) /\
  (forall handle task, timers st !! handle = Some task -> handle < nextTimer st).

(** The states of the session manager: what [startMonitoring],
    [startAntennaMode] and [stopMonitoring] (also run on disconnect) make
    of the initial one, for sockets that have an id. *)
Inductive session_state : State -> Prop :=
| session_init : session_state constructor
| session_start socket deviceId tuner st :
    JS.truthy (socket_id socket) = true ->
    session_state st -> session_state (startMonitoring socket deviceId tuner st)
| session_antenna socket deviceId tunerCount st :
    JS.truthy (socket_id socket) = true ->
    session_state st -> session_state (startAntennaMode socket deviceId tunerCount st)
| session_stop socket st :
    session_state st -> session_state (stopMonitoring socket st).

(** *** More on sessions *)

(** What [startMonitoring] and [startAntennaMode] share: stop the session
    of the socket, set the timer, record its handle. *)
Definition startSession (socket : Socket) (task : Task) (st : State) : State :=
  let st1 := stopMonitoring (Some socket) st in
  let '(intervalId, st2) := setInterval task st1 in
  set_monitoringIntervals (<[socket_id socket := intervalId]> (monitoringIntervals st2)) st2.

(** Every recorded handle is a timer that is set, and runs for the socket
    it is recorded for. *)
Definition sessions_live (st : State) : Prop :=
  forall sid handle,
    monitoringIntervals st !! sid = Some handle ->
    exists task, timers st !! handle = Some task /\ task_owner task = sid.

(** The session of socket [sid] is the same in [st] and [st']: the same
    record and, when there is one, the same timer. *)
Definition same_session (sid : string) (st st' : State) : Prop :=
  monitoringIntervals st' !! sid = monitoringIntervals st !! sid /\
  forall handle, monitoringIntervals st !! sid = Some handle ->
                 timers st' !! handle = timers st !! handle.

(** [st'] is [st] with a new session of [socket]: the socket is recorded
    with a timer that [st] did not have, the timer runs [task], and no other
    timer runs for the socket. *)
Definition fresh_session (socket : Socket) (task : Task) (st st' : State) : Prop :=
  exists handle,
    monitoringIntervals st' !! socket_id socket = Some handle /\
    timers st !! handle = None /\
    timers st' !! handle = Some task /\
    forall handle' task',
      timers st' !! handle' = Some task' ->
      task_owner task' = socket_id socket -> handle' = handle.

(** The states of the server of [backend/server.js]. *)
Inductive legacy_state : Legacy.State -> Prop :=
| legacy_init : legacy_state Legacy.constructor
| legacy_start task st : legacy_state st -> legacy_state (Legacy.start task st)
| legacy_stop st : legacy_state st -> legacy_state (Legacy.stopMonitoring st).

(** The one timer the legacy controller has set, if any. *)
Definition legacy_wf (st : Legacy.State) : Prop :=
  match Legacy.monitoringInterval st with
  | Some handle =>
      handle < Legacy.nextTimer st /\ exists task, Legacy.timers st = {[handle := task]}
  | None => Legacy.timers st = ∅
  end.

(** *** More on discovery *)

(** The id and the address that a line of the discover output reports. *)
Definition found_pair (line : string) : option (string * string) :=
  match search pattern_found line with
  | Some m => Some (default "" (capture 1 m), default "" (capture 2 m))
  | None => None
  end.

(** Whether the line reports the device [i]. *)
Definition reports (i : string) (line : string) : bool :=
  match found_pair line with
  | Some p => String.eqb (fst p) i
  | None => false
  end.

(** The two queries that the lookup of one of the [hosts] may run. *)
Definition host_query (hosts : list string) (e : Event) : Prop :=
  exists host,
    host ∈ hosts /\
    (e = EvExec ("hdhomerun_config " +:+ host +:+ " get /sys/hwmodel") \/
     e = EvExec ("hdhomerun_config discover " +:+ host)).

(** What looking up some of the [hosts] makes of a state: the requests
    are queries of these hosts; a well-formed cache stays well formed; the
    entries of other hosts are as they were; and no entry is lost. *)
Definition host_lookups (hosts : list string) (st st' : State) : Prop :=
  (exists evs, trace st' = trace st ++ evs /\ Forall (host_query hosts) evs) /\
  (cache_wf st -> cache_wf st') /\
  (forall h, h ∉ hosts -> deviceNameCache st' !! h = deviceNameCache st !! h) /\
  (forall h, is_Some (deviceNameCache st !! h) -> is_Some (deviceNameCache st' !! h)).

(** *** Hosts configured by hand *)

(** Any character but the comma. *)
Definition not_comma (a : ascii) : bool := negb (Ascii.eqb a ",").

(** A host as [manualHostsOf] yields them: not empty, no white space at
    either end, no comma. *)
Definition clean_host (h : string) : Prop :=
  h <> "" /\ JS.trim h = h /\ all_chars not_comma h = true.

(** *** Device information *)

(** Whether tuner [i] answers the probe of [getTunerCount] that starts at
    position [pos] of the trace. *)
Definition tunerAnswers (deviceId : string) (w : World) (pos i : nat) : bool :=
  negb (error (w_exec w (pos + i) (tunerCommand deviceId (index_toString i) "status"))).

(** *** PLP and L1 tables *)

(** Whether [s] starts with a colon. *)
Definition starts_with_colon (s : string) : bool :=
  match s with String c _ => Ascii.eqb c ":" | EmptyString => false end.

(** The run of digits a line starts with, when the run is not empty and a
    colon follows it. *)
Definition digits_before_colon (line : string) : option string :=
  match JS.span JS.is_digit line with
  | (String a v, rest) => if starts_with_colon rest then Some (String a v) else None
  | (EmptyString, _) => None
  end.

(** The lines of the PLP table that are for the PLP [i]. *)
Definition plp_lines (i : string) (lines : list string) : list string :=
  List.filter (fun line => bool_decide (plpId line = Some i)) lines.

(** Any character but the equals sign. *)
Definition not_equals (a : ascii) : bool := negb (Ascii.eqb a "=").

(** The texts of the form [key=value] that [getL1Info] finds in a line. *)
Definition keyValueTexts (line : string) : list string :=
  matchAll pattern_key_value (S (String.length line)) line.

(** *** The single-tuner tick *)


(** The query of [command] for a tuner, as an event. *)
Definition tunerQuery (deviceId tn command : string) : Event :=
  EvExec (tunerCommand deviceId tn command).

(** *** The channel plan *)

(** The centre frequency, in MHz, of the broadcast channels 2 to 36. *)
Definition channelCentre (c : Z) : Z :=
  if (c <=? 4)%Z then 57 + 6 * (c - 2)
  else if (c <=? 6)%Z then 79 + 6 * (c - 5)
  else if (c <=? 13)%Z then 177 + 6 * (c - 7)
  else 473 + 6 * (c - 14).

(** The frequency, in Hz, that lies [k] steps of 250 kHz above the centre
    of channel [c]. *)
Definition nearCentre (c k : Z) : Z := channelCentre c * 1000000 + k * 250000.

(** Whether the frequencies up to eleven steps to either side of the
    centre of channel [2 + n] are all mapped to that channel. *)
Definition channel_agrees (n : nat) : bool :=
  let c := (2 + Z.of_nat n)%Z in
  forallb
    (fun j =>
       match frequencyToChannel (Num.Z2float (nearCentre c (Z.of_nat j - 11))) with
       | Some r => PrimFloat.Leibniz.eqb r (Num.Z2float c)
       | None => false
       end)
    (List.seq 0 23).

(** ** Example worlds *)

(** No child process succeeds; the discovery endpoint lists one tuner and
    one storage-only entry; no device is configured by hand. *)
Definition world_cloud_only : World :=
  mkWorld (fun _ _ => mkExecResult true "")
          (fun _ => HttpEnd (Some [mkDiscoverEntry (Some "10AB12CD") "192.168.1.20";
                                   mkDiscoverEntry None "192.168.1.21"]))
          (fun n => Z.of_nat n) None None.

(** The state after a first, routine discovery in [world_cloud_only], and
    the one device found through the cloud. *)
Definition state_after_first_discovery : State :=
  snd (autoDiscoverDevices false world_cloud_only constructor).

Definition cloud_tuner : Device.t :=
  Device.mk "192.168.1.20" "192.168.1.20" "HDHomeRun 10AB12CD" true.

(** The cloud lists the address that is also configured by hand. *)
Definition world_collision : World :=
  mkWorld (fun _ _ => mkExecResult true "")
          (fun _ => HttpEnd (Some [mkDiscoverEntry (Some "10AB12CD") "192.168.1.20";
                                   mkDiscoverEntry (Some "10AB12CE") "192.168.1.20"]))
          (fun n => Z.of_nat n) None (Some "192.168.1.20, tv.local").

(** The device at 10.0.0.5 answers the model query, and the discovery by
    host reports its vendor id. *)
Definition world_manual : World :=
  mkWorld (fun _ cmd =>
             if String.eqb cmd "hdhomerun_config 10.0.0.5 get /sys/hwmodel"
             then mkExecResult false "HDHR5-4US"
             else if String.eqb cmd "hdhomerun_config discover 10.0.0.5"
             then mkExecResult false "hdhomerun device 1075D4B1 found at 10.0.0.5"
             else mkExecResult true "")
          (fun _ => HttpError)
          (fun n => Z.of_nat n) (Some "true") (Some "10.0.0.5").

(** The status query of tuner 0 of device 1075D4B1 succeeds without any
    output; every other child process fails. *)
Definition world_blank_status : World :=
  mkWorld (fun _ cmd =>
             if String.eqb cmd (tunerCommand "1075D4B1" "0" "status")
             then mkExecResult false ""
             else mkExecResult true "")
          (fun _ => HttpError) (fun n => Z.of_nat n) None None.

(** The status query answers with a locked channel, the debug query fails. *)
Definition world_no_debug : World :=
  mkWorld (fun _ cmd =>
             if String.eqb cmd (tunerCommand "1075D4B1" "0" "status")
             then mkExecResult false "ch=8vsb:177000000 lock=8vsb ss=71 snq=83 seq=100 bps=19393000 pps=1670"
             else mkExecResult true "")
          (fun _ => HttpError) (fun n => Z.of_nat n) None None.

(** Tuner 1 of a three-tuner device does not answer; the other tuners are
    idle. *)
Definition world_one_tuner_down : World :=
  mkWorld (fun _ cmd =>
             if String.eqb cmd (tunerCommand "1075D4B1" "0" "status") ||
                String.eqb cmd (tunerCommand "1075D4B1" "2" "status")
             then mkExecResult false "none"
             else mkExecResult true "")
          (fun _ => HttpError) (fun n => Z.of_nat n) None None.

(** A tuner locked on a channel whose program table never fills. *)
Definition world_locked_no_programs : World :=
  mkWorld (fun _ cmd =>
             if String.eqb cmd (tunerCommand "1075D4B1" "0" "status")
             then mkExecResult false "ch=8vsb:177000000 lock=8vsb ss=71 snq=83 seq=100 bps=19393000 pps=1670"
             else if String.eqb cmd (tunerCommand "1075D4B1" "0" "streaminfo")
             then mkExecResult false "tsid=0x0DC9"
             else mkExecResult true "")
          (fun _ => HttpError) (fun n => Z.of_nat n) None None.

(** A connected socket. *)
Definition socket_a : Socket := mkSocket "k3JfA0x9QwErTyUiAAAB".

(** A second connected socket. *)
Definition socket_b : Socket := mkSocket "Zq8LmN2pRsTuVwXyAAAD".

(** The discover broadcast finds one tuner, whose model can be read. *)
Definition world_lan : World :=
  mkWorld (fun _ cmd =>
             if String.eqb cmd "hdhomerun_config discover"
             then mkExecResult false "hdhomerun device 1075D4B1 found at 192.168.1.50"
             else if String.eqb cmd "hdhomerun_config 192.168.1.50 get /sys/hwmodel"
             then mkExecResult false "HDHR5-4US"
             else mkExecResult true "")
          (fun _ => HttpError) (fun n => Z.of_nat n) None None.

(** The device answers every query; its model reads HDHR5-4US. *)
Definition world_four_tuners : World :=
  mkWorld (fun _ cmd =>
             if String.eqb cmd "hdhomerun_config 1075D4B1 get /sys/model"
             then mkExecResult false "HDHR5-4US"
             else if String.eqb cmd (tunerCommand "1075D4B1" "0" "status") ||
                     String.eqb cmd (tunerCommand "1075D4B1" "1" "status") ||
                     String.eqb cmd (tunerCommand "1075D4B1" "2" "status") ||
                     String.eqb cmd (tunerCommand "1075D4B1" "3" "status")
             then mkExecResult false "none"
             else mkExecResult true "")
          (fun _ => HttpError) (fun n => Z.of_nat n) None None.

(** The program table of the tuner is empty at the first query (position 2
    of the trace, after the two status queries) and filled at the second. *)
Definition world_programs_late : World :=
  mkWorld (fun pos cmd =>
             if String.eqb cmd (tunerCommand "1075D4B1" "0" "status")
             then mkExecResult false "ch=8vsb:177000000 lock=8vsb ss=71 snq=83 seq=100 bps=19393000 pps=1670"
             else if String.eqb cmd (tunerCommand "1075D4B1" "0" "streaminfo")
             then mkExecResult false (if (pos <=? 2)%nat then "tsid=0x0DC9" else "3: 8.1 WJW-DT")
             else mkExecResult true "")
          (fun _ => HttpError) (fun n => Z.of_nat n) None None.

(** The scan command reports one channel with one program, in the layout
    of [hdhomerun_config]: a line for each item. *)
Definition world_scan : World :=
  mkWorld (fun _ cmd =>
             if String.eqb cmd "hdhomerun_config 1075D4B1 scan /tuner0 us-bcast"
             then mkExecResult false "SCANNING: 177000000 (us-bcast:7)
LOCK: 8vsb (ss=71 snq=83 seq=100)
TSID: 0x0DC9
PROGRAM 3: 8.1 WJW-DT"
             else mkExecResult true "")
          (fun _ => HttpError) (fun n => Z.of_nat n) None None.

(** Two hosts are configured by hand and both answer the model query;
    automatic discovery is switched off. *)
Definition world_two_hosts : World :=
  mkWorld (fun _ cmd =>
             if String.eqb cmd "hdhomerun_config 10.0.0.5 get /sys/hwmodel" ||
                String.eqb cmd "hdhomerun_config 10.0.0.6 get /sys/hwmodel"
             then mkExecResult false "HDHR5-4US"
             else mkExecResult true "")
          (fun _ => HttpError)
          (fun n => Z.of_nat n) (Some "true") (Some "10.0.0.5, 10.0.0.6").

(** * Properties *)

(** ** The session manager *)

Lemma stopMonitoring_no_session socket st :
  (forall sk, socket = Some sk -> monitoringIntervals st !! socket_id sk = None) ->
  stopMonitoring socket st = st.
Proof.
  intros Hnone. destruct socket as [sk|]; [|reflexivity].
  unfold stopMonitoring. destruct (JS.truthy (socket_id sk)); [|reflexivity].
  now rewrite (Hnone sk eq_refl).
Qed.

Lemma stopMonitoring_removes sk st :
  JS.truthy (socket_id sk) = true ->
  monitoringIntervals (stopMonitoring (Some sk) st) !! socket_id sk = None.
Proof.
  intros Hid. unfold stopMonitoring. rewrite Hid.
  destruct (monitoringIntervals st !! socket_id sk) eqn:E; [|exact E].
  cbn. apply lookup_delete_eq.
Qed.

Lemma stopMonitoring_cancels sk st handle :
  JS.truthy (socket_id sk) = true ->
  monitoringIntervals st !! socket_id sk = Some handle ->
  timers (stopMonitoring (Some sk) st) !! handle = None.
Proof.
  intros Hid Hh. unfold stopMonitoring. rewrite Hid, Hh. cbn.
  apply lookup_delete_eq.
Qed.

Lemma stopMonitoring_twice socket st :
  stopMonitoring socket (stopMonitoring socket st) = stopMonitoring socket st.
Proof.
  destruct socket as [sk|]; [|reflexivity].
  destruct (JS.truthy (socket_id sk)) eqn:Hid.
  - apply stopMonitoring_no_session. intros sk' [= <-].
    now apply stopMonitoring_removes.
  - unfold stopMonitoring. now rewrite Hid.
Qed.

Lemma stopMonitoring_timers_subset socket st handle task :
  timers (stopMonitoring socket st) !! handle = Some task ->
  timers st !! handle = Some task.
Proof.
  destruct socket as [sk|]; [|easy]. unfold stopMonitoring.
  destruct (JS.truthy (socket_id sk)); [|easy].
  destruct (monitoringIntervals st !! socket_id sk) as [h|]; [|easy].
  cbn. intros H. apply lookup_delete_Some in H. tauto.
Qed.

Lemma stopMonitoring_nextTimer socket st :
  nextTimer (stopMonitoring socket st) = nextTimer st.
Proof.
  destruct socket as [sk|]; [|easy]. unfold stopMonitoring.
  destruct (JS.truthy (socket_id sk)); [|easy].
  now destruct (monitoringIntervals st !! socket_id sk).
Qed.

Lemma sessions_wf_stop socket st :
  sessions_wf st -> sessions_wf (stopMonitoring socket st).
Proof.
  intros [Hrec Hlt]. split.
  - intros handle task Ht.
    pose proof (stopMonitoring_timers_subset _ _ _ _ Ht) as Ht0.
    pose proof (Hrec _ _ Ht0) as Hm.
    destruct socket as [sk|]; [|exact Hm]. unfold stopMonitoring in *.
    destruct (JS.truthy (socket_id sk)); [|exact Hm].
    destruct (monitoringIntervals st !! socket_id sk) as [h|] eqn:E; [|exact Hm].
    cbn in *. apply lookup_delete_Some in Ht as [Hne _].
    rewrite lookup_delete_ne; [exact Hm|].
    intros Heq. rewrite <- Heq in Hm. congruence.
  - intros handle task Ht. rewrite stopMonitoring_nextTimer.
    eapply Hlt, stopMonitoring_timers_subset, Ht.
Qed.

(** After a stop, no timer that is set belongs to the socket. *)
Lemma sessions_wf_stop_owner sk st handle task :
  sessions_wf st ->
  JS.truthy (socket_id sk) = true ->
  timers (stopMonitoring (Some sk) st) !! handle = Some task ->
  task_owner task <> socket_id sk.
Proof.
  intros Hwf Hid Ht Hown.
  destruct (sessions_wf_stop (Some sk) st Hwf) as [Hrec _].
  specialize (Hrec _ _ Ht). rewrite Hown in Hrec.
  rewrite stopMonitoring_removes in Hrec by assumption. discriminate.
Qed.

Lemma sessions_wf_setInterval sid task st :
  task_owner task = sid ->
  sessions_wf st ->
  (forall handle t, timers st !! handle = Some t -> task_owner t <> sid) ->
  sessions_wf
    (set_monitoringIntervals
       (<[sid := fst (setInterval task st)]> (monitoringIntervals (snd (setInterval task st))))
       (snd (setInterval task st))).
Proof.
  intros Hown [Hrec Hlt] Hfree. split; cbn.
  - intros handle t Ht.
    destruct (decide (handle = nextTimer st)) as [->|Hne].
    + rewrite lookup_insert_eq in Ht. injection Ht as <-.
      rewrite Hown. apply lookup_insert_eq.
    + rewrite lookup_insert_ne in Ht by congruence.
      rewrite lookup_insert_ne; [now apply Hrec|].
      intros Heq. now apply (Hfree handle t).
  - intros handle t Ht.
    destruct (decide (handle = nextTimer st)) as [->|Hne]; [lia|].
    rewrite lookup_insert_ne in Ht by congruence.
    specialize (Hlt _ _ Ht). lia.
Qed.

Lemma sessions_wf_start socket task st :
  JS.truthy (socket_id socket) = true ->
  task_owner task = socket_id socket ->
  sessions_wf st ->
  let st1 := stopMonitoring (Some socket) st in
  sessions_wf
    (set_monitoringIntervals
       (<[socket_id socket := fst (setInterval task st1)]>
          (monitoringIntervals (snd (setInterval task st1))))
       (snd (setInterval task st1))).
Proof.
  intros Hid Hown Hwf st1. apply sessions_wf_setInterval; [exact Hown| |].
  - now apply sessions_wf_stop.
  - intros handle t Ht. now apply (sessions_wf_stop_owner socket st handle t).
Qed.

Lemma sessions_wf_constructor : sessions_wf constructor.
Proof. split; intros handle task H; cbn in H; now rewrite lookup_empty in H. Qed.

(** Every state of the session manager is well formed. *)
Lemma session_state_wf st : session_state st -> sessions_wf st.
Proof.
  induction 1 as [|socket deviceId tn st Hid _ IH|socket deviceId n st Hid _ IH|socket st _ IH].
  - apply sessions_wf_constructor.
  - now apply (sessions_wf_start socket (SingleTask (socket_id socket) deviceId tn)).
  - now apply (sessions_wf_start socket (AntennaTask (socket_id socket) deviceId n)).
  - now apply sessions_wf_stop.
Qed.

(** C8. [stopMonitoring] is idempotent. For every socket and every state:
    stopping twice in a row gives the state that stopping once gives;
    stopping a socket that has no session (or no socket at all) leaves the
    state as it is; and after a stop of a socket with an id, the socket has
    no session record, the timer that was recorded for it is cancelled, and
    in every state of the session manager no timer that is still set belongs
    to it. *)
Theorem stopMonitoring_idempotent (socket : option Socket) (st : State) :
  stopMonitoring socket (stopMonitoring socket st) = stopMonitoring socket st /\
  ((forall sk, socket = Some sk -> monitoringIntervals st !! socket_id sk = None) ->
   stopMonitoring socket st = st) /\
  (forall sk, socket = Some sk -> JS.truthy (socket_id sk) = true ->
     monitoringIntervals (stopMonitoring socket st) !! socket_id sk = None /\
     (forall handle, monitoringIntervals st !! socket_id sk = Some handle ->
        timers (stopMonitoring socket st) !! handle = None) /\
     (session_state st ->
      forall handle task, timers (stopMonitoring socket st) !! handle = Some task ->
        task_owner task <> socket_id sk)).
Proof.
  split; [apply stopMonitoring_twice|].
  split; [apply stopMonitoring_no_session|].
  intros sk -> Hid. split; [now apply stopMonitoring_removes|].
  split.
  - intros handle Hh. now apply stopMonitoring_cancels.
  - intros Hst handle task Ht.
    eapply sessions_wf_stop_owner; eauto using session_state_wf.
Qed.

(** ** Traces of the discovery code *)

Lemma trace_set_trace tr st : trace (set_trace tr st) = tr.
Proof. reflexivity. Qed.

Lemma set_trace_set_trace tr1 tr2 st : set_trace tr2 (set_trace tr1 st) = set_trace tr2 st.
Proof. reflexivity. Qed.

Lemma set_trace_id st : set_trace (trace st) st = st.
Proof. now destruct st. Qed.

Lemma run_bind {A B} (m : M A) (f : A -> M B) w st :
  bind m f w st = f (fst (m w st)) w (snd (m w st)).
Proof. unfold bind. now destruct (m w st). Qed.

Lemma run_exec command w st :
  exec command w st =
  (w_exec w (length (trace st)) command, set_trace (trace st ++ [EvExec command]) st).
Proof. reflexivity. Qed.

Lemma run_ret {A} (a : A) w st : ret a w st = (a, st).
Proof. reflexivity. Qed.

Lemma after_nil st : after [] st st.
Proof. unfold after. now rewrite app_nil_r, set_trace_id. Qed.

Lemma after_trans evs1 evs2 st1 st2 st3 :
  after evs1 st1 st2 -> after evs2 st2 st3 -> after (evs1 ++ evs2) st1 st3.
Proof.
  unfold after. intros -> ->.
  now rewrite trace_set_trace, set_trace_set_trace, app_assoc.
Qed.

Lemma httpCalls_app tr1 tr2 : httpCalls (tr1 ++ tr2) = httpCalls tr1 + httpCalls tr2.
Proof. unfold httpCalls. now rewrite List.filter_app, length_app. Qed.

Lemma after_httpCalls evs st st' :
  after evs st st' -> httpCalls (trace st') = httpCalls (trace st) + httpCalls evs.
Proof. intros ->. now rewrite trace_set_trace, httpCalls_app. Qed.

Lemma after_httpDiscoveryCache evs st st' :
  after evs st st' -> httpDiscoveryCache st' = httpDiscoveryCache st.
Proof. now intros ->. Qed.

Lemma execs_only_ret {A} (a : A) : execs_only (ret a).
Proof. intros w st. exists []. split; [apply after_nil|reflexivity]. Qed.

Lemma execs_only_bind {A B} (m : M A) (f : A -> M B) :
  execs_only m -> (forall a, execs_only (f a)) -> execs_only (bind m f).
Proof.
  intros Hm Hf w st. unfold bind.
  destruct (Hm w st) as (evs1 & H1 & Hc1).
  destruct (m w st) as [a st1]. cbn in H1.
  destruct (Hf a w st1) as (evs2 & H2 & Hc2).
  exists (evs1 ++ evs2). split.
  - eapply after_trans; eassumption.
  - rewrite httpCalls_app. lia.
Qed.

Lemma execs_only_exec command : execs_only (exec command).
Proof. intros w st. exists [EvExec command]. now split. Qed.

Lemma execs_only_mapM {A B} (f : A -> M B) xs :
  (forall x, execs_only (f x)) -> execs_only (mapM f xs).
Proof.
  intros Hf. induction xs as [|x xs IH]; cbn [mapM].
  - apply execs_only_ret.
  - apply execs_only_bind; [apply Hf|]. intros y.
    apply execs_only_bind; [apply IH|]. intros ys. apply execs_only_ret.
Qed.

Lemma execs_only_getDeviceModel host : execs_only (getDeviceModel host).
Proof.
  apply execs_only_bind; [apply execs_only_exec|]. intros r. apply execs_only_ret.
Qed.

Lemma execs_only_udpDiscoverDevices : execs_only udpDiscoverDevices.
Proof.
  apply execs_only_bind; [apply execs_only_exec|]. intros r.
  destruct (error r); [apply execs_only_ret|].
  apply execs_only_mapM. intros [deviceId deviceIp].
  apply execs_only_bind; [apply execs_only_getDeviceModel|]. intros m.
  apply execs_only_ret.
Qed.

Lemma httpDiscoverDevices_run w st :
  httpDiscoverDevices w st =
  let st1 := set_trace (trace st ++ [EvHttpGet "https://ipv4-api.hdhomerun.com/discover"]) st in
  match w_http w (length (trace st)) with
  | HttpEnd (Some entries) => mapM cloudDevice (List.filter hasDeviceID entries) w st1
  | _ => ([], st1)
  end.
Proof.
  unfold httpDiscoverDevices, bind, https_get.
  now destruct (w_http w (length (trace st))) as [| |[entries|]].
Qed.

Lemma execs_only_cloudDevice entry : execs_only (cloudDevice entry).
Proof.
  apply execs_only_bind; [apply execs_only_getDeviceModel|].
  intros m. apply execs_only_ret.
Qed.

(** The cloud fallback calls the discovery endpoint once, whatever comes
    back, and changes nothing but the trace. *)
Lemma httpDiscoverDevices_once w st :
  exists evs,
    after evs st (snd (httpDiscoverDevices w st)) /\ httpCalls evs = 1.
Proof.
  rewrite httpDiscoverDevices_run. cbn zeta.
  set (st1 := set_trace _ st).
  assert (H1 : after [EvHttpGet "https://ipv4-api.hdhomerun.com/discover"] st st1) by reflexivity.
  assert (Hdone : exists evs, after evs st st1 /\ httpCalls evs = 1).
  { eexists. split; [exact H1|reflexivity]. }
  destruct (w_http w (length (trace st))) as [| |[entries|]]; try exact Hdone.
  destruct (execs_only_mapM cloudDevice (List.filter hasDeviceID entries)
              execs_only_cloudDevice w st1) as (evs & H2 & Hc).
  eexists. split; [eapply after_trans; eassumption|].
  rewrite httpCalls_app, Hc. reflexivity.
Qed.

(** C1. Whenever UDP broadcast discovery finds no device: with
    [forceRefresh] false and a cloud-fallback cache in place (an empty list
    counts), [autoDiscoverDevices] returns the cached list, leaves the cache
    as it is and does not call the discovery endpoint; otherwise it calls
    the endpoint exactly once, stores the outcome (empty or not) as the
    cache and returns it. *)
Theorem autoDiscoverDevices_cache_law (forceRefresh : bool) (w : World) (st : State) :
  fst (udpDiscoverDevices w st) = [] ->
  let st1 := snd (udpDiscoverDevices w st) in
  let result := fst (autoDiscoverDevices forceRefresh w st) in
  let st' := snd (autoDiscoverDevices forceRefresh w st) in
  match forceRefresh, httpDiscoveryCache st with
  | false, Some cached =>
      result = cached /\
      st' = st1 /\
      httpDiscoveryCache st' = Some cached /\
      httpCalls (trace st') = httpCalls (trace st)
  | _, _ =>
      result = fst (httpDiscoverDevices w st1) /\
      httpDiscoveryCache st' = Some result /\
      httpCalls (trace st') = S (httpCalls (trace st))
  end.
Proof.
  intros Hudp st1 result st'.
  destruct (execs_only_udpDiscoverDevices w st) as (evs1 & H1 & Hc1).
  fold st1 in H1.
  pose proof (after_httpDiscoveryCache _ _ _ H1) as Hcache.
  pose proof (after_httpCalls _ _ _ H1) as Hcalls.
  assert (Hrun : autoDiscoverDevices forceRefresh w st =
                 match forceRefresh, httpDiscoveryCache st1 with
                 | false, Some cached => (cached, st1)
                 | _, _ =>
                     (fst (httpDiscoverDevices w st1),
                      set_httpDiscoveryCache (Some (fst (httpDiscoverDevices w st1)))
                                             (snd (httpDiscoverDevices w st1)))
                 end).
  { unfold autoDiscoverDevices, bind at 1. subst st1.
    destruct (udpDiscoverDevices w st) as [udpDevices st1]. cbn in Hudp. subst udpDevices.
    cbn [length Nat.ltb Nat.leb fst snd]. unfold bind, get, modify, ret.
    destruct forceRefresh; [|destruct (httpDiscoveryCache st1)];
      try reflexivity; now destruct (httpDiscoverDevices w st1). }
  subst result st'. rewrite Hrun, Hcache.
  destruct (httpDiscoverDevices_once w st1) as (evs2 & H2 & Hc2).
  pose proof (after_httpCalls _ _ _ H2) as Hcalls2.
  destruct forceRefresh; [|destruct (httpDiscoveryCache st) as [cached|] eqn:Ec]; cbn [fst snd].
  - split; [reflexivity|]. split; [reflexivity|].
    unfold set_httpDiscoveryCache; cbn [trace]. lia.
  - split; [reflexivity|]. split; [reflexivity|]. split; [congruence|lia].
  - split; [reflexivity|]. split; [reflexivity|].
    unfold set_httpDiscoveryCache; cbn [trace]. lia.
Qed.

(** A second routine discovery in a row, with no device on the local
    network: the first one called the endpoint, the second one answers from
    the cache. *)
Lemma autoDiscoverDevices_cache_law_witness :
  fst (udpDiscoverDevices world_cloud_only state_after_first_discovery) = [] /\
  httpCalls (trace state_after_first_discovery) = 1 /\
  (fst (autoDiscoverDevices false world_cloud_only state_after_first_discovery) = [cloud_tuner] /\
   snd (autoDiscoverDevices false world_cloud_only state_after_first_discovery) =
     snd (udpDiscoverDevices world_cloud_only state_after_first_discovery) /\
   httpDiscoveryCache (snd (autoDiscoverDevices false world_cloud_only state_after_first_discovery)) =
     Some [cloud_tuner] /\
   httpCalls (trace (snd (autoDiscoverDevices false world_cloud_only state_after_first_discovery))) =
     httpCalls (trace state_after_first_discovery)).
Proof.
  split; [reflexivity|]. split; [reflexivity|].
  exact (autoDiscoverDevices_cache_law false world_cloud_only
           state_after_first_discovery eq_refl).
Defined.

(** ** Merging by device id *)

Lemma mapM_Forall2 {A B} (f : A -> M B) (R : A -> B -> Prop) :
  (forall x w st, R x (fst (f x w st))) ->
  forall xs w st, Forall2 R xs (fst (mapM f xs w st)).
Proof.
  intros Hf xs. induction xs as [|x xs IH]; intros w st; cbn [mapM].
  - constructor.
  - unfold bind, ret. specialize (Hf x w st).
    destruct (f x w st) as [y st1]. specialize (IH w st1).
    destruct (mapM f xs w st1) as [ys st2]. cbn in *. now constructor.
Qed.

Lemma deviceById_app i l1 l2 :
  deviceById i (l1 ++ l2) =
  match deviceById i l1 with Some d => Some d | None => deviceById i l2 end.
Proof.
  unfold deviceById. induction l1 as [|d l1 IH]; [reflexivity|].
  cbn. now destruct (String.eqb (Device.id d) i).
Qed.

Lemma deviceById_None i l : i ∉ map Device.id l -> deviceById i l = None.
Proof.
  unfold deviceById. induction l as [|d l IH]; [reflexivity|].
  cbn. intros Hni. apply not_elem_of_cons in Hni as [Hne Hni].
  destruct (String.eqb_spec (Device.id d) i); [congruence|auto].
Qed.

Lemma deviceById_Some i l :
  i ∈ map Device.id l -> exists d, deviceById i l = Some d /\ Device.id d = i /\ d ∈ l.
Proof.
  unfold deviceById. induction l as [|d l IH]; cbn.
  - intros H. now apply elem_of_nil in H.
  - intros H. destruct (String.eqb_spec (Device.id d) i) as [Heq|Hne].
    + exists d. repeat split; [assumption|apply list_elem_of_here].
    + apply elem_of_cons in H as [H|H]; [congruence|].
      destruct (IH H) as (d' & H1 & H2 & H3).
      exists d'. repeat split; [assumption..|now apply list_elem_of_further].
Qed.

Lemma mergeDevices_cons d found devs (deviceSet : gset string) :
  mergeDevices (d :: found) (devs, deviceSet) =
  mergeDevices found
    (if decide (Device.id d ∈ deviceSet) then (devs, deviceSet)
     else (devs ++ [d], {[Device.id d]} ∪ deviceSet)).
Proof. reflexivity. Qed.

(** What the two loops of [discoverDevices] keep: the list grows at its
    end, by devices of [found] whose ids were not there; ids stay distinct;
    and for every id the first device seen with it is the one kept. *)
Lemma mergeDevices_spec found : forall devs deviceSet,
  (forall i, i ∈ deviceSet <-> i ∈ map Device.id devs) ->
  NoDup (map Device.id devs) ->
  let devs' := fst (mergeDevices found (devs, deviceSet)) in
  let deviceSet' := snd (mergeDevices found (devs, deviceSet)) in
  (forall i, i ∈ deviceSet' <-> i ∈ map Device.id devs') /\
  NoDup (map Device.id devs') /\
  (exists kept, devs' = devs ++ kept /\ kept `sublist_of` found /\
                forall d, d ∈ kept -> Device.id d ∉ map Device.id devs) /\
  (forall i, deviceById i devs' = deviceById i (devs ++ found)).
Proof.
  induction found as [|d found IH]; intros devs deviceSet Hset Hnd; cbn zeta.
  - cbn. split; [assumption|]. split; [assumption|]. split.
    + exists []. rewrite app_nil_r. split; [reflexivity|]. split; [constructor|].
      intros d H. now apply elem_of_nil in H.
    + intros i. cbn. now rewrite app_nil_r.
  - rewrite mergeDevices_cons.
    destruct (decide (Device.id d ∈ deviceSet)) as [Hin|Hnin].
    + destruct (IH devs deviceSet Hset Hnd) as (H1 & H2 & (kept & H3 & H4 & H5) & H6).
      split; [assumption|]. split; [assumption|]. split.
      * exists kept. split; [assumption|]. split; [now apply sublist_cons|assumption].
      * intros i. rewrite H6, !deviceById_app.
        destruct (deviceById i devs) eqn:E; [reflexivity|].
        unfold deviceById at 2. cbn.
        destruct (String.eqb_spec (Device.id d) i) as [Heq|Hne]; [|reflexivity].
        apply Hset in Hin. rewrite Heq in Hin.
        destruct (deviceById_Some _ _ Hin) as (d' & Hd' & _). congruence.
    + assert (Hset' : forall i, i ∈ {[Device.id d]} ∪ deviceSet <-> i ∈ map Device.id (devs ++ [d])).
      { intros i. rewrite map_app, elem_of_app, elem_of_union, elem_of_singleton, Hset.
        cbn. rewrite list_elem_of_singleton. tauto. }
      assert (Hnd' : NoDup (map Device.id (devs ++ [d]))).
      { rewrite map_app. apply NoDup_app. split; [assumption|]. split.
        - intros i Hi Hi'. cbn in Hi'. apply list_elem_of_singleton in Hi'. subst i.
          apply Hnin, Hset, Hi.
        - cbn. apply NoDup_singleton. }
      destruct (IH (devs ++ [d]) _ Hset' Hnd') as (H1 & H2 & (kept & H3 & H4 & H5) & H6).
      split; [assumption|]. split; [assumption|]. split.
      * exists (d :: kept). split; [now rewrite H3, <- app_assoc|].
        split; [now apply sublist_skip|].
        intros d' Hd'. apply elem_of_cons in Hd' as [->|Hd'].
        -- intros Hc. apply Hnin, Hset, Hc.
        -- specialize (H5 d' Hd'). rewrite map_app, elem_of_app in H5. tauto.
      * intros i. now rewrite H6, <- app_assoc.
Qed.

Lemma mergeDevices_fresh found :
  let devs := fst (mergeDevices found ([], ∅)) in
  NoDup (map Device.id devs) /\
  devs `sublist_of` found /\
  (forall i, deviceById i devs = deviceById i found) /\
  (forall i, i ∈ snd (mergeDevices found ([], ∅)) <-> i ∈ map Device.id devs).
Proof.
  destruct (mergeDevices_spec found [] ∅) as (H1 & H2 & (kept & H3 & H4 & _) & H5).
  - intros i. cbn. rewrite elem_of_nil. set_solver.
  - constructor.
  - cbn zeta. split; [assumption|]. split; [now rewrite H3|]. split; assumption.
Qed.

Lemma discoverDevices_run forceRefresh w st :
  discoverDevices forceRefresh w st =
  let devs :=
    fst (mergeDevices (fst (manualStage forceRefresh w st))
           (mergeDevices (fst (autoStage forceRefresh w st)) ([], ∅))) in
  (devs, set_devices devs (snd (manualStage forceRefresh w st))).
Proof.
  unfold discoverDevices, manualStage, autoStage, clearedState, discoveryDisabled.
  unfold bind at 1.
  assert (Hclear : (if forceRefresh then modify (set_deviceNameCache ∅) else ret tt) w st =
                   (tt, if forceRefresh then set_deviceNameCache ∅ st else st))
    by now destruct forceRefresh.
  rewrite Hclear. clear Hclear. set (st0 := if forceRefresh then _ else st).
  unfold bind at 1, env at 1. unfold bind at 1, env at 1.
  set (disabled := match env_HDHOMERUN_DISABLE_DISCOVERY w with Some _ => _ | None => _ end).
  unfold bind at 1.
  assert (Hauto : (if negb disabled then autoDiscoverDevices forceRefresh else ret []) w st0 =
                  (if disabled then ([], st0) else autoDiscoverDevices forceRefresh w st0))
    by now destruct disabled.
  rewrite Hauto. clear Hauto.
  destruct (if disabled then _ else _) as [autoDiscovered st1]. cbn [fst snd].
  unfold bind at 1.
  set (manualDevices := default "" (env_HDHOMERUN_DEVICES w)).
  assert (Hman : (if JS.truthy manualDevices
                  then getDevicesByHosts (manualHostsOf manualDevices) else ret []) w st1 =
                 (if JS.truthy manualDevices
                  then getDevicesByHosts (manualHostsOf manualDevices) w st1 else ([], st1)))
    by now destruct (JS.truthy manualDevices).
  rewrite Hman. clear Hman.
  now destruct (if JS.truthy manualDevices then _ else _) as [manualResults st2].
Qed.

(** C5. The list [discoverDevices] returns has pairwise distinct ids. It
    starts with the devices of the automatic discovery (the first of each
    id), followed by devices configured by hand whose ids the automatic
    discovery did not produce. For an id found by both, the one entry of the
    list is the automatically discovered device; for the other ids it is
    the first device configured by hand with that id. The list is also what
    the controller keeps as [devices]. *)
Theorem discoverDevices_distinct_ids (forceRefresh : bool) (w : World) (st : State) :
  let auto := fst (autoStage forceRefresh w st) in
  let manual := fst (manualStage forceRefresh w st) in
  let devs := fst (discoverDevices forceRefresh w st) in
  NoDup (map Device.id devs) /\
  (exists kept,
      devs = fst (mergeDevices auto ([], ∅)) ++ kept /\
      fst (mergeDevices auto ([], ∅)) `sublist_of` auto /\
      kept `sublist_of` manual /\
      forall d, d ∈ kept -> Device.id d ∉ map Device.id auto) /\
  (forall i, i ∈ map Device.id auto -> deviceById i devs = deviceById i auto) /\
  (forall i, i ∉ map Device.id auto -> deviceById i devs = deviceById i manual) /\
  devices (snd (discoverDevices forceRefresh w st)) = devs.
Proof.
  intros auto manual devs. subst devs. rewrite discoverDevices_run. cbn zeta. cbn [fst snd].
  fold auto manual.
  destruct (mergeDevices_fresh auto) as (Ha1 & Ha2 & Ha3 & Ha4). cbn zeta in *.
  destruct (mergeDevices auto ([], ∅)) as [devsA setA] eqn:EA. cbn [fst snd] in *.
  destruct (mergeDevices_spec manual devsA setA Ha4 Ha1) as (_ & H2 & (kept & H3 & H4 & H5) & H6).
  cbn zeta in *.
  assert (Hids : forall i, i ∈ map Device.id auto <-> i ∈ map Device.id devsA).
  { intros i. split; intros Hi.
    - destruct (deviceById_Some _ _ Hi) as (d & Hd & Hid & _).
      rewrite <- Ha3 in Hd. unfold deviceById in Hd.
      apply find_some in Hd as [Hin Heq]. apply String.eqb_eq in Heq.
      rewrite <- Heq. apply list_elem_of_fmap_2, list_elem_of_In, Hin.
    - apply list_elem_of_fmap in Hi as (d & -> & Hd).
      apply list_elem_of_fmap_2. eapply elem_of_sublist; eassumption. }
  split; [assumption|]. split; [|split; [|split]].
  - exists kept. repeat split; try assumption.
    intros d Hd. rewrite Hids. now apply H5.
  - intros i Hi. rewrite H6, deviceById_app, Ha3.
    destruct (deviceById_Some _ _ Hi) as (d & -> & _). reflexivity.
  - intros i Hi. rewrite H6, deviceById_app, Ha3.
    now rewrite (deviceById_None i auto Hi).
  - reflexivity.
Qed.

(** ** Cloud discovery *)


(** ** Devices configured by hand *)

Lemma cachedDevice_run host w st :
  cachedDevice host w st =
  (match deviceNameCache st !! host with
   | Some cached =>
       if (w_now w (length (trace st)) - timestamp cached <? cacheTTL)%Z
       then Some (device cached) else None
   | None => None
   end, st).
Proof. reflexivity. Qed.

Lemma cachedDevice_wf host w st d :
  cache_wf st -> fst (cachedDevice host w st) = Some d -> Device.id d = host.
Proof.
  intros Hwf. rewrite cachedDevice_run. cbn [fst].
  destruct (deviceNameCache st !! host) as [cached|] eqn:E; [|discriminate].
  destruct (_ <? _)%Z; [|discriminate]. intros [= <-]. now apply Hwf.
Qed.

Lemma cache_wf_insert host d ts st :
  Device.id d = host -> cache_wf st ->
  cache_wf (set_deviceNameCache (<[host := mkCacheEntry d ts]> (deviceNameCache st)) st).
Proof.
  intros Hid Hwf h entry. cbn.
  destruct (decide (host = h)) as [<-|Hne].
  - rewrite lookup_insert_eq. now intros [= <-].
  - rewrite lookup_insert_ne by assumption. apply Hwf.
Qed.

Lemma cache_wf_set_trace tr st : cache_wf st -> cache_wf (set_trace tr st).
Proof. intros Hwf h entry. apply Hwf. Qed.

(** What the queries of [getDeviceByHost] resolve to and store. *)
Lemma queryDeviceByHost_spec host w st :
  let r := w_exec w (length (trace st)) ("hdhomerun_config " +:+ host +:+ " get /sys/hwmodel") in
  let d := fst (queryDeviceByHost host w st) in
  let st' := snd (queryDeviceByHost host w st) in
  Device.id d = host /\
  Device.ip d = host /\
  Device.online d = negb (error r) /\
  (error r = true -> d = offlineDevice host) /\
  (exists ts, deviceNameCache st' = <[host := mkCacheEntry d ts]> (deviceNameCache st)).
Proof.
  cbn zeta. unfold queryDeviceByHost. rewrite run_bind, run_exec. cbn [fst snd].
  destruct (error (w_exec w _ _)) eqn:Er.
  - unfold cacheDevice. rewrite !run_bind. cbn. repeat split. eexists. reflexivity.
  - unfold cacheDevice. rewrite !run_bind, run_exec. cbn.
    repeat split; [discriminate|]. eexists. reflexivity.
Qed.

Lemma queryDeviceByHost_wf host w st :
  cache_wf st -> cache_wf (snd (queryDeviceByHost host w st)).
Proof.
  intros Hwf. destruct (queryDeviceByHost_spec host w st) as (Hid & _ & _ & _ & ts & Hc).
  intros h entry. rewrite Hc.
  destruct (decide (host = h)) as [<-|Hne].
  - rewrite lookup_insert_eq. now intros [= <-].
  - rewrite lookup_insert_ne by assumption. apply Hwf.
Qed.

(** C4. [getDeviceByHost] answers with a device whose [id] is the host as
    configured, whatever the queries report, and keeps the host cache well
    formed. With a cache entry younger than the TTL it returns that entry's
    device and changes nothing. Otherwise it queries the host: the device
    has the host as [id] and [ip] and is online exactly when the model query
    worked; when that query fails it is the placeholder
    [{id: host, ip: host, online: false}]; and in both cases the device is
    stored in the cache under the host. *)
Theorem getDeviceByHost_keeps_host (host : string) (w : World) (st : State) :
  cache_wf st ->
  let r := w_exec w (length (trace st)) ("hdhomerun_config " +:+ host +:+ " get /sys/hwmodel") in
  let d := fst (getDeviceByHost host w st) in
  let st' := snd (getDeviceByHost host w st) in
  Device.id d = host /\
  cache_wf st' /\
  match fst (cachedDevice host w st) with
  | Some cached => d = cached /\ st' = st
  | None =>
      Device.ip d = host /\
      Device.online d = negb (error r) /\
      (error r = true -> d = offlineDevice host) /\
      (exists ts, deviceNameCache st' !! host = Some (mkCacheEntry d ts))
  end.
Proof.
  intros Hwf. cbn zeta.
  pose proof (fun d => cachedDevice_wf host w st d Hwf) as Hhit.
  unfold getDeviceByHost. rewrite run_bind.
  rewrite cachedDevice_run in *. cbn [fst snd] in *.
  destruct (match deviceNameCache st !! host with Some _ => _ | None => _ end) as [cached|].
  - rewrite run_ret. cbn [fst snd]. split; [now apply Hhit|]. split; [assumption|]. now split.
  - destruct (queryDeviceByHost_spec host w st) as (Hid & Hip & Hon & Hoff & ts & Hc).
    split; [assumption|]. split; [now apply queryDeviceByHost_wf|].
    split; [assumption|]. split; [assumption|]. split; [assumption|].
    exists ts. rewrite Hc. apply lookup_insert_eq.
Qed.

(** A reachable host with a vendor id, looked up in a fresh controller: the
    vendor id shows in the name, the [id] is the host. *)
Lemma getDeviceByHost_keeps_host_witness :
  cache_wf constructor /\
  fst (getDeviceByHost "10.0.0.5" world_manual constructor) =
    Device.mk "10.0.0.5" "10.0.0.5" "HDHomeRun 1075D4B1 (HDHR5-4US)" true /\
  Device.id (fst (getDeviceByHost "10.0.0.5" world_manual constructor)) = "10.0.0.5".
Proof.
  assert (Hwf : cache_wf constructor).
  { intros h entry H. cbn in H. now rewrite lookup_empty in H. }
  split; [exact Hwf|]. split; [reflexivity|].
  exact (proj1 (getDeviceByHost_keeps_host "10.0.0.5" world_manual constructor Hwf)).
Defined.

(** *** Lookups of several hosts *)

Lemma host_lookups_refl hosts st : host_lookups hosts st st.
Proof.
  split; [|split; [|split]]; auto.
  exists []. now rewrite app_nil_r.
Qed.

Lemma host_lookups_trans hosts st1 st2 st3 :
  host_lookups hosts st1 st2 -> host_lookups hosts st2 st3 -> host_lookups hosts st1 st3.
Proof.
  intros ((evs1 & Ht1 & HP1) & Hwf1 & Ho1 & Hk1) ((evs2 & Ht2 & HP2) & Hwf2 & Ho2 & Hk2).
  split; [|split; [|split]].
  - exists (evs1 ++ evs2). rewrite Ht2, Ht1, app_assoc. split; [reflexivity|].
    now apply Forall_app.
  - auto.
  - intros h Hh. now rewrite Ho2, Ho1.
  - auto.
Qed.

Lemma host_lookups_exec hosts command w st :
  host_query hosts (EvExec command) ->
  host_lookups hosts st (snd (exec command w st)).
Proof.
  intros HP. rewrite run_exec. cbn [snd]. split; [|split; [|split]].
  - exists [EvExec command]. rewrite trace_set_trace. split; [reflexivity|].
    now constructor.
  - apply cache_wf_set_trace.
  - reflexivity.
  - auto.
Qed.

Lemma host_lookups_cacheDevice hosts host d w st :
  host ∈ hosts -> Device.id d = host ->
  host_lookups hosts st (snd (cacheDevice host d w st)) /\
  is_Some (deviceNameCache (snd (cacheDevice host d w st)) !! host).
Proof.
  intros Hin Hid. unfold cacheDevice. rewrite run_bind. unfold Date_now at 1, modify.
  cbn [fst snd]. split; [split; [|split; [|split]]|].
  - exists []. now rewrite app_nil_r.
  - now apply cache_wf_insert.
  - intros h Hh. cbn [deviceNameCache set_deviceNameCache].
    apply lookup_insert_ne. intros ->. contradiction.
  - intros h Hs. cbn [deviceNameCache set_deviceNameCache].
    destruct (decide (host = h)) as [->|Hne].
    + rewrite lookup_insert_eq. eauto.
    + now rewrite lookup_insert_ne.
  - cbn [deviceNameCache set_deviceNameCache]. rewrite lookup_insert_eq. eauto.
Qed.

Lemma Forall2_compose {A B C} (R : A -> B -> Prop) (S : B -> C -> Prop) xs ys zs :
  Forall2 R xs ys -> Forall2 S ys zs ->
  Forall2 (fun x z => exists y, R x y /\ S y z) xs zs.
Proof.
  intros H. revert zs. induction H as [|x y xs ys Hxy _ IH]; intros zs Hz.
  - inversion Hz. constructor.
  - inversion Hz as [|? z ? zs' Hyz Hrest]; subst. constructor; eauto.
Qed.

(** The calls up to their first suspension: the cache is read, not
    written, and a host that is not served from it has its model query
    sent. *)
Lemma startLookups_spec hosts0 w : forall hosts st,
  (forall h, h ∈ hosts -> h ∈ hosts0) ->
  host_lookups hosts0 st (snd (mapM startLookup hosts w st)) /\
  deviceNameCache (snd (mapM startLookup hosts w st)) = deviceNameCache st /\
  Forall2 (fun host s =>
             match s with
             | StartedCached d =>
                 exists entry, deviceNameCache st !! host = Some entry /\ device entry = d
             | StartedQuery h _ => h = host
             end)
          hosts (fst (mapM startLookup hosts w st)).
Proof.
  induction hosts as [|host hosts IH]; intros st Hsub.
  - cbn. split; [apply host_lookups_refl|]. split; [reflexivity|constructor].
  - cbn [mapM]. rewrite !run_bind, run_ret. cbn [fst snd].
    assert (Hin : host ∈ hosts0) by (apply Hsub, list_elem_of_here).
    assert (Hsub' : forall h, h ∈ hosts -> h ∈ hosts0)
      by (intros h Hh; apply Hsub; now apply list_elem_of_further).
    assert (H1 : host_lookups hosts0 st (snd (startLookup host w st)) /\
                 deviceNameCache (snd (startLookup host w st)) = deviceNameCache st /\
                 match fst (startLookup host w st) with
                 | StartedCached d =>
                     exists entry, deviceNameCache st !! host = Some entry /\ device entry = d
                 | StartedQuery h _ => h = host
                 end).
    { unfold startLookup. rewrite run_bind, cachedDevice_run. cbn [fst snd].
      assert (Hmiss : host_lookups hosts0 st
                        (snd ((let* r := exec ("hdhomerun_config " +:+ host +:+ " get /sys/hwmodel")
                               in ret (StartedQuery host r)) w st)) /\
                      deviceNameCache
                        (snd ((let* r := exec ("hdhomerun_config " +:+ host +:+ " get /sys/hwmodel")
                               in ret (StartedQuery host r)) w st)) = deviceNameCache st /\
                      match fst ((let* r := exec ("hdhomerun_config " +:+ host +:+ " get /sys/hwmodel")
                                  in ret (StartedQuery host r)) w st) with
                      | StartedCached d =>
                          exists entry, deviceNameCache st !! host = Some entry /\ device entry = d
                      | StartedQuery h _ => h = host
                      end).
      { rewrite run_bind, run_ret. cbn [fst snd]. split; [|split; [|reflexivity]].
        - apply host_lookups_exec. exists host. split; [exact Hin|now left].
        - now rewrite run_exec. }
      destruct (deviceNameCache st !! host) as [cached|] eqn:Ec; [|exact Hmiss].
      destruct (w_now w (length (trace st)) - timestamp cached <? cacheTTL)%Z; [|exact Hmiss].
      rewrite run_ret. cbn [fst snd]. split; [apply host_lookups_refl|].
      split; [reflexivity|]. now exists cached. }
    destruct H1 as (Hg1 & Hc1 & Hs1).
    destruct (IH (snd (startLookup host w st)) Hsub') as (Hg2 & Hc2 & Hs2).
    split; [eapply host_lookups_trans; eassumption|].
    split; [now rewrite Hc2|].
    constructor; [exact Hs1|]. rewrite Hc1 in Hs2. exact Hs2.
Qed.

(** The callbacks of the model queries: a host that does not answer is
    settled with the placeholder, which is cached; for the others the
    discover query is sent. *)
Lemma modelCallbacks_spec hosts0 w : forall started st,
  (forall h r, StartedQuery h r ∈ started -> h ∈ hosts0) ->
  host_lookups hosts0 st (snd (mapM modelCallback started w st)) /\
  Forall2 (fun s p =>
             match s, p with
             | StartedCached d, PendingDone d' => d' = d
             | StartedQuery h _, PendingDone d' =>
                 Device.id d' = h /\
                 is_Some (deviceNameCache (snd (mapM modelCallback started w st)) !! h)
             | StartedQuery h _, PendingDiscover h' _ _ => h' = h
             | StartedCached _, PendingDiscover _ _ _ => False
             end)
          started (fst (mapM modelCallback started w st)).
Proof.
  induction started as [|s started IH]; intros st Hsub.
  - cbn. split; [apply host_lookups_refl|constructor].
  - cbn [mapM]. rewrite !run_bind, run_ret. cbn [fst snd].
    assert (Hsub' : forall h r, StartedQuery h r ∈ started -> h ∈ hosts0)
      by (intros h r Hh; apply (Hsub h r); now apply list_elem_of_further).
    destruct (IH (snd (modelCallback s w st)) Hsub') as (Hg2 & Hs2).
    assert (H1 : host_lookups hosts0 st (snd (modelCallback s w st)) /\
                 match s, fst (modelCallback s w st) with
                 | StartedCached d, PendingDone d' => d' = d
                 | StartedQuery h _, PendingDone d' =>
                     Device.id d' = h /\
                     is_Some (deviceNameCache (snd (modelCallback s w st)) !! h)
                 | StartedQuery h _, PendingDiscover h' _ _ => h' = h
                 | StartedCached _, PendingDiscover _ _ _ => False
                 end).
    { destruct s as [d|h r]; cbn [modelCallback].
      - rewrite run_ret. cbn [fst snd]. split; [apply host_lookups_refl|reflexivity].
      - assert (Hin : h ∈ hosts0) by (apply (Hsub h r), list_elem_of_here).
        destruct (error r).
        + rewrite run_bind, run_ret. cbn [fst snd].
          destruct (host_lookups_cacheDevice hosts0 h (offlineDevice h) w st Hin eq_refl)
            as [Hg Hs].
          split; [exact Hg|]. split; [reflexivity|exact Hs].
        + rewrite run_bind, run_ret. cbn [fst snd]. split; [|reflexivity].
          apply host_lookups_exec. exists h. split; [exact Hin|now right]. }
    destruct H1 as (Hg1 & Hs1).
    split; [eapply host_lookups_trans; eassumption|].
    constructor; [|exact Hs2].
    destruct s as [d|h r], (fst (modelCallback _ w st)) as [d'|h' m' r']; try exact Hs1.
    destruct Hs1 as [Hid Hsome]. split; [exact Hid|].
    now apply (proj2 (proj2 (proj2 Hg2))).
Qed.

(** The callbacks of the discover queries: the device is made and cached. *)
Lemma discoverCallbacks_spec hosts0 w : forall pending st,
  (forall h m r, PendingDiscover h m r ∈ pending -> h ∈ hosts0) ->
  host_lookups hosts0 st (snd (mapM discoverCallback pending w st)) /\
  Forall2 (fun p d =>
             match p with
             | PendingDone d' => d = d'
             | PendingDiscover h _ _ =>
                 Device.id d = h /\
                 is_Some (deviceNameCache (snd (mapM discoverCallback pending w st)) !! h)
             end)
          pending (fst (mapM discoverCallback pending w st)).
Proof.
  induction pending as [|p pending IH]; intros st Hsub.
  - cbn. split; [apply host_lookups_refl|constructor].
  - cbn [mapM]. rewrite !run_bind, run_ret. cbn [fst snd].
    assert (Hsub' : forall h m r, PendingDiscover h m r ∈ pending -> h ∈ hosts0)
      by (intros h m r Hh; apply (Hsub h m r); now apply list_elem_of_further).
    destruct (IH (snd (discoverCallback p w st)) Hsub') as (Hg2 & Hs2).
    assert (H1 : host_lookups hosts0 st (snd (discoverCallback p w st)) /\
                 match p with
                 | PendingDone d' => fst (discoverCallback p w st) = d'
                 | PendingDiscover h _ _ =>
                     Device.id (fst (discoverCallback p w st)) = h /\
                     is_Some (deviceNameCache (snd (discoverCallback p w st)) !! h)
                 end).
    { destruct p as [d|h m r]; cbn [discoverCallback].
      - rewrite run_ret. cbn [fst snd]. split; [apply host_lookups_refl|reflexivity].
      - assert (Hin : h ∈ hosts0) by (apply (Hsub h m r), list_elem_of_here).
        rewrite run_bind, run_ret. cbn [fst snd].
        match goal with
        | |- context [cacheDevice h ?dev w st] =>
            destruct (host_lookups_cacheDevice hosts0 h dev w st Hin eq_refl) as [Hg Hs]
        end.
        split; [exact Hg|]. split; [reflexivity|exact Hs]. }
    destruct H1 as (Hg1 & Hs1).
    split; [eapply host_lookups_trans; eassumption|].
    constructor; [|exact Hs2].
    destruct p as [d|h m r]; [exact Hs1|].
    destruct Hs1 as [Hid Hsome]. split; [exact Hid|].
    now apply (proj2 (proj2 (proj2 Hg2))).
Qed.

(** Looking up the hosts configured by hand: the requests are queries of
    these hosts; the cache is written for these hosts only and loses
    nothing; and the devices come back in the order of the hosts, each
    with an entry in the cache. *)
Lemma getDevicesByHosts_spec hosts w st :
  host_lookups hosts st (snd (getDevicesByHosts hosts w st)) /\
  Forall2 (fun host d =>
             (cache_wf st -> Device.id d = host) /\
             is_Some (deviceNameCache (snd (getDevicesByHosts hosts w st)) !! host))
          hosts (fst (getDevicesByHosts hosts w st)).
Proof.
  unfold getDevicesByHosts. rewrite !run_bind.
  destruct (startLookups_spec hosts w hosts st (fun h H => H)) as (Hg1 & Hc1 & Hs1).
  set (started := fst (mapM startLookup hosts w st)) in *.
  set (st1 := snd (mapM startLookup hosts w st)) in *.
  assert (Hsub1 : forall h r, StartedQuery h r ∈ started -> h ∈ hosts).
  { intros h r Hin. apply list_elem_of_lookup in Hin as [k Hk].
    destruct (Forall2_lookup_r _ _ _ _ _ Hs1 Hk) as (host & Hhost & Heq).
    cbn in Heq. subst h. now apply list_elem_of_lookup_2 in Hhost. }
  destruct (modelCallbacks_spec hosts w started st1 Hsub1) as (Hg2 & Hs2).
  set (pending := fst (mapM modelCallback started w st1)) in *.
  set (st2 := snd (mapM modelCallback started w st1)) in *.
  assert (Hsub2 : forall h m r, PendingDiscover h m r ∈ pending -> h ∈ hosts).
  { intros h m r Hin. apply list_elem_of_lookup in Hin as [k Hk].
    destruct (Forall2_lookup_r _ _ _ _ _ Hs2 Hk) as (s & Hs & Heq).
    destruct s as [d|h' r']; [contradiction|]. cbn in Heq. subst h.
    apply list_elem_of_lookup_2 in Hs. now apply (Hsub1 h' r'). }
  destruct (discoverCallbacks_spec hosts w pending st2 Hsub2) as (Hg3 & Hs3).
  set (st3 := snd (mapM discoverCallback pending w st2)) in *.
  split; [eapply host_lookups_trans; [|exact Hg3];
          eapply host_lookups_trans; eassumption|].
  pose proof (Forall2_compose _ _ _ _ _ (Forall2_compose _ _ _ _ _ Hs1 Hs2) Hs3) as Hall.
  eapply Forall2_impl; [exact Hall|].
  intros host d (p & (s & Hhs & Hsp) & Hpd). cbv beta in *.
  assert (Hk2 : forall h, is_Some (deviceNameCache st1 !! h) ->
                          is_Some (deviceNameCache st3 !! h)).
  { intros h Hh. apply (proj2 (proj2 (proj2 Hg3))), (proj2 (proj2 (proj2 Hg2))), Hh. }
  destruct s as [dc|h r].
  - destruct Hhs as (entry & He & Hd).
    destruct p as [d'|h' m' r']; [|contradiction]. subst d' d. split.
    + intros Hwf. rewrite <- Hd. now apply (Hwf host entry).
    + apply Hk2. rewrite Hc1, He. eauto.
  - subst h. destruct p as [d'|h' m' r'].
    + destruct Hsp as [Hid Hsome]. subst d. split; [now intros _|].
      now apply (proj2 (proj2 (proj2 Hg3))).
    + subst h'. destruct Hpd as [Hid Hsome]. split; [now intros _|exact Hsome].
Qed.

(** A single host looked up this way is looked up as [getDeviceByHost]
    does. *)
Lemma getDevicesByHosts_single host w st :
  getDevicesByHosts [host] w st =
  ([fst (getDeviceByHost host w st)], snd (getDeviceByHost host w st)).
Proof.
  unfold getDevicesByHosts, getDeviceByHost, startLookup.
  cbn [mapM]. rewrite !run_bind, cachedDevice_run, !run_ret. cbn [fst snd].
  destruct (match deviceNameCache st !! host with
            | Some cached =>
                if (w_now w (length (trace st)) - timestamp cached <? cacheTTL)%Z
                then Some (device cached) else None
            | None => None
            end) as [d|].
  - rewrite !run_ret. cbn [fst snd mapM modelCallback discoverCallback].
    now rewrite !run_bind, !run_ret.
  - unfold queryDeviceByHost. rewrite !run_bind, run_exec, !run_ret.
    cbn [fst snd mapM modelCallback].
    destruct (error (w_exec w (length (trace st))
                       ("hdhomerun_config " +:+ host +:+ " get /sys/hwmodel"))).
    + rewrite !run_bind, !run_ret. cbn [fst snd mapM discoverCallback].
      now rewrite !run_bind, !run_ret.
    + rewrite !run_bind, run_exec, !run_ret. cbn [fst snd mapM discoverCallback].
      now rewrite !run_bind, !run_ret.
Qed.

(** The lookups of [discoverDevices] keep the host cache well formed, so
    it is well formed in every state the controller reaches. *)
Lemma getDevicesByHosts_wf hosts w st :
  cache_wf st -> cache_wf (snd (getDevicesByHosts hosts w st)).
Proof. exact (proj1 (proj2 (proj1 (getDevicesByHosts_spec hosts w st)))). Qed.

Lemma cache_wf_after evs st st' : after evs st st' -> cache_wf st -> cache_wf st'.
Proof. intros -> Hwf. now apply cache_wf_set_trace. Qed.

Lemma autoDiscoverDevices_wf forceRefresh w st :
  cache_wf st -> cache_wf (snd (autoDiscoverDevices forceRefresh w st)).
Proof.
  intros Hwf. unfold autoDiscoverDevices, bind at 1.
  destruct (execs_only_udpDiscoverDevices w st) as (evs & H1 & _).
  destruct (udpDiscoverDevices w st) as [udpDevices st1]. cbn [snd] in H1.
  pose proof (cache_wf_after _ _ _ H1 Hwf) as Hwf1.
  destruct (0 <? length udpDevices)%nat; [exact Hwf1|].
  unfold bind at 1, get.
  destruct (httpDiscoverDevices_once w st1) as (evs2 & H2 & _).
  assert (Hhttp : cache_wf
            (snd ((let* httpDevices := httpDiscoverDevices in
                   modify (set_httpDiscoveryCache (Some httpDevices)) ;; ret httpDevices) w st1))).
  { unfold bind, modify, ret. destruct (httpDiscoverDevices w st1) as [httpDevices st2].
    cbn [snd] in *. intros h entry. cbn. apply (cache_wf_after _ _ _ H2 Hwf1). }
  destruct forceRefresh; [exact Hhttp|].
  destruct (httpDiscoveryCache st1); [exact Hwf1|exact Hhttp].
Qed.

Lemma discoverDevices_wf forceRefresh w st :
  cache_wf st -> cache_wf (snd (discoverDevices forceRefresh w st)).
Proof.
  intros Hwf. rewrite discoverDevices_run. cbn zeta. cbn [snd].
  assert (H0 : cache_wf (clearedState forceRefresh st)).
  { unfold clearedState. destruct forceRefresh; [|exact Hwf].
    intros h entry H. cbn in H. now rewrite lookup_empty in H. }
  assert (H1 : cache_wf (snd (autoStage forceRefresh w st))).
  { unfold autoStage. destruct (discoveryDisabled w); [exact H0|].
    now apply autoDiscoverDevices_wf. }
  assert (H2 : cache_wf (snd (manualStage forceRefresh w st))).
  { unfold manualStage. destruct (JS.truthy _); [|exact H1].
    now apply getDevicesByHosts_wf. }
  intros h entry. apply H2.
Qed.

(** Looked up together, as [discoverDevices] does, the hosts configured by
    hand come back as devices with these hosts as ids, in order. *)
Lemma getDevicesByHosts_ids hosts w st :
  cache_wf st -> map Device.id (fst (getDevicesByHosts hosts w st)) = hosts.
Proof.
  intros Hwf. destruct (getDevicesByHosts_spec hosts w st) as [_ Hall].
  induction Hall as [|host d hosts' devs' [Hid _] _ IH]; [reflexivity|].
  cbn [map]. now rewrite (Hid Hwf), IH.
Qed.

(** ** Tuner status *)

Lemma getStatusCommand_run deviceId tn command w st :
  getStatusCommand deviceId tn command w st =
  (statusOutput (w_exec w (length (trace st)) (tunerCommand deviceId tn command)),
   set_trace (trace st ++ [EvExec (tunerCommand deviceId tn command)]) st).
Proof. reflexivity. Qed.

(** [getTunerStatus] sends its two queries whatever they answer, and
    resolves to what [tunerStatusOf] makes of the two answers. *)
Lemma getTunerStatus_run deviceId tn w st :
  getTunerStatus deviceId tn w st =
  (tunerStatusOf
     (statusOutput (w_exec w (length (trace st)) (tunerCommand deviceId tn "status")))
     (statusOutput (w_exec w (S (length (trace st))) (tunerCommand deviceId tn "debug"))),
   set_trace (trace st ++ [EvExec (tunerCommand deviceId tn "status");
                           EvExec (tunerCommand deviceId tn "debug")]) st).
Proof.
  unfold getTunerStatus. rewrite !run_bind, !getStatusCommand_run, run_ret.
  cbn [fst snd]. rewrite trace_set_trace, set_trace_set_trace, length_app, <- app_assoc.
  cbn [length app]. now rewrite Nat.add_1_r.
Qed.

Lemma parseStatusLine_no_estimate text :
  TunerStatus.ssDb (parseStatusLine text) = None /\
  TunerStatus.snrDb (parseStatusLine text) = None /\
  TunerStatus.debugRaw (parseStatusLine text) = None.
Proof. unfold parseStatusLine. now destruct (String.eqb _ _). Qed.

(** The debug answer adds the estimate and touches nothing else. *)
Lemma applyDebug_fields debugResult status :
  let status' := applyDebug debugResult status in
  TunerStatus.channel status' = TunerStatus.channel status /\
  TunerStatus.lock status' = TunerStatus.lock status /\
  TunerStatus.ss status' = TunerStatus.ss status /\
  TunerStatus.snq status' = TunerStatus.snq status /\
  TunerStatus.seq status' = TunerStatus.seq status /\
  TunerStatus.bps status' = TunerStatus.bps status /\
  TunerStatus.pps status' = TunerStatus.pps status.
Proof.
  cbn zeta. unfold applyDebug.
  destruct debugResult as [dbg|]; [|now repeat split].
  destruct (JS.truthy dbg); [|now repeat split].
  destruct (search pattern_dbg dbg) as [m|]; [|now repeat split].
  destruct (estimate _ _). now repeat split.
Qed.

Lemma applyDebug_no_match debugResult status :
  (forall dbg, debugResult = Some dbg -> search pattern_dbg dbg = None) ->
  applyDebug debugResult status = status.
Proof.
  intros Hno. unfold applyDebug. destruct debugResult as [dbg|]; [|reflexivity].
  destruct (JS.truthy dbg); [|reflexivity]. now rewrite (Hno dbg eq_refl).
Qed.

(** C3, as the code has it. [getTunerStatus] sends the status query and the
    debug query, both of them whatever the other answers. When the status
    query fails, or succeeds with blank output, the result is [null]. When
    it succeeds with other output, the result is a status whose channel,
    lock and counters are those parsed from the status output, whatever the
    debug query answers; and when the debug query fails or its output does
    not match [dbg=<signal>-<snr>/<third>], that status is the parsed one
    with [ssDb], [snrDb] and [debugRaw] left out. *)
Theorem getTunerStatus_degrades (deviceId tn : string) (w : World) (st : State) :
  let s := w_exec w (length (trace st)) (tunerCommand deviceId tn "status") in
  let d := w_exec w (S (length (trace st))) (tunerCommand deviceId tn "debug") in
  let res := fst (getTunerStatus deviceId tn w st) in
  after [EvExec (tunerCommand deviceId tn "status");
         EvExec (tunerCommand deviceId tn "debug")] st
        (snd (getTunerStatus deviceId tn w st)) /\
  (error s = true \/ JS.truthy (JS.trim (stdout s)) = false -> res = None) /\
  (error s = false -> JS.truthy (JS.trim (stdout s)) = true ->
   let parsed := parseStatusLine (JS.trim (stdout s)) in
   (exists status,
       res = Some status /\
       TunerStatus.channel status = TunerStatus.channel parsed /\
       TunerStatus.lock status = TunerStatus.lock parsed /\
       TunerStatus.ss status = TunerStatus.ss parsed /\
       TunerStatus.snq status = TunerStatus.snq parsed /\
       TunerStatus.seq status = TunerStatus.seq parsed /\
       TunerStatus.bps status = TunerStatus.bps parsed /\
       TunerStatus.pps status = TunerStatus.pps parsed) /\
   (error d = true \/ search pattern_dbg (JS.trim (stdout d)) = None ->
    res = Some parsed /\
    TunerStatus.ssDb parsed = None /\
    TunerStatus.snrDb parsed = None /\
    TunerStatus.debugRaw parsed = None)).
Proof.
  cbn zeta. rewrite getTunerStatus_run. cbn [fst snd]. split; [reflexivity|].
  unfold statusOutput. split.
  - intros [Herr|Hblank]; [now rewrite Herr|].
    destruct (error (w_exec w _ _)); [reflexivity|]. cbn. now rewrite Hblank.
  - intros Herr Htext. rewrite Herr. unfold tunerStatusOf. rewrite Htext.
    set (text := JS.trim (stdout (w_exec w (length (trace st)) _))).
    set (dbg := if error _ then None else Some _).
    assert (Hnone : String.eqb (JS.trim text) "none" = true ->
                    parseStatusLine text = status_none).
    { intros H. unfold parseStatusLine. now rewrite H. }
    split.
    + destruct (String.eqb (JS.trim text) "none") eqn:En.
      * exists status_none. rewrite (Hnone eq_refl). now repeat split.
      * exists (applyDebug dbg (parseStatusLine text)).
        split; [reflexivity|]. apply applyDebug_fields.
    + intros Hdbg. split; [|apply parseStatusLine_no_estimate].
      destruct (String.eqb (JS.trim text) "none") eqn:En.
      * now rewrite (Hnone eq_refl).
      * f_equal. apply applyDebug_no_match. subst dbg.
        intros dbg' Hd. destruct (error (w_exec w (S _) _)); [discriminate|].
        injection Hd as <-. now destruct Hdbg.
Qed.

(** A status query that succeeds with no output, next to a failing debug
    query, gives [null] and no status. *)
Lemma getTunerStatus_blank_status_is_null :
  error (w_exec world_blank_status 0 (tunerCommand "1075D4B1" "0" "status")) = false /\
  error (w_exec world_blank_status 1 (tunerCommand "1075D4B1" "0" "debug")) = true /\
  fst (getTunerStatus "1075D4B1" "0" world_blank_status constructor) = None.
Proof. repeat split. Qed.

(** A locked tuner whose debug query fails: the status without estimate. *)
Lemma getTunerStatus_degrades_witness :
  fst (getTunerStatus "1075D4B1" "0" world_no_debug constructor) =
  Some (TunerStatus.mk (Some "8vsb:177000000") true
          (Some 71%float) (Some 83%float) (Some 100%float)
          (Some 19393000%float) (Some 1670%float) None None None).
Proof.
  destruct (getTunerStatus_degrades "1075D4B1" "0" world_no_debug constructor)
    as (_ & _ & H).
  destruct (H eq_refl eq_refl) as (_ & Hres).
  destruct (Hres (or_introl eq_refl)) as (-> & _).
  reflexivity.
Defined.

(** ** The program list *)

Lemma append_inv_head (p a b : string) : p +:+ a = p +:+ b -> a = b.
Proof. induction p as [|c p IH]; cbn; [easy|]. intros [= H]. auto. Qed.

Lemma tunerCommand_inj deviceId tn c1 c2 :
  tunerCommand deviceId tn c1 = tunerCommand deviceId tn c2 -> c1 = c2.
Proof.
  unfold tunerCommand. intros H.
  now repeat (apply append_inv_head in H).
Qed.

(** When every attempt is answered without programs, the retries run out
    and the list is empty: [retriesLeft + 1] queries in all. *)
Lemma tryGetPrograms_exhaust deviceId tn w retriesLeft : forall st,
  (forall k, k <= retriesLeft ->
     noPrograms (w_exec w (length (trace st) + k) (tunerCommand deviceId tn "streaminfo"))) ->
  tryGetPrograms deviceId tn retriesLeft w st =
  ([], set_trace (trace st ++ repeat (EvExec (tunerCommand deviceId tn "streaminfo"))
                                     (S retriesLeft)) st).
Proof.
  induction retriesLeft as [|n IH]; intros st Hbad.
  - cbn [tryGetPrograms]. rewrite run_bind, run_exec. cbn [fst snd].
    specialize (Hbad 0 (le_n _)). rewrite Nat.add_0_r in Hbad.
    destruct Hbad as [Herr|Hempty].
    + now rewrite Herr.
    + destruct (error _); [reflexivity|]. now rewrite Hempty.
  - cbn [tryGetPrograms]. rewrite run_bind, run_exec. cbn [fst snd].
    set (st1 := set_trace _ st).
    assert (Hnext : tryGetPrograms deviceId tn n w st1 =
                    ([], set_trace (trace st ++ repeat (EvExec (tunerCommand deviceId tn "streaminfo"))
                                                       (S (S n))) st)).
    { rewrite IH.
      - subst st1. rewrite trace_set_trace, set_trace_set_trace, <- app_assoc. reflexivity.
      - intros k Hk. subst st1. rewrite trace_set_trace, length_app. cbn [length].
        replace (length (trace st) + 1 + k) with (length (trace st) + S k) by lia.
        apply Hbad. lia. }
    pose proof (Hbad 0 (Nat.le_0_l _)) as H0. rewrite Nat.add_0_r in H0.
    destruct H0 as [Herr|Hempty].
    + now rewrite Herr.
    + destruct (error _); [exact Hnext|]. now rewrite Hempty.
Qed.

(** Whatever the answers, [tryGetPrograms] returns after at most
    [retriesLeft + 1] queries, all of them for the program list. *)
Lemma tryGetPrograms_attempts deviceId tn w retriesLeft : forall st,
  exists k, k <= retriesLeft /\
    after (repeat (EvExec (tunerCommand deviceId tn "streaminfo")) (S k)) st
          (snd (tryGetPrograms deviceId tn retriesLeft w st)).
Proof.
  induction retriesLeft as [|n IH]; intros st.
  - exists 0. split; [lia|]. cbn [tryGetPrograms]. rewrite run_bind, run_exec. cbn [fst snd].
    destruct (error _); [reflexivity|]. now destruct (parsePrograms _).
  - cbn [tryGetPrograms]. rewrite run_bind, run_exec. cbn [fst snd].
    set (st1 := set_trace _ st).
    assert (Hnext : exists k, k <= S n /\
              after (repeat (EvExec (tunerCommand deviceId tn "streaminfo")) (S k)) st
                    (snd (tryGetPrograms deviceId tn n w st1))).
    { destruct (IH st1) as (k & Hk & Hafter). exists (S k). split; [lia|].
      change (repeat ?e (S (S k))) with ([e] ++ repeat e (S k)).
      eapply after_trans; [|exact Hafter]. reflexivity. }
    assert (Hstop : forall res : list ProgramEntry.t, exists k, k <= S n /\
              after (repeat (EvExec (tunerCommand deviceId tn "streaminfo")) (S k)) st
                    (snd (ret res w st1))).
    { intros res. exists 0. split; [lia|]. reflexivity. }
    destruct (error _); [exact Hnext|].
    destruct (parsePrograms _); [exact Hnext|apply Hstop].
Qed.

(** C6. [getCurrentChannelPrograms] first asks for the tuner status. When
    that is [null], or has [lock] false, or has the channel ['none'], the
    result is the empty list and nothing more is sent: the trace grows by
    the two status queries only, and no program-list query is among them.
    Otherwise, when the first query and each of the [maxRetries] retries is
    answered with an error or without programs, the result is the empty
    list as well, after [maxRetries + 1] program-list queries. In every
    case the call returns a list, after at most that many queries. *)
Theorem getCurrentChannelPrograms_gate (deviceId tn : string) (maxRetries : nat)
    (w : World) (st : State) :
  let status := fst (getTunerStatus deviceId tn w st) in
  let st1 := snd (getTunerStatus deviceId tn w st) in
  let res := fst (getCurrentChannelPrograms deviceId tn maxRetries w st) in
  let st' := snd (getCurrentChannelPrograms deviceId tn maxRetries w st) in
  let query := EvExec (tunerCommand deviceId tn "streaminfo") in
  ((status = None \/
    exists s, status = Some s /\
              (TunerStatus.lock s = false \/ TunerStatus.channel s = Some "none")) ->
   res = [] /\ st' = st1 /\
   after [EvExec (tunerCommand deviceId tn "status");
          EvExec (tunerCommand deviceId tn "debug")] st st' /\
   query ∉ [EvExec (tunerCommand deviceId tn "status");
            EvExec (tunerCommand deviceId tn "debug")]) /\
  ((exists s, status = Some s /\ TunerStatus.lock s = true /\
              TunerStatus.channel s <> Some "none") ->
   (exists k, k <= maxRetries /\ after (repeat query (S k)) st1 st') /\
   ((forall k, k <= maxRetries ->
       noPrograms (w_exec w (length (trace st1) + k) (tunerCommand deviceId tn "streaminfo"))) ->
    res = [] /\ after (repeat query (S maxRetries)) st1 st')).
Proof.
  cbn zeta. unfold getCurrentChannelPrograms. rewrite run_bind.
  destruct (getTunerStatus deviceId tn w st) as [status st1] eqn:Erun. cbn [fst snd].
  split.
  - intros Hidle.
    assert (Hnot : notTuned status = true).
    { destruct Hidle as [->|(s & -> & [Hl|Hc])]; [reflexivity| |]; cbn.
      - now rewrite Hl.
      - rewrite Hc. cbn. apply orb_true_r. }
    rewrite Hnot, run_ret. cbn [fst snd]. split; [reflexivity|]. split; [reflexivity|].
    rewrite getTunerStatus_run in Erun. injection Erun as _ <-. split; [reflexivity|].
    intros Hin. apply elem_of_cons in Hin as [Hin|Hin].
    + assert (Hc : tunerCommand deviceId tn "streaminfo" = tunerCommand deviceId tn "status")
        by congruence.
      now apply tunerCommand_inj in Hc.
    + apply list_elem_of_singleton in Hin.
      assert (Hc : tunerCommand deviceId tn "streaminfo" = tunerCommand deviceId tn "debug")
        by congruence.
      now apply tunerCommand_inj in Hc.
  - intros (s & -> & Hl & Hc).
    assert (Hnot : notTuned (Some s) = false).
    { cbn. rewrite Hl. cbn. destruct (TunerStatus.channel s) as [ch|]; [|reflexivity].
      destruct (String.eqb_spec ch "none"); [congruence|reflexivity]. }
    rewrite Hnot. split; [apply tryGetPrograms_attempts|].
    intros Hbad. rewrite tryGetPrograms_exhaust by assumption. now split.
Qed.

(** A locked tuner whose program table stays empty: four queries with the
    default of three retries, then the empty list. *)
Lemma getCurrentChannelPrograms_gate_witness :
  fst (getCurrentChannelPrograms "1075D4B1" "0" 3 world_locked_no_programs constructor) = [] /\
  trace (snd (getCurrentChannelPrograms "1075D4B1" "0" 3 world_locked_no_programs constructor)) =
    [EvExec (tunerCommand "1075D4B1" "0" "status");
     EvExec (tunerCommand "1075D4B1" "0" "debug");
     EvExec (tunerCommand "1075D4B1" "0" "streaminfo");
     EvExec (tunerCommand "1075D4B1" "0" "streaminfo");
     EvExec (tunerCommand "1075D4B1" "0" "streaminfo");
     EvExec (tunerCommand "1075D4B1" "0" "streaminfo")].
Proof.
  destruct (getCurrentChannelPrograms_gate "1075D4B1" "0" 3 world_locked_no_programs constructor)
    as (_ & H).
  destruct H as (_ & H).
  - eexists. split; [reflexivity|]. split; [reflexivity|]. discriminate.
  - destruct H as (Hres & Hafter).
    + intros k _. right. reflexivity.
    + split; [exact Hres|]. rewrite Hafter. reflexivity.
Defined.

(** ** Antenna mode *)

Lemma antennaTick_from deviceId w n : forall a st,
  mapM (fun i => let* status := getTunerStatus deviceId (index_toString i) in
                 ret (mkTunerData i status)) (List.seq a n) w st =
  (map (fun i => antennaEntry deviceId w (length (trace st) + 2 * (i - a)) i) (List.seq a n),
   set_trace (trace st ++
              concat (map (fun i => [EvExec (tunerCommand deviceId (index_toString i) "status");
                                     EvExec (tunerCommand deviceId (index_toString i) "debug")])
                          (List.seq a n))) st).
Proof.
  induction n as [|n IH]; intros a st.
  - cbn. now rewrite app_nil_r, set_trace_id.
  - cbn [List.seq mapM]. rewrite !run_bind, getTunerStatus_run, !run_ret. cbn [fst snd].
    rewrite IH. cbn [fst snd].
    rewrite trace_set_trace, set_trace_set_trace. f_equal.
    + cbn [map]. f_equal.
      * unfold antennaEntry. now rewrite Nat.sub_diag, Nat.mul_0_r, Nat.add_0_r.
      * apply map_ext_in. intros i Hi. apply in_seq in Hi.
        rewrite length_app. cbn [length]. f_equal. lia.
    + cbn [map concat]. now rewrite <- app_assoc.
Qed.

(** The array of a tick, entry by entry. *)
Lemma antennaTick_run deviceId tunerCount w st :
  fst (antennaTick deviceId tunerCount w st) =
  map (fun i => antennaEntry deviceId w (length (trace st) + 2 * i) i) (List.seq 0 tunerCount).
Proof.
  unfold antennaTick. rewrite antennaTick_from. cbn [fst].
  apply map_ext. intros i. now rewrite Nat.sub_0_r.
Qed.

(** C9. A tick of antenna mode for [tunerCount] tuners emits an array of
    exactly [tunerCount] entries; the entry at index [i] is the one of tuner
    [i], made of the answers to that tuner's own two queries (the ones at
    positions [2i] and [2i + 1] of the tick). So when the status query of a
    tuner fails, that tuner's entry has a [null] status, and the entries of
    the other tuners are what they are in any world that answers their
    queries the same way. *)
Theorem antennaTick_per_tuner (deviceId : string) (tunerCount : nat) (w : World) (st : State) :
  let base := length (trace st) in
  let data := fst (antennaTick deviceId tunerCount w st) in
  length data = tunerCount /\
  map tuner data = List.seq 0 tunerCount /\
  (forall i, i < tunerCount ->
     data !! i = Some (antennaEntry deviceId w (base + 2 * i) i)) /\
  (forall j, j < tunerCount ->
     error (w_exec w (base + 2 * j) (tunerCommand deviceId (index_toString j) "status")) = true ->
     data !! j = Some (mkTunerData j None)) /\
  (forall j w',
     (forall pos command, pos <> base + 2 * j -> pos <> S (base + 2 * j) ->
        w_exec w' pos command = w_exec w pos command) ->
     length (fst (antennaTick deviceId tunerCount w' st)) = tunerCount /\
     forall i, i <> j -> fst (antennaTick deviceId tunerCount w' st) !! i = data !! i).
Proof.
  cbn zeta. rewrite antennaTick_run.
  assert (Hlookup : forall w0 i, i < tunerCount ->
            map (fun i => antennaEntry deviceId w0 (length (trace st) + 2 * i) i)
                (List.seq 0 tunerCount) !! i =
            Some (antennaEntry deviceId w0 (length (trace st) + 2 * i) i)).
  { intros w0 i Hi. rewrite list_lookup_fmap, lookup_seq_lt by assumption. reflexivity. }
  split; [now rewrite length_map, length_seq|].
  split; [rewrite map_map; cbn; apply map_id|].
  split; [apply Hlookup|]. split.
  - intros j Hj Herr. rewrite Hlookup by assumption.
    unfold antennaEntry, statusOutput. now rewrite Herr.
  - intros j w' Hsame. rewrite antennaTick_run.
    split; [now rewrite length_map, length_seq|].
    intros i Hij. destruct (Nat.lt_ge_cases i tunerCount) as [Hi|Hi].
    + rewrite !Hlookup by assumption. unfold antennaEntry.
      rewrite !Hsame by lia. reflexivity.
    + rewrite !lookup_ge_None_2; [reflexivity|..]; now rewrite length_map, length_seq.
Qed.

(** Three tuners, the middle one not answering: three entries, in order,
    and one [null] status, in the middle. *)
Lemma antennaTick_per_tuner_witness :
  fst (antennaTick "1075D4B1" 3 world_one_tuner_down constructor) =
    [mkTunerData 0 (Some status_none); mkTunerData 1 None; mkTunerData 2 (Some status_none)] /\
  fst (antennaTick "1075D4B1" 3 world_one_tuner_down constructor) !! 1 =
    Some (mkTunerData 1 None).
Proof.
  split; [reflexivity|].
  destruct (antennaTick_per_tuner "1075D4B1" 3 world_one_tuner_down constructor)
    as (_ & _ & _ & Hfail & _).
  apply Hfail; [repeat constructor|reflexivity].
Defined.

(** ** The signal estimate *)

(** The four buckets lie on one line: the estimate is [signalRaw / 2 - 90]
    throughout. *)
Lemma spec_ss_tenths_linear signalRaw : spec_ss_tenths signalRaw = (5 * signalRaw - 900)%Z.
Proof.
  unfold spec_ss_tenths.
  destruct (80 <=? signalRaw)%Z; [lia|].
  destruct (60 <=? signalRaw)%Z; [lia|].
  destruct (20 <=? signalRaw)%Z; lia.
Qed.

Lemma estimate_agrees_all : forallb estimate_agrees (List.seq 0 counterBound) = true.
Proof. vm_compute. reflexivity. Qed.

Lemma estimate_agrees_at (z : Z) :
  (0 <= z < Z.of_nat counterBound)%Z ->
  fst (estimate (Num.Z2float z) (Num.Z2float z)) = tenths (spec_ss_tenths z) /\
  snd (estimate (Num.Z2float z) (Num.Z2float z)) =
    (if (z =? 0)%Z then 0%float else tenths (spec_snr_tenths z)).
Proof.
  intros Hz. pose proof estimate_agrees_all as Hall.
  rewrite List.forallb_forall in Hall.
  specialize (Hall (Z.to_nat z)).
  assert (Hin : In (Z.to_nat z) (List.seq 0 counterBound)) by (apply in_seq; lia).
  specialize (Hall Hin). unfold estimate_agrees in Hall.
  rewrite Z2Nat.id in Hall by lia.
  destruct (estimate (Num.Z2float z) (Num.Z2float z)) as [a b].
  apply andb_true_iff in Hall as [Ha Hb].
  apply FloatAxioms.Leibniz.eqb_spec in Ha, Hb. now split.
Qed.

(** C7. For counters of up to three digits, the signal estimate is the
    four-bucket piecewise-linear function of [signalRaw] (boundaries at 80,
    60 and 20), and the SNR estimate is [snrRaw * 0.31], both rounded to one
    decimal place, with the SNR estimate 0 when [snrRaw] is 0. In
    particular [estimate(86, 19)] takes the bucket from 80 up and gives
    [ssDb = -47], between -50 and -40, and [estimate(0, 0)] gives
    [snrDb = 0]. *)
Theorem estimate_spec (signalRaw snrRaw : Z) :
  (0 <= signalRaw < Z.of_nat counterBound)%Z ->
  (0 <= snrRaw < Z.of_nat counterBound)%Z ->
  estimate (Num.Z2float signalRaw) (Num.Z2float snrRaw) =
    (tenths (spec_ss_tenths signalRaw),
     if (snrRaw =? 0)%Z then 0%float else tenths (spec_snr_tenths snrRaw)) /\
  ((80 <=? 86)%float = true /\
   fst (estimate 86 19) = (-47)%float /\
   (-50 <=? fst (estimate 86 19))%float = true /\
   (fst (estimate 86 19) <=? -40)%float = true /\
   snd (estimate 86 19) = 5.9%float) /\
  snd (estimate 0 0) = 0%float.
Proof.
  intros Hsig Hsnr. split; [|now vm_compute].
  destruct (estimate_agrees_at signalRaw Hsig) as [Hss _].
  destruct (estimate_agrees_at snrRaw Hsnr) as [_ Hsn].
  unfold estimate in *. cbn [fst snd] in *. now rewrite Hss, Hsn.
Qed.

(** The counters of the debug line [dbg=86-19/-1817]. *)
Lemma estimate_spec_witness :
  (0 <= 86 < Z.of_nat counterBound)%Z /\
  (0 <= 19 < Z.of_nat counterBound)%Z /\
  estimate (Num.Z2float 86) (Num.Z2float 19) = (tenths (-470), tenths 59).
Proof.
  assert (H1 : (0 <= 86 < Z.of_nat counterBound)%Z) by (vm_compute; split; [discriminate|reflexivity]).
  assert (H2 : (0 <= 19 < Z.of_nat counterBound)%Z) by (vm_compute; split; [discriminate|reflexivity]).
  split; [exact H1|]. split; [exact H2|].
  exact (proj1 (estimate_spec 86 19 H1 H2)).
Defined.

(** ** Status lines *)

Lemma append_cons a (s1 s2 : string) : String a s1 +:+ s2 = String a (s1 +:+ s2).
Proof. reflexivity. Qed.

Lemma append_nil (s : string) : EmptyString +:+ s = s.
Proof. reflexivity. Qed.

Lemma strip_prefix_Some p s r : JS.strip_prefix p s = Some r <-> s = p +:+ r.
Proof.
  revert s. induction p as [|a p IH]; intros s; cbn [JS.strip_prefix].
  - rewrite append_nil. split; [now intros [= ->]|now intros ->].
  - rewrite append_cons. destruct s as [|b s]; [easy|].
    destruct (Ascii.eqb_spec a b) as [->|Hne].
    + rewrite IH. split; [now intros ->|now intros [= ->]].
    + split; [easy|]. intros [= H _]. congruence.
Qed.

Lemma span_app cls s : s = fst (JS.span cls s) +:+ snd (JS.span cls s).
Proof.
  induction s as [|a s IH]; [reflexivity|]. cbn [JS.span].
  destruct (cls a); [|reflexivity].
  destruct (JS.span cls s) as [v r]. cbn [fst snd] in *. rewrite append_cons. now f_equal.
Qed.

Lemma span_eq cls s v r : JS.span cls s = (v, r) -> s = v +:+ r.
Proof. intros H. rewrite (span_app cls s), H. reflexivity. Qed.

Lemma span_fst cls v r : JS.span cls (v +:+ r) = (v, r) -> JS.span cls v = (v, EmptyString).
Proof.
  revert r. induction v as [|a v IH]; intros r.
  - reflexivity.
  - rewrite append_cons. cbn [JS.span]. destruct (cls a); [|discriminate].
    destruct (JS.span cls (v +:+ r)) as [v1 r1] eqn:E. intros H.
    injection H as Hv Hr. subst v1 r1. now rewrite (IH _ E).
Qed.

Lemma length_append s1 s2 : String.length (s1 +:+ s2) = String.length s1 + String.length s2.
Proof.
  induction s1 as [|a s1 IH]; [reflexivity|].
  rewrite append_cons. cbn [String.length]. now rewrite IH.
Qed.

Lemma take_append v r : JS.take (String.length v) (v +:+ r) = v.
Proof.
  induction v as [|a v IH]; [now destruct r|].
  rewrite append_cons. cbn [String.length JS.take]. now rewrite IH.
Qed.

(** A literal matches as a prefix. *)
Lemma exec_at_Lit l s c k :
  exec_at (Lit l) s c k =
  match JS.strip_prefix l s with Some s' => k s' c | None => None end.
Proof.
  revert s. induction l as [|a l IH]; intros s; [reflexivity|].
  assert (Hchr : forall b, JS.is_char a b = Ascii.eqb a b).
  { intros b. unfold JS.is_char.
    destruct (Ascii.eqb_spec b a), (Ascii.eqb_spec a b); congruence. }
  destruct l as [|a' l].
  - cbn [Lit exec_at JS.strip_prefix]. destruct s as [|b s]; [reflexivity|].
    rewrite Hchr. now destruct (Ascii.eqb a b).
  - change (Lit (String a (String a' l))) with (Cat (Chr (JS.is_char a)) (Lit (String a' l))).
    cbn [exec_at JS.strip_prefix]. destruct s as [|b s]; [reflexivity|].
    rewrite Hchr. destruct (Ascii.eqb a b); [apply IH|reflexivity].
Qed.

(** A greedy star over a class takes the whole run of the class, when the
    rest of the pattern matches after it. *)
Lemma star_iter_class cls k res s : forall fuel c,
  String.length s <= fuel ->
  k (snd (JS.span cls s)) c = Some res ->
  star_iter true (exec_at (Chr cls)) k fuel s c = Some res.
Proof.
  induction s as [|a s IH]; intros fuel c Hfuel Hk.
  - destruct fuel; exact Hk.
  - destruct fuel as [|fuel]; [cbn in Hfuel; lia|].
    cbn [star_iter exec_at]. cbn [JS.span] in Hk. destruct (cls a).
    + assert (Hlt : (String.length s <? String.length (String a s))%nat = true)
        by (apply Nat.ltb_lt; cbn; lia).
      rewrite Hlt. rewrite IH; [reflexivity|cbn in Hfuel; lia|].
      now destruct (JS.span cls s).
    + exact Hk.
Qed.

Lemma exec_at_Cat r1 r2 s c k :
  exec_at (Cat r1 r2) s c k = exec_at r1 s c (fun s1 c1 => exec_at r2 s1 c1 k).
Proof. reflexivity. Qed.

Lemma exec_at_Grp n r s c k :
  exec_at (Grp n r) s c k =
  exec_at r s c (fun s1 c1 => k s1 ((n, JS.take (String.length s - String.length s1) s) :: c1)).
Proof. reflexivity. Qed.

Lemma exec_at_Chr p s c k :
  exec_at (Chr p) s c k =
  match s with String a s' => if p a then k s' c else None | EmptyString => None end.
Proof. reflexivity. Qed.

Lemma exec_at_Star greedy r s c k :
  exec_at (Star greedy r) s c k = star_iter greedy (exec_at r) k (String.length s) s c.
Proof. reflexivity. Qed.

Lemma exec_at_key_pattern key cls line :
  exec_at (key_pattern key cls) line [] (fun _ c => Some c) =
  match value_here key cls line with Some v => Some [(1, v)] | None => None end.
Proof.
  unfold key_pattern, value_here, Plus. rewrite exec_at_Cat, exec_at_Lit.
  destruct (JS.strip_prefix (key +:+ "=") line) as [rest|]; [|reflexivity].
  rewrite exec_at_Grp, exec_at_Cat, exec_at_Chr.
  destruct rest as [|a rest]; [reflexivity|]. cbn [JS.span].
  destruct (cls a); [|reflexivity]. rewrite exec_at_Star.
  destruct (JS.span cls rest) as [v r] eqn:E.
  erewrite star_iter_class; [reflexivity|lia|]. rewrite E. cbn [snd].
  pose proof (span_eq _ _ _ _ E) as ->.
  replace (String.length (String a (v +:+ r)) - String.length r) with (String.length (String a v))
    by (cbn [String.length]; rewrite length_append; lia).
  now rewrite <- append_cons, (take_append (String a v) r).
Qed.

(** The status patterns find what [find_key] finds. *)
Lemma search_key_pattern key cls line :
  group 1 (search (key_pattern key cls) line) = find_key key cls line.
Proof.
  induction line as [|a line IH].
  - cbn [search find_key]. rewrite exec_at_key_pattern.
    now destruct (value_here key cls "").
  - cbn [search find_key]. rewrite exec_at_key_pattern.
    destruct (value_here key cls (String a line)); [reflexivity|exact IH].
Qed.

(** [value_here] reads the occurrence with the empty prefix. *)
Lemma value_here_occurs key cls line v :
  value_here key cls line = Some v <-> key_occurs key cls line EmptyString v.
Proof.
  unfold value_here, key_occurs. split.
  - destruct (JS.strip_prefix (key +:+ "=") line) as [rest|] eqn:Ep; [|discriminate].
    apply strip_prefix_Some in Ep.
    destruct (JS.span cls rest) as [[|a v'] r] eqn:Es; [discriminate|].
    intros [= <-]. exists a, v', r. split; [reflexivity|].
    pose proof (span_eq _ _ _ _ Es) as Hrest. subst rest.
    split; [now rewrite append_nil|exact Es].
  - intros (a & v' & rest & -> & Hline & Hspan). rewrite append_nil in Hline.
    assert (Hp : JS.strip_prefix (key +:+ "=") line = Some (String a v' +:+ rest))
      by now apply strip_prefix_Some.
    now rewrite Hp, Hspan.
Qed.

Lemma key_occurs_cons key cls a line b pre v :
  key_occurs key cls (String a line) (String b pre) v <->
  a = b /\ key_occurs key cls line pre v.
Proof.
  unfold key_occurs. split.
  - intros (c & v' & rest & -> & Hline & Hspan). rewrite append_cons in Hline.
    injection Hline as -> ->. split; [reflexivity|]. now exists c, v', rest.
  - intros (-> & c & v' & rest & -> & -> & Hspan).
    exists c, v', rest. now rewrite append_cons.
Qed.

Lemma key_occurs_empty key cls pre v : ~ key_occurs key cls EmptyString pre v.
Proof.
  intros (a & v' & rest & -> & Hline & _).
  destruct pre; [|discriminate]. rewrite append_nil in Hline.
  destruct key; discriminate.
Qed.

(** [find_key] computes the value of the leftmost occurrence. *)
Lemma find_key_Some key cls line v :
  find_key key cls line = Some v <-> first_value key cls line v.
Proof.
  revert v. induction line as [|a line IH]; intros v.
  - cbn [find_key].
    assert (Hhere : value_here key cls "" = None).
    { destruct (value_here key cls "") eqn:E; [|reflexivity].
      apply value_here_occurs in E. now apply key_occurs_empty in E. }
    rewrite Hhere. split; [discriminate|].
    intros (pre & Hocc & _). now apply key_occurs_empty in Hocc.
  - cbn [find_key]. destruct (value_here key cls (String a line)) as [v0|] eqn:E.
    + apply value_here_occurs in E. split.
      * intros [= <-]. exists EmptyString. split; [exact E|]. intros; cbn; lia.
      * intros (pre & Hocc & Hmin). specialize (Hmin _ _ E).
        destruct pre; [|cbn in Hmin; lia].
        apply value_here_occurs in E, Hocc. congruence.
    + assert (Hno : forall v', ~ key_occurs key cls (String a line) EmptyString v').
      { intros v' H. apply value_here_occurs in H. congruence. }
      rewrite IH. split.
      * intros (pre & Hocc & Hmin). exists (String a pre). split.
        -- now apply key_occurs_cons.
        -- intros pre' v' Hocc'. destruct pre' as [|b pre']; [now apply Hno in Hocc'|].
           apply key_occurs_cons in Hocc' as [_ Hocc']. specialize (Hmin _ _ Hocc').
           cbn. lia.
      * intros (pre & Hocc & Hmin). destruct pre as [|b pre]; [now apply Hno in Hocc|].
        apply key_occurs_cons in Hocc as [<- Hocc]. exists pre. split; [exact Hocc|].
        intros pre' v' Hocc'.
        assert (H' : key_occurs key cls (String a line) (String a pre') v')
          by now apply key_occurs_cons.
        specialize (Hmin _ _ H'). cbn in Hmin. lia.
Qed.

Lemma find_key_None key cls line :
  find_key key cls line = None <-> key_absent key cls line.
Proof.
  unfold key_absent. induction line as [|a line IH].
  - cbn [find_key]. split.
    + intros _ pre v. apply key_occurs_empty.
    + intros Habs. destruct (value_here key cls "") eqn:E; [|reflexivity].
      apply value_here_occurs in E. now apply Habs in E.
  - cbn [find_key]. destruct (value_here key cls (String a line)) as [v0|] eqn:E.
    + apply value_here_occurs in E. split; [discriminate|].
      intros Habs. now apply Habs in E.
    + rewrite IH. split.
      * intros Habs pre v Hocc. destruct pre as [|b pre].
        -- apply value_here_occurs in Hocc. congruence.
        -- apply key_occurs_cons in Hocc as [_ Hocc]. now apply Habs in Hocc.
      * intros Habs pre v Hocc. apply (Habs (String a pre) v). now apply key_occurs_cons.
Qed.

(** What a field read with a status pattern holds. *)
Lemma field_is_pattern {A} key cls (conv : string -> A) line :
  field_is key cls conv line (conv <$> group 1 (search (key_pattern key cls) line)).
Proof.
  rewrite search_key_pattern. split.
  - intros x. destruct (find_key key cls line) as [v|] eqn:E; cbn.
    + apply find_key_Some in E. split.
      * intros [= <-]. now exists v.
      * intros (v' & Hv' & ->). apply find_key_Some in E, Hv'. congruence.
    + split; [discriminate|]. intros (v' & Hv' & _).
      apply find_key_Some in Hv'. congruence.
  - rewrite <- find_key_None. now destruct (find_key key cls line).
Qed.

(** On a value a status pattern captured, [parseInt] reads all of it. *)
Lemma parseInt_digits key line v :
  first_value key JS.is_digit line v -> Num.parseInt v = number_of_digits v.
Proof.
  intros (pre & (a & v' & rest & -> & _ & Hspan) & _).
  unfold Num.parseInt, number_of_digits. now rewrite (span_fst _ _ _ Hspan).
Qed.

Lemma field_is_ext {A} key cls (conv conv' : string -> A) line field :
  (forall v, first_value key cls line v -> conv v = conv' v) ->
  field_is key cls conv line field -> field_is key cls conv' line field.
Proof.
  intros Hext [Hsome Hnone]. split; [|exact Hnone].
  intros x. rewrite Hsome. split; intros (v & Hv & ->); exists v; split; auto.
  symmetry. auto.
Qed.

Lemma key_present_iff key cls line :
  (exists pre v, key_occurs key cls line pre v) <-> find_key key cls line <> None.
Proof.
  rewrite find_key_None. unfold key_absent. split.
  - intros (pre & v & Hocc) Habs. now apply Habs in Hocc.
  - intros Hne. destruct (find_key key cls line) as [v|] eqn:E.
    + apply find_key_Some in E as (pre & Hocc & _). now exists pre, v.
    + apply find_key_None in E. now destruct Hne.
Qed.

(** C2. For every status text: when the trimmed line is [none], the parsed
    status is [{channel: 'none', lock: false}] and nothing else: every other
    field is unset. Otherwise a key counts as present where [key=] is
    followed by at least one character of the class of its value (a digit
    for the counters, a non-blank character for [ch] and [lock]), wherever
    in the line that is, also inside a longer word. Each of the fields
    [channel] (key [ch]), [ss], [snq], [seq], [bps] and [pps] is set exactly
    when its key is present in this sense, to the value at the leftmost such
    place: the raw run of non-blank characters for the channel, the Number
    of the run of digits for the counters; a field whose key is not present
    is left unset, not set to zero; [lock] is [true] exactly when the key
    [lock] is present in this sense and [false] otherwise; and no estimate
    field is set. This parsed status is what [getTunerStatus] resolves to
    for any text that is not empty, when there is no debug output. *)
Theorem parseStatusLine_fields (text : string) :
  let line := JS.trim text in
  let status := parseStatusLine text in
  (line = "none" ->
   status = TunerStatus.mk (Some "none") false None None None None None None None None) /\
  (line <> "none" ->
   field_is "ch" not_space (fun v => v) line (TunerStatus.channel status) /\
   (TunerStatus.lock status = true <-> exists pre v, key_occurs "lock" not_space line pre v) /\
   (TunerStatus.lock status = false <-> key_absent "lock" not_space line) /\
   field_is "ss" JS.is_digit number_of_digits line (TunerStatus.ss status) /\
   field_is "snq" JS.is_digit number_of_digits line (TunerStatus.snq status) /\
   field_is "seq" JS.is_digit number_of_digits line (TunerStatus.seq status) /\
   field_is "bps" JS.is_digit number_of_digits line (TunerStatus.bps status) /\
   field_is "pps" JS.is_digit number_of_digits line (TunerStatus.pps status) /\
   TunerStatus.ssDb status = None /\
   TunerStatus.snrDb status = None /\
   TunerStatus.debugRaw status = None) /\
  (JS.truthy text = true -> tunerStatusOf (Some text) None = Some status).
Proof.
  cbn zeta. split; [|split].
  - intros Hnone. unfold parseStatusLine. now rewrite Hnone.
  - intros Hline. unfold parseStatusLine.
    destruct (String.eqb_spec (JS.trim text) "none") as [Heq|_]; [contradiction|].
    cbn [TunerStatus.channel TunerStatus.lock TunerStatus.ss TunerStatus.snq TunerStatus.seq
         TunerStatus.bps TunerStatus.pps TunerStatus.ssDb TunerStatus.snrDb
         TunerStatus.debugRaw].
    assert (Hnum : forall key,
              field_is key JS.is_digit number_of_digits (JS.trim text)
                (Num.parseInt <$> group 1 (search (key_pattern key JS.is_digit) (JS.trim text)))).
    { intros key. eapply field_is_ext; [|apply field_is_pattern].
      intros v Hv. now apply (parseInt_digits key (JS.trim text)). }
    split.
    { pose proof (field_is_pattern "ch" not_space (fun v => v) (JS.trim text)) as H.
      unfold patterns_channel.
      now destruct (group 1 (search (key_pattern "ch" not_space) (JS.trim text))). }
    unfold patterns_lock. rewrite search_key_pattern. split; [|split].
    { rewrite key_present_iff.
      destruct (find_key "lock" not_space (JS.trim text)); split; congruence. }
    { rewrite <- find_key_None.
      destruct (find_key "lock" not_space (JS.trim text)); split; congruence. }
    repeat split; apply Hnum.
  - intros Htext. unfold tunerStatusOf. rewrite Htext.
    destruct (String.eqb (JS.trim text) "none") eqn:E; [|reflexivity].
    unfold parseStatusLine. now rewrite E.
Qed.

(** Keys inside longer words, and a key without a value. A line that has
    no [lock=] and no [ss=] token but the words [block=5] and [loss=3] is
    parsed with [lock] true and [ss] 3; and a line whose [lock=] token has
    no value is parsed with [lock] false. So the fields do not follow the
    tokens of the line. *)
Lemma parseStatusLine_keys_inside_words :
  JS.split " " "ch=8 block=5 loss=3" = ["ch=8"; "block=5"; "loss=3"] /\
  parseStatusLine "ch=8 block=5 loss=3" =
    TunerStatus.mk (Some "8") true (Some 3%float) None None None None None None None /\
  JS.split " " "ch=8 lock= ss=71" = ["ch=8"; "lock="; "ss=71"] /\
  parseStatusLine "ch=8 lock= ss=71" =
    TunerStatus.mk (Some "8") false (Some 71%float) None None None None None None None.
Proof.
  split; [vm_compute; reflexivity|]. split; [vm_compute; reflexivity|].
  split; vm_compute; reflexivity.
Qed.

(** The status line of the specification's example, and the line an idle
    tuner reports. *)
Example parseStatusLine_example :
  parseStatusLine "ch=8 lock=atsc8 ss=71" =
    TunerStatus.mk (Some "8") true (Some 71%float) None None None None None None None /\
  parseStatusLine "none" =
    TunerStatus.mk (Some "none") false None None None None None None None None.
Proof. split; reflexivity. Qed.

(** ** Sessions of several clients *)

Lemma startMonitoring_startSession socket deviceId tn st :
  startMonitoring socket deviceId tn st =
  startSession socket (SingleTask (socket_id socket) deviceId tn) st.
Proof. reflexivity. Qed.

Lemma startAntennaMode_startSession socket deviceId n st :
  startAntennaMode socket deviceId n st =
  startSession socket (AntennaTask (socket_id socket) deviceId n) st.
Proof. reflexivity. Qed.

Lemma stopMonitoring_other socket st sid :
  (forall sk, socket = Some sk -> socket_id sk <> sid) ->
  monitoringIntervals (stopMonitoring socket st) !! sid = monitoringIntervals st !! sid.
Proof.
  intros Hne. destruct socket as [sk|]; [|reflexivity]. unfold stopMonitoring.
  destruct (JS.truthy (socket_id sk)); [|reflexivity].
  destruct (monitoringIntervals st !! socket_id sk); [|reflexivity].
  cbn. apply lookup_delete_ne. now apply Hne.
Qed.

(** Two sockets never share a timer. *)
Lemma sessions_live_inj st sid1 sid2 handle :
  sessions_live st ->
  monitoringIntervals st !! sid1 = Some handle ->
  monitoringIntervals st !! sid2 = Some handle ->
  sid1 = sid2.
Proof.
  intros Hlive H1 H2.
  destruct (Hlive _ _ H1) as (t1 & Ht1 & <-).
  destruct (Hlive _ _ H2) as (t2 & Ht2 & <-). congruence.
Qed.

Lemma stopMonitoring_other_timer socket st sid handle :
  sessions_live st ->
  (forall sk, socket = Some sk -> socket_id sk <> sid) ->
  monitoringIntervals st !! sid = Some handle ->
  timers (stopMonitoring socket st) !! handle = timers st !! handle.
Proof.
  intros Hlive Hne Hh. destruct socket as [sk|]; [|reflexivity]. unfold stopMonitoring.
  destruct (JS.truthy (socket_id sk)); [|reflexivity].
  destruct (monitoringIntervals st !! socket_id sk) as [h|] eqn:E; [|reflexivity].
  cbn. apply lookup_delete_ne. intros ->.
  apply (Hne sk eq_refl). eapply sessions_live_inj; eauto.
Qed.

Lemma sessions_live_stop socket st :
  sessions_live st -> sessions_live (stopMonitoring socket st).
Proof.
  intros Hlive sid handle Hh.
  destruct socket as [sk|]; [|now apply Hlive].
  destruct (decide (socket_id sk = sid)) as [<-|Hne].
  - unfold stopMonitoring in *.
    destruct (JS.truthy (socket_id sk)); [|now apply Hlive].
    destruct (monitoringIntervals st !! socket_id sk) as [h|] eqn:E; [|now apply Hlive].
    cbn in Hh. now rewrite lookup_delete_eq in Hh.
  - rewrite stopMonitoring_other in Hh by (now intros ? [= <-]).
    rewrite (stopMonitoring_other_timer (Some sk) st sid handle Hlive); auto.
    now intros ? [= <-].
Qed.

Lemma startSession_intervals socket task st :
  monitoringIntervals (startSession socket task st) =
  <[socket_id socket := nextTimer st]> (monitoringIntervals (stopMonitoring (Some socket) st)).
Proof. rewrite <- (stopMonitoring_nextTimer (Some socket) st). reflexivity. Qed.

Lemma startSession_timers socket task st :
  timers (startSession socket task st) =
  <[nextTimer st := task]> (timers (stopMonitoring (Some socket) st)).
Proof. rewrite <- (stopMonitoring_nextTimer (Some socket) st). reflexivity. Qed.

Lemma startSession_record socket task st :
  monitoringIntervals (startSession socket task st) !! socket_id socket = Some (nextTimer st) /\
  timers (startSession socket task st) !! nextTimer st = Some task.
Proof.
  rewrite startSession_intervals, startSession_timers, !lookup_insert_eq. now split.
Qed.

Lemma startSession_other socket task st sid :
  socket_id socket <> sid ->
  monitoringIntervals (startSession socket task st) !! sid = monitoringIntervals st !! sid.
Proof.
  intros Hne. rewrite startSession_intervals, lookup_insert_ne by exact Hne.
  apply stopMonitoring_other. now intros ? [= <-].
Qed.

Lemma startSession_other_timer socket task st sid handle :
  sessions_wf st -> sessions_live st ->
  socket_id socket <> sid ->
  monitoringIntervals st !! sid = Some handle ->
  timers (startSession socket task st) !! handle = timers st !! handle.
Proof.
  intros [_ Hlt] Hlive Hne Hh.
  destruct (Hlive _ _ Hh) as (t & Ht & _). specialize (Hlt _ _ Ht).
  rewrite startSession_timers, lookup_insert_ne by lia.
  eapply stopMonitoring_other_timer; eauto. now intros ? [= <-].
Qed.

Lemma sessions_live_start socket task st :
  task_owner task = socket_id socket ->
  sessions_wf st -> sessions_live st ->
  sessions_live (startSession socket task st).
Proof.
  intros Hown Hwf Hlive sid handle Hh.
  destruct (decide (socket_id socket = sid)) as [<-|Hne].
  - destruct (startSession_record socket task st) as [Hr Ht].
    rewrite Hr in Hh. injection Hh as <-. now exists task.
  - rewrite startSession_other in Hh by exact Hne.
    rewrite (startSession_other_timer socket task st sid handle); auto.
Qed.

Lemma session_state_live st : session_state st -> sessions_live st.
Proof.
  induction 1 as [|socket deviceId tn st Hid Hst IH|socket deviceId n st Hid Hst IH|socket st _ IH].
  - intros sid handle H. cbn in H. now rewrite lookup_empty in H.
  - rewrite startMonitoring_startSession.
    apply sessions_live_start; auto using session_state_wf.
  - rewrite startAntennaMode_startSession.
    apply sessions_live_start; auto using session_state_wf.
  - now apply sessions_live_stop.
Qed.

(** X1. Sessions do not interfere. In every state of the session manager,
    whatever one socket does (stop or disconnect, start monitoring a tuner,
    start antenna mode) leaves the session of every other socket as it is:
    the same record and the same timer, still set and with the same task. *)
Theorem sessions_isolated (st : State) (a : Socket) (sid : string) :
  session_state st ->
  socket_id a <> sid ->
  same_session sid st (stopMonitoring (Some a) st) /\
  (forall deviceId tn, same_session sid st (startMonitoring a deviceId tn st)) /\
  (forall deviceId n, same_session sid st (startAntennaMode a deviceId n st)).
Proof.
  intros Hst Hne.
  pose proof (session_state_wf st Hst) as Hwf.
  pose proof (session_state_live st Hst) as Hlive.
  split; [|split].
  - split.
    + apply stopMonitoring_other. now intros ? [= <-].
    + intros handle Hh. eapply stopMonitoring_other_timer; eauto. now intros ? [= <-].
  - intros deviceId tn. rewrite startMonitoring_startSession. split.
    + now apply startSession_other.
    + intros handle Hh. now apply (startSession_other_timer a _ st sid handle).
  - intros deviceId n. rewrite startAntennaMode_startSession. split.
    + now apply startSession_other.
    + intros handle Hh. now apply (startSession_other_timer a _ st sid handle).
Qed.

Lemma sessions_isolated_witness :
  session_state (startMonitoring socket_b "1075D4B1" "1" constructor) /\
  socket_id socket_a <> socket_id socket_b /\
  same_session (socket_id socket_b)
    (startMonitoring socket_b "1075D4B1" "1" constructor)
    (stopMonitoring (Some socket_a) (startMonitoring socket_b "1075D4B1" "1" constructor)).
Proof.
  assert (Hst : session_state (startMonitoring socket_b "1075D4B1" "1" constructor))
    by (apply session_start; [reflexivity|apply session_init]).
  assert (Hne : socket_id socket_a <> socket_id socket_b) by discriminate.
  split; [exact Hst|]. split; [exact Hne|].
  exact (proj1 (sessions_isolated _ socket_a (socket_id socket_b) Hst Hne)).
Defined.

(** X2. Sessions and timers correspond one to one. In every state of the
    session manager: every recorded handle is a timer that is set and that
    runs for the socket it is recorded under; every timer that is set is
    recorded under the socket it runs for; and no two sockets share a
    timer. *)
Theorem sessions_one_to_one (st : State) :
  session_state st ->
  (forall sid handle, monitoringIntervals st !! sid = Some handle ->
     exists task, timers st !! handle = Some task /\ task_owner task = sid) /\
  (forall handle task, timers st !! handle = Some task ->
     monitoringIntervals st !! task_owner task = Some handle) /\
  (forall sid1 sid2 handle,
     monitoringIntervals st !! sid1 = Some handle ->
     monitoringIntervals st !! sid2 = Some handle -> sid1 = sid2).
Proof.
  intros Hst.
  pose proof (session_state_wf st Hst) as [Hrec _].
  pose proof (session_state_live st Hst) as Hlive.
  split; [exact Hlive|]. split; [exact Hrec|].
  intros sid1 sid2 handle. now apply sessions_live_inj.
Qed.

Lemma sessions_one_to_one_witness :
  monitoringIntervals (startAntennaMode socket_a "1075D4B1" 4
                         (startMonitoring socket_a "1075D4B1" "0" constructor))
    !! socket_id socket_a = Some 1 /\
  forall handle task,
    timers (startAntennaMode socket_a "1075D4B1" 4
              (startMonitoring socket_a "1075D4B1" "0" constructor)) !! handle = Some task ->
    monitoringIntervals (startAntennaMode socket_a "1075D4B1" 4
                           (startMonitoring socket_a "1075D4B1" "0" constructor))
      !! task_owner task = Some handle.
Proof.
  split; [vm_compute; reflexivity|].
  apply (sessions_one_to_one
           (startAntennaMode socket_a "1075D4B1" 4
              (startMonitoring socket_a "1075D4B1" "0" constructor))).
  apply session_antenna; [reflexivity|].
  apply session_start; [reflexivity|]. apply session_init.
Defined.

Lemma startSession_fresh socket task st :
  session_state st ->
  JS.truthy (socket_id socket) = true ->
  task_owner task = socket_id socket ->
  fresh_session socket task st (startSession socket task st).
Proof.
  intros Hst Hid Hown.
  pose proof (session_state_wf st Hst) as Hwf.
  destruct (startSession_record socket task st) as [Hr Ht].
  exists (nextTimer st). split; [exact Hr|]. split; [|split; [exact Ht|]].
  - destruct Hwf as [_ Hlt].
    destruct (timers st !! nextTimer st) as [t|] eqn:E; [|reflexivity].
    specialize (Hlt _ _ E). lia.
  - intros handle' task' Ht' Hown'.
    pose proof (sessions_wf_start socket task st Hid Hown Hwf) as [Hrec _].
    specialize (Hrec _ _ Ht'). rewrite Hown' in Hrec.
    change (monitoringIntervals (startSession socket task st) !! socket_id socket = Some handle')
      in Hrec.
    rewrite Hr in Hrec. congruence.
Qed.

(** X3. A start replaces the session of the socket. For a socket with
    an id, in every state of the session manager, after [startMonitoring]
    or [startAntennaMode] the socket is recorded with a timer that was not
    set before and that runs the task asked for, and that timer is the only
    one that runs for the socket: an earlier session of the same socket is
    cancelled, not left running beside the new one. *)
Theorem start_replaces_session (st : State) (socket : Socket) :
  session_state st ->
  JS.truthy (socket_id socket) = true ->
  (forall deviceId tn,
     fresh_session socket (SingleTask (socket_id socket) deviceId tn) st
                   (startMonitoring socket deviceId tn st)) /\
  (forall deviceId n,
     fresh_session socket (AntennaTask (socket_id socket) deviceId n) st
                   (startAntennaMode socket deviceId n st)).
Proof.
  intros Hst Hid. split.
  - intros deviceId tn. rewrite startMonitoring_startSession.
    now apply startSession_fresh.
  - intros deviceId n. rewrite startAntennaMode_startSession.
    now apply startSession_fresh.
Qed.

Lemma start_replaces_session_witness :
  fresh_session socket_a (AntennaTask (socket_id socket_a) "1075D4B1" 4)
    (startMonitoring socket_a "1075D4B1" "0" constructor)
    (startAntennaMode socket_a "1075D4B1" 4
       (startMonitoring socket_a "1075D4B1" "0" constructor)).
Proof.
  apply (start_replaces_session (startMonitoring socket_a "1075D4B1" "0" constructor) socket_a).
  - apply session_start; [reflexivity|apply session_init].
  - reflexivity.
Defined.

(** ** The server with one session for all clients *)

Lemma legacy_wf_stop st :
  legacy_wf st -> Legacy.timers (Legacy.stopMonitoring st) = ∅ /\
                  Legacy.monitoringInterval (Legacy.stopMonitoring st) = None /\
                  Legacy.nextTimer (Legacy.stopMonitoring st) = Legacy.nextTimer st.
Proof.
  unfold legacy_wf, Legacy.stopMonitoring.
  destruct (Legacy.monitoringInterval st) as [h|] eqn:E.
  - intros (_ & task & ->). cbn. now rewrite delete_singleton_eq.
  - intros ->. now rewrite E.
Qed.

Lemma legacy_state_wf st : legacy_state st -> legacy_wf st.
Proof.
  induction 1 as [|task st _ IH|st _ IH].
  - reflexivity.
  - destruct (legacy_wf_stop st IH) as (Ht & _ & Hn).
    unfold legacy_wf, Legacy.start. cbn [Legacy.monitoringInterval Legacy.nextTimer Legacy.timers].
    split; [lia|]. exists task. rewrite Ht. apply insert_empty.
  - destruct (legacy_wf_stop st IH) as (Ht & Hm & _).
    unfold legacy_wf. now rewrite Hm.
Qed.

(** X4. The server of [backend/server.js] has one monitoring session
    for all clients. In each of its states at most one timer is set. A start
    by any client leaves the timer of that start as the only one, so the
    session of whichever client was monitoring before is cancelled; a stop
    (which that server also runs when any client disconnects) leaves no
    timer at all; and a second stop changes nothing. *)
Theorem legacy_single_session (st : Legacy.State) :
  legacy_state st ->
  (forall h1 t1 h2 t2, Legacy.timers st !! h1 = Some t1 ->
                       Legacy.timers st !! h2 = Some t2 -> h1 = h2) /\
  (forall socket deviceId tn,
     Legacy.timers (Legacy.startMonitoring socket deviceId tn st) =
     {[Legacy.nextTimer st := SingleTask (socket_id socket) deviceId tn]}) /\
  (forall socket deviceId n,
     Legacy.timers (Legacy.startAntennaMode socket deviceId n st) =
     {[Legacy.nextTimer st := AntennaTask (socket_id socket) deviceId n]}) /\
  Legacy.timers (Legacy.stopMonitoring st) = ∅ /\
  Legacy.stopMonitoring (Legacy.stopMonitoring st) = Legacy.stopMonitoring st.
Proof.
  intros Hst. pose proof (legacy_state_wf st Hst) as Hwf.
  destruct (legacy_wf_stop st Hwf) as (Ht & Hm & Hn).
  assert (Hstart : forall task,
             Legacy.timers (Legacy.start task st) = {[Legacy.nextTimer st := task]}).
  { intros task. unfold Legacy.start. cbn [Legacy.timers].
    rewrite Ht, Hn. apply insert_empty. }
  split; [|split; [|split; [|split]]].
  - intros h1 t1 h2 t2 H1 H2. unfold legacy_wf in Hwf.
    destruct (Legacy.monitoringInterval st) as [h|].
    + destruct Hwf as (_ & task & E). rewrite E in H1, H2.
      apply lookup_singleton_Some in H1 as [<- _].
      apply lookup_singleton_Some in H2 as [<- _]. reflexivity.
    + rewrite Hwf, lookup_empty in H1. discriminate.
  - intros socket deviceId tn. apply Hstart.
  - intros socket deviceId n. apply Hstart.
  - exact Ht.
  - unfold Legacy.stopMonitoring at 1. now rewrite Hm.
Qed.

Lemma legacy_single_session_witness :
  Legacy.timers
    (Legacy.startMonitoring socket_b "1075D4B1" "1"
       (Legacy.startAntennaMode socket_a "1075D4B1" 4 Legacy.constructor)) =
  {[1 := SingleTask (socket_id socket_b) "1075D4B1" "1"]}.
Proof.
  apply (legacy_single_session
           (Legacy.startAntennaMode socket_a "1075D4B1" 4 Legacy.constructor)).
  apply legacy_start, legacy_init.
Defined.

(** ** Discovery by broadcast *)

Lemma discoveredDevices_snoc lines line :
  discoveredDevices (lines ++ [line]) =
  match found_pair line with
  | Some p =>
      if decide (fst p ∈ map fst (discoveredDevices lines)) then discoveredDevices lines
      else discoveredDevices lines ++ [p]
  | None => discoveredDevices lines
  end.
Proof.
  unfold discoveredDevices.
  set (step := fun (acc : list (string * string) * gset string) (l : string) => _).
  assert (Hset : forall ls i,
             i ∈ snd (fold_left step ls ([], ∅)) <->
             i ∈ map fst (fst (fold_left step ls ([], ∅)))).
  { induction ls as [|l ls IH] using rev_ind; intros i.
    - cbn. rewrite elem_of_nil. set_solver.
    - rewrite fold_left_app. cbn [fold_left].
      destruct (fold_left step ls ([], ∅)) as [found deviceSet] eqn:E.
      cbn [fst snd] in IH. unfold step. cbv beta iota.
      destruct (search pattern_found l) as [m|]; [|apply IH].
      destruct (decide (default "" (capture 1 m) ∈ deviceSet)); [apply IH|].
      cbn [fst snd]. rewrite map_app, elem_of_app, elem_of_union, IH.
      cbn [map fst]. rewrite elem_of_singleton, list_elem_of_singleton. tauto. }
  rewrite fold_left_app. cbn [fold_left].
  specialize (Hset lines).
  destruct (fold_left step lines ([], ∅)) as [found deviceSet] eqn:E.
  cbn [fst snd] in Hset. unfold step, found_pair. cbv beta iota.
  destruct (search pattern_found line) as [m|]; [|reflexivity].
  cbn [fst snd].
  destruct (decide (default "" (capture 1 m) ∈ deviceSet)) as [Hin|Hout];
    destruct (decide (default "" (capture 1 m) ∈ map fst found)) as [Hin'|Hout'];
    try reflexivity.
  - exfalso. apply Hout'. now apply Hset.
  - exfalso. apply Hout. now apply Hset.
Qed.

Lemma find_snoc {A} (p : A -> bool) l x :
  List.find p (l ++ [x]) =
  match List.find p l with Some y => Some y | None => if p x then Some x else None end.
Proof. induction l as [|y l IH]; cbn; [reflexivity|]. now destruct (p y). Qed.

(** The pairs read off the discover output: one for each id that some line
    reports, taken from the first line that reports it. *)
Lemma discoveredDevices_spec lines :
  NoDup (map fst (discoveredDevices lines)) /\
  (forall i, i ∈ map fst (discoveredDevices lines) <->
             exists line, line ∈ lines /\ reports i line = true) /\
  (forall p, p ∈ discoveredDevices lines ->
             exists line, List.find (reports (fst p)) lines = Some line /\
                          found_pair line = Some p).
Proof.
  induction lines as [|line lines (Hnd & Hin & Hfirst)] using rev_ind.
  - split; [constructor|]. split.
    + intros i. cbn. rewrite elem_of_nil. split; [easy|].
      intros (l & Hl & _). now apply elem_of_nil in Hl.
    + intros p Hp. now apply elem_of_nil in Hp.
  - rewrite discoveredDevices_snoc.
    assert (Hmem : forall i,
               (exists l, l ∈ lines ++ [line] /\ reports i l = true) <->
               (exists l, l ∈ lines /\ reports i l = true) \/ reports i line = true).
    { intros i. split.
      - intros (l & Hl & Hr). apply elem_of_app in Hl as [Hl|Hl]; [left; eauto|].
        apply list_elem_of_singleton in Hl as ->. now right.
      - intros [(l & Hl & Hr)|Hr]; [exists l|exists line]; split; auto;
          apply elem_of_app; [now left|right; apply list_elem_of_singleton; reflexivity]. }
    assert (Hkeep : forall p, p ∈ discoveredDevices lines ->
               exists l, List.find (reports (fst p)) (lines ++ [line]) = Some l /\
                         found_pair l = Some p).
    { intros p Hp. destruct (Hfirst p Hp) as (l & Hf & Hl).
      exists l. rewrite find_snoc, Hf. now split. }
    destruct (found_pair line) as [p|] eqn:Ep.
    + assert (Hrep : forall i, reports i line = true <-> fst p = i).
      { intros i. unfold reports. rewrite Ep. apply String.eqb_eq. }
      destruct (decide (fst p ∈ map fst (discoveredDevices lines))) as [Hold|Hnew].
      * split; [exact Hnd|]. split; [|exact Hkeep].
        intros i. rewrite Hmem, Hin, Hrep. split; [tauto|].
        intros [H|<-]; [exact H|]. now apply Hin.
      * split; [|split].
        -- rewrite map_app. apply NoDup_app. split; [exact Hnd|]. split.
           ++ intros i Hi Hi'. cbn in Hi'. apply list_elem_of_singleton in Hi' as ->.
              now apply Hnew.
           ++ cbn. apply NoDup_singleton.
        -- intros i. rewrite map_app, elem_of_app, Hmem, Hin, Hrep. cbn.
           rewrite list_elem_of_singleton. split; (intros [H|H]; [now left|now right]).
        -- intros q Hq. apply elem_of_app in Hq as [Hq|Hq]; [now apply Hkeep|].
           apply list_elem_of_singleton in Hq as ->.
           exists line. split; [|exact Ep]. rewrite find_snoc.
           destruct (List.find (reports (fst p)) lines) as [l|] eqn:Ef.
           ++ exfalso. apply Hnew, Hin. exists l.
              apply find_some in Ef as [Hl Hr]. split; [|exact Hr].
              now apply list_elem_of_In.
           ++ now rewrite (proj2 (Hrep (fst p)) eq_refl).
    + split; [exact Hnd|]. split; [|exact Hkeep].
      intros i. rewrite Hmem, Hin. unfold reports at 3. rewrite Ep. split; [tauto|].
      intros [H|H]; [exact H|discriminate].
Qed.

Lemma udpDiscoverDevices_run w st :
  udpDiscoverDevices w st =
  let r := w_exec w (length (trace st)) "hdhomerun_config discover" in
  let st1 := set_trace (trace st ++ [EvExec "hdhomerun_config discover"]) st in
  if error r then ([], st1)
  else mapM (fun '(deviceId, deviceIp) =>
               let* model := getDeviceModel deviceIp in
               ret (Device.mk deviceId deviceIp (tunerName deviceId model) true))
            (discoveredDevices (nonblank_lines (stdout r))) w st1.
Proof.
  unfold udpDiscoverDevices. rewrite run_bind, run_exec. cbn [fst snd].
  now destruct (error (w_exec w (length (trace st)) "hdhomerun_config discover")).
Qed.

Lemma Forall2_map_eq {A B C} (f : A -> C) (g : B -> C) xs ys :
  Forall2 (fun x y => g y = f x) xs ys -> map g ys = map f xs.
Proof. induction 1; cbn; congruence. Qed.

(** X5. Discovery by broadcast lists every device once. When the
    discover command fails the list is empty and nothing else is run.
    Otherwise the ids of the list are pairwise distinct, they are the ids
    that some line of the output reports, each device carries the address
    of the first line that reports its id, and every device is marked
    online. *)
Theorem udpDiscoverDevices_distinct (w : World) (st : State) :
  let r := w_exec w (length (trace st)) "hdhomerun_config discover" in
  let lines := nonblank_lines (stdout r) in
  let devs := fst (udpDiscoverDevices w st) in
  (error r = true ->
   udpDiscoverDevices w st =
   ([], set_trace (trace st ++ [EvExec "hdhomerun_config discover"]) st)) /\
  NoDup (map Device.id devs) /\
  Forall (fun d => Device.online d = true) devs /\
  (error r = false ->
   (forall i, i ∈ map Device.id devs <->
              exists line, line ∈ lines /\ reports i line = true) /\
   (forall d, d ∈ devs ->
              exists line, List.find (reports (Device.id d)) lines = Some line /\
                           found_pair line = Some (Device.id d, Device.ip d))).
Proof.
  intros r lines devs. subst devs. rewrite udpDiscoverDevices_run. cbv zeta.
  fold r. destruct (error r) eqn:Er.
  - split; [reflexivity|]. split; [constructor|]. split; [constructor|]. discriminate.
  - fold lines.
    set (f := fun '(deviceId, deviceIp) => _).
    set (st1 := set_trace _ st).
    assert (HF : Forall2 (fun (p : string * string) d =>
                            Device.id d = fst p /\ Device.ip d = snd p /\
                            Device.online d = true)
                         (discoveredDevices lines)
                         (fst (mapM f (discoveredDevices lines) w st1))).
    { apply mapM_Forall2. intros [i ip] w' st'. subst f. cbv beta iota.
      rewrite run_bind, run_ret. cbn. auto. }
    destruct (discoveredDevices_spec lines) as (Hnd & Hin & Hfirst).
    assert (Hids : map Device.id (fst (mapM f (discoveredDevices lines) w st1)) =
                   map fst (discoveredDevices lines)).
    { apply Forall2_map_eq. eapply Forall2_impl; [exact HF|]. now intros p d (H & _). }
    split; [discriminate|]. split; [now rewrite Hids|]. split.
    + apply list.Forall_forall. intros d Hd.
      apply list_elem_of_lookup in Hd as [k Hk].
      destruct (Forall2_lookup_r _ _ _ _ _ HF Hk) as (p & _ & _ & _ & Ho). exact Ho.
    + intros _. split.
      * intros i. rewrite Hids. apply Hin.
      * intros d Hd. apply list_elem_of_lookup in Hd as [k Hk].
        destruct (Forall2_lookup_r _ _ _ _ _ HF Hk) as (p & Hp & Hi & Hip & _).
        apply list_elem_of_lookup_2 in Hp.
        destruct (Hfirst p Hp) as (line & Hf & Hl).
        exists line. rewrite Hi, Hip. split; [exact Hf|]. now destruct p.
Qed.

(** X6. Devices found by broadcast are final. When the broadcast
    finds at least one device, [autoDiscoverDevices] returns that list and
    does nothing more: the discovery endpoint is not called and the cache
    of the cloud fallback is left as it is, also on a forced refresh. *)
Theorem autoDiscoverDevices_udp_first (forceRefresh : bool) (w : World) (st : State) :
  fst (udpDiscoverDevices w st) <> [] ->
  let st' := snd (autoDiscoverDevices forceRefresh w st) in
  autoDiscoverDevices forceRefresh w st = udpDiscoverDevices w st /\
  httpCalls (trace st') = httpCalls (trace st) /\
  httpDiscoveryCache st' = httpDiscoveryCache st.
Proof.
  intros Hne st'.
  assert (E : autoDiscoverDevices forceRefresh w st = udpDiscoverDevices w st).
  { unfold autoDiscoverDevices. rewrite run_bind.
    destruct (fst (udpDiscoverDevices w st)) as [|d l] eqn:Ed; [congruence|].
    cbn [length Nat.ltb Nat.leb]. rewrite run_ret, <- Ed. now destruct (udpDiscoverDevices w st). }
  split; [exact E|]. subst st'. rewrite E.
  destruct (execs_only_udpDiscoverDevices w st) as (evs & Hafter & Hcalls).
  split.
  - rewrite (after_httpCalls _ _ _ Hafter), Hcalls. lia.
  - exact (after_httpDiscoveryCache _ _ _ Hafter).
Qed.

Lemma autoDiscoverDevices_udp_first_witness :
  fst (autoDiscoverDevices true world_lan state_after_first_discovery) =
    [Device.mk "1075D4B1" "192.168.1.50" "HDHomeRun 1075D4B1 (HDHR5-4US)" true] /\
  httpDiscoveryCache (snd (autoDiscoverDevices true world_lan state_after_first_discovery)) =
    Some [cloud_tuner].
Proof.
  assert (Hne : fst (udpDiscoverDevices world_lan state_after_first_discovery) <> [])
    by (vm_compute; discriminate).
  destruct (autoDiscoverDevices_udp_first true world_lan state_after_first_discovery Hne)
    as (E & _ & Hc).
  split.
  - rewrite E. vm_compute. reflexivity.
  - rewrite Hc. vm_compute. reflexivity.
Defined.

(** X7. The device list of the server of [backend/server.js].
    When the discover command fails the list is empty; otherwise its ids
    are pairwise distinct, each device carries the address of the first
    line that reports its id, and its name is the id after ["HDHomeRun "]:
    that server asks no device for its model, so the one command is all it
    runs. *)
Theorem legacy_discoverDevices_distinct (w : World) (st : State) :
  let r := w_exec w (length (trace st)) "hdhomerun_config discover" in
  let lines := nonblank_lines (stdout r) in
  let devs := fst (Legacy.discoverDevices w st) in
  snd (Legacy.discoverDevices w st) =
    set_trace (trace st ++ [EvExec "hdhomerun_config discover"]) st /\
  (error r = true -> devs = []) /\
  NoDup (map Legacy.id devs) /\
  (error r = false ->
   (forall i, i ∈ map Legacy.id devs <->
              exists line, line ∈ lines /\ reports i line = true) /\
   (forall d, d ∈ devs ->
              Legacy.name d = "HDHomeRun " +:+ Legacy.id d /\
              exists line, List.find (reports (Legacy.id d)) lines = Some line /\
                           found_pair line = Some (Legacy.id d, Legacy.ip d))).
Proof.
  intros r lines devs. subst devs. unfold Legacy.discoverDevices.
  rewrite run_bind, run_exec, run_ret. cbn [fst snd]. fold r.
  split; [reflexivity|].
  destruct (error r).
  - split; [reflexivity|]. split; [constructor|]. discriminate.
  - split; [discriminate|]. unfold Legacy.devicesOf. fold lines.
    destruct (discoveredDevices_spec lines) as (Hnd & Hin & Hfirst).
    assert (Hids : map Legacy.id
                     (map (fun '(deviceId, deviceIp) =>
                             Legacy.mkDevice deviceId deviceIp ("HDHomeRun " +:+ deviceId))
                          (discoveredDevices lines)) =
                   map fst (discoveredDevices lines)).
    { rewrite map_map. apply map_ext. now intros [i ip]. }
    split; [now rewrite Hids|]. intros _. split.
    + intros i. rewrite Hids. apply Hin.
    + intros d Hd. apply list_elem_of_fmap in Hd as ([i ip] & -> & Hp).
      split; [reflexivity|]. exact (Hfirst _ Hp).
Qed.

(** ** The host cache *)

Lemma getDeviceByHost_run host w st :
  getDeviceByHost host w st =
  match fst (cachedDevice host w st) with
  | Some d => (d, st)
  | None => queryDeviceByHost host w st
  end.
Proof.
  unfold getDeviceByHost. rewrite run_bind, cachedDevice_run. cbn [fst snd].
  destruct (deviceNameCache st !! host) as [cached|]; [|reflexivity].
  now destruct (w_now w (length (trace st)) - timestamp cached <? cacheTTL)%Z.
Qed.

(** X8. What [getDeviceByHost] answers it remembers. After any call,
    the host cache holds the device that was returned (the placeholder of
    an unreachable host too). A later call in a state that still has this
    entry returns the same device without running any command or changing
    anything, as long as the entry is younger than [cacheTTL]; from then on
    the call queries the host again. *)
Theorem getDeviceByHost_cache_round_trip (host : string) (w : World) (st : State) :
  let d := fst (getDeviceByHost host w st) in
  let st1 := snd (getDeviceByHost host w st) in
  exists entry,
    deviceNameCache st1 !! host = Some entry /\
    device entry = d /\
    forall w' st2,
      deviceNameCache st2 !! host = Some entry ->
      ((w_now w' (length (trace st2)) - timestamp entry < cacheTTL)%Z ->
       getDeviceByHost host w' st2 = (d, st2)) /\
      ((cacheTTL <= w_now w' (length (trace st2)) - timestamp entry)%Z ->
       getDeviceByHost host w' st2 = queryDeviceByHost host w' st2).
Proof.
  intros d st1.
  assert (Hlater : forall entry w' st2,
             deviceNameCache st2 !! host = Some entry ->
             ((w_now w' (length (trace st2)) - timestamp entry < cacheTTL)%Z ->
              getDeviceByHost host w' st2 = (device entry, st2)) /\
             ((cacheTTL <= w_now w' (length (trace st2)) - timestamp entry)%Z ->
              getDeviceByHost host w' st2 = queryDeviceByHost host w' st2)).
  { intros entry w' st2 He.
    rewrite getDeviceByHost_run, cachedDevice_run, He. cbn [fst snd]. split; intros Hage.
    - apply Z.ltb_lt in Hage. rewrite Hage. reflexivity.
    - apply Z.ltb_ge in Hage. rewrite Hage. reflexivity. }
  subst d st1. rewrite (getDeviceByHost_run host w st), cachedDevice_run. cbn [fst snd].
  destruct (deviceNameCache st !! host) as [cached|] eqn:Ec.
  - destruct (w_now w (length (trace st)) - timestamp cached <? cacheTTL)%Z.
    + cbn [fst snd]. exists cached. auto.
    + destruct (queryDeviceByHost_spec host w st) as (_ & _ & _ & _ & ts & Hc).
      exists (mkCacheEntry (fst (queryDeviceByHost host w st)) ts).
      rewrite Hc, lookup_insert_eq. split; [reflexivity|]. split; [reflexivity|].
      intros w' st2 He. exact (Hlater _ w' st2 He).
  - destruct (queryDeviceByHost_spec host w st) as (_ & _ & _ & _ & ts & Hc).
    exists (mkCacheEntry (fst (queryDeviceByHost host w st)) ts).
    rewrite Hc, lookup_insert_eq. split; [reflexivity|]. split; [reflexivity|].
    intros w' st2 He. exact (Hlater _ w' st2 He).
Qed.

Lemma getDevicesByHosts_cache hosts w st :
  let st' := snd (getDevicesByHosts hosts w st) in
  (forall host, host ∉ hosts -> deviceNameCache st' !! host = deviceNameCache st !! host) /\
  (forall host, host ∈ hosts -> is_Some (deviceNameCache st' !! host)).
Proof.
  destruct (getDevicesByHosts_spec hosts w st) as [(_ & _ & Hother & _) Hall].
  split; [exact Hother|].
  intros host Hin. apply list_elem_of_lookup in Hin as [k Hk].
  destruct (Forall2_lookup_l _ _ _ _ _ Hall Hk) as (d & _ & _ & Hsome). exact Hsome.
Qed.

Lemma autoDiscoverDevices_cache forceRefresh w st :
  deviceNameCache (snd (autoDiscoverDevices forceRefresh w st)) = deviceNameCache st.
Proof.
  unfold autoDiscoverDevices. rewrite run_bind.
  destruct (execs_only_udpDiscoverDevices w st) as (evs & H1 & _).
  set (st1 := snd (udpDiscoverDevices w st)) in *.
  assert (E1 : deviceNameCache st1 = deviceNameCache st) by now rewrite H1.
  destruct (0 <? length (fst (udpDiscoverDevices w st)))%nat; [now rewrite run_ret|].
  rewrite run_bind. unfold get at 1. cbn [fst snd].
  assert (Hhttp : deviceNameCache
            (snd ((let* httpDevices := httpDiscoverDevices in
                   modify (set_httpDiscoveryCache (Some httpDevices)) ;; ret httpDevices) w st1)) =
            deviceNameCache st).
  { rewrite !run_bind, run_ret. unfold modify. cbn [fst snd].
    destruct (httpDiscoverDevices_once w st1) as (evs2 & H2 & _).
    rewrite H2. exact E1. }
  destruct forceRefresh; [exact Hhttp|].
  destruct (httpDiscoveryCache st1); [now rewrite run_ret|exact Hhttp].
Qed.

(** X9. What a discovery does to the host cache. Afterwards every host
    configured by hand has an entry. The entry of any other host is dropped
    by a forced refresh and left as it was by a routine one; so after a
    forced refresh the cache holds the configured hosts and nothing else. *)
Theorem discoverDevices_host_cache (forceRefresh : bool) (w : World) (st : State) :
  let manualDevices := default "" (env_HDHOMERUN_DEVICES w) in
  let st' := snd (discoverDevices forceRefresh w st) in
  (forall host, host ∈ manualHostsOf manualDevices ->
                is_Some (deviceNameCache st' !! host)) /\
  (forall host, host ∉ manualHostsOf manualDevices ->
                deviceNameCache st' !! host =
                if forceRefresh then None else deviceNameCache st !! host).
Proof.
  intros manualDevices st'. subst st'. rewrite discoverDevices_run. cbn zeta. cbn [snd].
  change (deviceNameCache (set_devices ?d ?s)) with (deviceNameCache s).
  assert (H1 : deviceNameCache (snd (autoStage forceRefresh w st)) =
               if forceRefresh then ∅ else deviceNameCache st).
  { unfold autoStage. destruct (discoveryDisabled w).
    - cbn [snd]. now destruct forceRefresh.
    - rewrite autoDiscoverDevices_cache. now destruct forceRefresh. }
  assert (H0 : forall host,
             deviceNameCache (snd (autoStage forceRefresh w st)) !! host =
             if forceRefresh then None else deviceNameCache st !! host).
  { intros host. rewrite H1. destruct forceRefresh; [apply lookup_empty|reflexivity]. }
  unfold manualStage. fold manualDevices.
  destruct (JS.truthy manualDevices) eqn:Et.
  - destruct (getDevicesByHosts_cache (manualHostsOf manualDevices) w
                (snd (autoStage forceRefresh w st))) as (Hother & Hin).
    split; [exact Hin|]. intros host Hout. now rewrite Hother.
  - assert (Hnone : manualHostsOf manualDevices = []).
    { destruct manualDevices; [reflexivity|discriminate]. }
    rewrite Hnone. cbn [snd]. split.
    + intros host H. now apply elem_of_nil in H.
    + intros host _. apply H0.
Qed.

(** ** Discovery switched off *)

(** A query of a configured host is neither the broadcast nor a call of
    the discovery endpoint. *)
Lemma host_query_not_broadcast hosts e :
  host_query hosts e -> e <> EvExec "hdhomerun_config discover" /\ is_http e = false.
Proof.
  intros (host & _ & [-> | ->]); (split; [|reflexivity]); intros H;
    apply (f_equal (fun e => match e with EvExec c => String.length c | _ => 0 end)) in H;
    rewrite !length_append in H; cbn in H; lia.
Qed.

Lemma host_queries_only hosts evs :
  Forall (host_query hosts) evs ->
  (EvExec "hdhomerun_config discover" ∉ evs) /\ httpCalls evs = 0.
Proof.
  induction 1 as [|e evs He _ [IH1 IH2]].
  - split; [apply not_elem_of_nil|reflexivity].
  - destruct (host_query_not_broadcast hosts e He) as [Hne Hh]. split.
    + apply not_elem_of_cons. split; [congruence|exact IH1].
    + unfold httpCalls in *. cbn [List.filter]. now rewrite Hh.
Qed.

Lemma mergeDevices_distinct found : forall devs (deviceSet : gset string),
  (forall i, i ∈ deviceSet <-> i ∈ map Device.id devs) ->
  NoDup (map Device.id devs ++ map Device.id found) ->
  fst (mergeDevices found (devs, deviceSet)) = devs ++ found.
Proof.
  induction found as [|d found IH]; intros devs deviceSet Hset Hnd.
  - cbn. now rewrite app_nil_r.
  - rewrite mergeDevices_cons. cbn [map] in Hnd.
    apply NoDup_app in Hnd as (Hnd1 & Hdisj & Hnd2).
    apply NoDup_cons in Hnd2 as [Hd Hnd2].
    destruct (decide (Device.id d ∈ deviceSet)) as [Hin|Hout].
    + exfalso. apply (Hdisj (Device.id d)); [now apply Hset|]. apply list_elem_of_here.
    + rewrite IH.
      * now rewrite <- app_assoc.
      * intros i. rewrite map_app, elem_of_app, elem_of_union, elem_of_singleton, Hset.
        cbn. rewrite list_elem_of_singleton. tauto.
      * rewrite map_app. cbn [map]. rewrite <- app_assoc. cbn [app].
        apply NoDup_app. split; [exact Hnd1|]. split.
        -- intros i Hi Hi'. apply elem_of_cons in Hi' as [->|Hi'].
           ++ apply Hout. now apply Hset.
           ++ apply (Hdisj i Hi). now apply list_elem_of_further.
        -- now apply NoDup_cons.
Qed.

(** X10. With [HDHOMERUN_DISABLE_DISCOVERY] set to [true], a
    discovery neither broadcasts nor calls the discovery endpoint: every
    request it sends is the model query or the discover query of a host
    that is configured by hand, of one of the hosts of the setting and of
    no other. The ids of the list it returns are these hosts, each once;
    when the hosts are pairwise distinct, they are the hosts in the order
    of the setting. *)
Theorem discoverDevices_manual_only (forceRefresh : bool) (w : World) (st : State) :
  discoveryDisabled w = true ->
  cache_wf st ->
  let hosts := manualHostsOf (default "" (env_HDHOMERUN_DEVICES w)) in
  let devs := fst (discoverDevices forceRefresh w st) in
  let st' := snd (discoverDevices forceRefresh w st) in
  (exists evs,
      trace st' = trace st ++ evs /\
      Forall (host_query hosts) evs /\
      (EvExec "hdhomerun_config discover" ∉ evs) /\
      httpCalls evs = 0) /\
  NoDup (map Device.id devs) /\
  (forall i, i ∈ map Device.id devs <-> i ∈ hosts) /\
  (NoDup hosts -> map Device.id devs = hosts).
Proof.
  intros Hoff Hwf hosts devs st'. subst devs st'.
  rewrite discoverDevices_run. cbn zeta. cbn [fst snd].
  assert (Hauto : autoStage forceRefresh w st = ([], clearedState forceRefresh st)).
  { unfold autoStage. now rewrite Hoff. }
  assert (Hwf0 : cache_wf (clearedState forceRefresh st)).
  { unfold clearedState. destruct forceRefresh; [|exact Hwf].
    intros h entry H. cbn in H. now rewrite lookup_empty in H. }
  assert (Htr0 : trace (clearedState forceRefresh st) = trace st).
  { unfold clearedState. now destruct forceRefresh. }
  assert (Hman : map Device.id (fst (manualStage forceRefresh w st)) = hosts /\
                 exists evs, trace (snd (manualStage forceRefresh w st)) = trace st ++ evs /\
                             Forall (host_query hosts) evs).
  { unfold manualStage. rewrite Hauto. cbn [snd]. fold hosts.
    destruct (JS.truthy (default "" (env_HDHOMERUN_DEVICES w))) eqn:Et.
    - split; [now apply getDevicesByHosts_ids|].
      destruct (getDevicesByHosts_spec hosts w (clearedState forceRefresh st))
        as [((evs & Htr & HP) & _) _].
      exists evs. now rewrite Htr, Htr0.
    - split.
      + subst hosts. now destruct (default "" (env_HDHOMERUN_DEVICES w)).
      + exists []. cbn [snd]. now rewrite Htr0, app_nil_r. }
  destruct Hman as (Hids & evs & Htr & HP).
  rewrite Hauto. cbn [fst]. change (mergeDevices [] ([], ∅)) with (@nil Device.t, (∅ : gset string)).
  destruct (mergeDevices_fresh (fst (manualStage forceRefresh w st)))
    as (Hnd & Hsub & Hby & _). cbv zeta in Hnd, Hsub, Hby.
  split; [|split; [exact Hnd|split]].
  - exists evs. change (trace (set_devices ?d ?s)) with (trace s).
    split; [exact Htr|]. split; [exact HP|]. now apply (host_queries_only hosts).
  - intros i. rewrite <- Hids. split.
    + intros Hi. apply list_elem_of_fmap in Hi as (d & -> & Hd).
      apply list_elem_of_fmap. exists d. split; [reflexivity|].
      eapply elem_of_sublist; eauto.
    + intros Hi. destruct (deviceById_Some _ _ Hi) as (d & Hd & Hid & _).
      rewrite <- Hby in Hd. unfold deviceById in Hd.
      apply find_some in Hd as [Hd _]. apply list_elem_of_fmap.
      exists d. split; [now rewrite Hid|]. now apply list_elem_of_In.
  - intros Hnodup. rewrite mergeDevices_distinct.
    + exact Hids.
    + intros i. cbn. rewrite elem_of_nil. set_solver.
    + cbn [map app]. now rewrite Hids.
Qed.

Lemma discoverDevices_manual_only_witness :
  manualHostsOf (default "" (env_HDHOMERUN_DEVICES world_manual)) = ["10.0.0.5"] /\
  trace (snd (discoverDevices false world_manual constructor)) =
    [EvExec "hdhomerun_config 10.0.0.5 get /sys/hwmodel";
     EvExec "hdhomerun_config discover 10.0.0.5"] /\
  map Device.id (fst (discoverDevices false world_manual constructor)) = ["10.0.0.5"].
Proof.
  assert (Hwf : cache_wf constructor).
  { intros h entry H. cbn in H. now rewrite lookup_empty in H. }
  destruct (discoverDevices_manual_only false world_manual constructor eq_refl Hwf)
    as (_ & _ & _ & H).
  split; [vm_compute; reflexivity|]. split; [vm_compute; reflexivity|].
  apply H. vm_compute. apply NoDup_singleton.
Defined.

(** ** The setting of the hosts configured by hand *)

Lemma all_chars_append p s1 s2 :
  all_chars p (s1 +:+ s2) = all_chars p s1 && all_chars p s2.
Proof.
  induction s1 as [|a s1 IH]; [reflexivity|].
  rewrite append_cons. cbn [all_chars]. rewrite IH. now destruct (p a).
Qed.

Lemma split_pieces sep s :
  Forall (fun piece => all_chars (fun a => negb (Ascii.eqb a sep)) piece = true)
         (JS.split sep s).
Proof.
  induction s as [|a s IH]; cbn [JS.split].
  - now repeat constructor.
  - destruct (Ascii.eqb a sep) eqn:E.
    + constructor; [reflexivity|exact IH].
    + destruct (JS.split sep s) as [|l ls]; [repeat constructor; cbn; now rewrite E|].
      inversion IH as [|? ? Hl Hls]; subst. constructor; [|exact Hls].
      cbn [all_chars]. now rewrite E, Hl.
Qed.

Lemma split_append sep a b :
  all_chars (fun c => negb (Ascii.eqb c sep)) a = true ->
  JS.split sep (a +:+ String sep b) = a :: JS.split sep b.
Proof.
  induction a as [|c a IH]; intros Ha.
  - rewrite append_nil. cbn [JS.split]. now rewrite Ascii.eqb_refl.
  - rewrite append_cons. cbn [all_chars] in Ha. apply andb_true_iff in Ha as [Hc Ha].
    cbn [JS.split]. apply negb_true_iff in Hc. rewrite Hc, (IH Ha). reflexivity.
Qed.

Lemma split_single sep a :
  all_chars (fun c => negb (Ascii.eqb c sep)) a = true -> JS.split sep a = [a].
Proof.
  induction a as [|c a IH]; intros Ha; [reflexivity|].
  cbn [all_chars] in Ha. apply andb_true_iff in Ha as [Hc Ha].
  cbn [JS.split]. apply negb_true_iff in Hc. now rewrite Hc, (IH Ha).
Qed.

Lemma all_chars_trimStart p s : all_chars p s = true -> all_chars p (JS.trimStart s) = true.
Proof.
  induction s as [|a s IH]; [easy|]. cbn [JS.trimStart all_chars]. intros H.
  apply andb_true_iff in H as [Ha Hs].
  destruct (JS.is_space a); [now apply IH|]. cbn [all_chars]. now rewrite Ha, Hs.
Qed.

Lemma all_chars_trimEnd p s : all_chars p s = true -> all_chars p (JS.trimEnd s) = true.
Proof.
  induction s as [|a s IH]; [easy|]. cbn [JS.trimEnd all_chars]. intros H.
  apply andb_true_iff in H as [Ha Hs]. specialize (IH Hs).
  destruct (JS.trimEnd s) as [|b t].
  - destruct (JS.is_space a); [reflexivity|]. cbn [all_chars]. now rewrite Ha.
  - change (all_chars p (String a (String b t))) with (p a && all_chars p (String b t)).
    now rewrite Ha, IH.
Qed.

Lemma trimEnd_idem s : JS.trimEnd (JS.trimEnd s) = JS.trimEnd s.
Proof.
  induction s as [|a s IH]; [reflexivity|]. cbn [JS.trimEnd].
  destruct (JS.trimEnd s) as [|b t] eqn:E.
  - destruct (JS.is_space a) eqn:Ea; [reflexivity|]. cbn [JS.trimEnd]. now rewrite Ea.
  - change (JS.trimEnd (String a (String b t))) with
      (match JS.trimEnd (String b t) with
       | EmptyString => if JS.is_space a then EmptyString else String a EmptyString
       | t' => String a t'
       end).
    now rewrite IH.
Qed.

Lemma trimStart_head s :
  JS.trimStart s = "" \/
  exists a r, JS.trimStart s = String a r /\ JS.is_space a = false.
Proof.
  induction s as [|a s IH]; [now left|]. cbn [JS.trimStart].
  destruct (JS.is_space a) eqn:E; [exact IH|]. right. now exists a, s.
Qed.

Lemma trimEnd_head a r :
  JS.is_space a = false -> exists r', JS.trimEnd (String a r) = String a r'.
Proof.
  intros Ha. cbn [JS.trimEnd]. destruct (JS.trimEnd r) as [|b t].
  - rewrite Ha. now exists "".
  - now exists (String b t).
Qed.

Lemma trim_idem s : JS.trim (JS.trim s) = JS.trim s.
Proof.
  unfold JS.trim. destruct (trimStart_head s) as [->|(a & r & -> & Ha)]; [reflexivity|].
  destruct (trimEnd_head a r Ha) as (r' & E). rewrite E.
  cbn [JS.trimStart]. rewrite Ha, <- E. apply trimEnd_idem.
Qed.

Lemma trim_space_append s : JS.trim (" " +:+ s) = JS.trim s.
Proof. reflexivity. Qed.

Lemma split_concat pre h t :
  all_chars not_comma pre = true ->
  Forall clean_host (h :: t) ->
  JS.split "," (pre +:+ String.concat ", " (h :: t)) =
  (pre +:+ h) :: map (fun x => " " +:+ x) t.
Proof.
  revert pre h. induction t as [|h2 t IH]; intros pre h Hpre Hclean.
  - cbn [String.concat map]. apply split_single.
    change (all_chars not_comma (pre +:+ h) = true). rewrite all_chars_append, Hpre.
    inversion Hclean as [|? ? (_ & _ & Hh) _]; subst. exact Hh.
  - inversion Hclean as [|? ? (_ & _ & Hh) Hrest]; subst.
    change (String.concat ", " (h :: h2 :: t)) with
      (h +:+ ", " +:+ String.concat ", " (h2 :: t)).
    change (", " +:+ String.concat ", " (h2 :: t)) with
      (String "," (" " +:+ String.concat ", " (h2 :: t))).
    replace (pre +:+ h +:+ String "," (" " +:+ String.concat ", " (h2 :: t)))
      with ((pre +:+ h) +:+ String "," (" " +:+ String.concat ", " (h2 :: t))).
    + rewrite split_append, (IH " " h2 eq_refl Hrest); [reflexivity|].
      change (all_chars not_comma (pre +:+ h) = true).
      rewrite all_chars_append, Hpre. exact Hh.
    + clear. induction pre as [|a pre IHp]; [reflexivity|].
      rewrite !append_cons. now f_equal.
Qed.

(** X11. Reading [HDHOMERUN_DEVICES]. Every host read off the setting
    is not empty, has no white space at either end and holds no comma. And
    the setting is read back as it was written: hosts of that kind, joined
    by a comma and a space, are read as these hosts, in order. *)
Theorem manualHostsOf_round_trip (manualDevices : string) (hosts : list string) :
  Forall clean_host (manualHostsOf manualDevices) /\
  (Forall clean_host hosts -> manualHostsOf (String.concat ", " hosts) = hosts).
Proof.
  split.
  - unfold manualHostsOf. apply list.Forall_forall. intros h Hh.
    apply list_elem_of_In, filter_In in Hh as [Hh Ht].
    apply in_map_iff in Hh as (piece & <- & Hp).
    pose proof (split_pieces "," manualDevices) as Hall.
    rewrite list.Forall_forall in Hall.
    specialize (Hall piece (proj2 (list_elem_of_In _ _) Hp)).
    split; [|split].
    + intros E. now rewrite E in Ht.
    + apply trim_idem.
    + unfold JS.trim. now apply all_chars_trimEnd, all_chars_trimStart.
  - intros Hclean. destruct hosts as [|h t]; [reflexivity|].
    unfold manualHostsOf.
    rewrite <- (append_nil (String.concat ", " (h :: t))).
    rewrite (split_concat "" h t eq_refl Hclean), append_nil.
    cbn [map]. rewrite map_map.
    assert (Hmap : forall l, Forall clean_host l ->
               List.filter JS.truthy (map (fun x => JS.trim (" " +:+ x)) l) = l).
    { induction l as [|x l IHl]; intros Hl; [reflexivity|].
      inversion Hl as [|? ? (Hne & Htrim & _) Hl']; subst.
      cbn [map List.filter]. rewrite trim_space_append, Htrim.
      destruct x; [congruence|]. cbn [JS.truthy]. now rewrite (IHl Hl'). }
    inversion Hclean as [|? ? (Hne & Htrim & _) Hrest]; subst.
    cbn [List.filter]. rewrite Htrim. destruct h; [congruence|].
    cbn [JS.truthy]. now rewrite (Hmap t Hrest).
Qed.

(** ** Device information *)

Lemma mapM_run {A B} (f : A -> M B) (g : nat -> A -> B) (e : A -> Event) xs w : forall st,
  (forall x st0, f x w st0 = (g (length (trace st0)) x, set_trace (trace st0 ++ [e x]) st0)) ->
  mapM f xs w st =
  (imap (fun k x => g (length (trace st) + k) x) xs, set_trace (trace st ++ map e xs) st).
Proof.
  induction xs as [|x xs IH]; intros st Hf.
  - cbn. now rewrite app_nil_r, set_trace_id.
  - cbn [mapM]. rewrite !run_bind, Hf. cbn [fst snd]. rewrite (IH _ Hf), run_ret.
    cbn [fst snd imap map]. rewrite trace_set_trace, set_trace_set_trace, <- app_assoc.
    cbn [app]. f_equal. rewrite Nat.add_0_r. f_equal.
    apply imap_ext. intros k y _. cbn. rewrite length_app. cbn [length]. f_equal. lia.
Qed.

Lemma filter_map_length {A} (f : A -> bool) l :
  length (List.filter (fun b : bool => b) (map f l)) = length (List.filter f l).
Proof.
  induction l as [|x l IH]; [reflexivity|]. cbn [map List.filter].
  destruct (f x); cbn [length]; now rewrite IH.
Qed.

Lemma getTunerCount_run deviceId w st :
  getTunerCount deviceId w st =
  (let tunerCount := length (List.filter (tunerAnswers deviceId w (length (trace st)))
                                         (List.seq 0 8)) in
   if (0 <? tunerCount)%nat then tunerCount else 2,
   set_trace (trace st ++
              map (fun i => EvExec (tunerCommand deviceId (index_toString i) "status"))
                  (List.seq 0 8)) st).
Proof.
  unfold getTunerCount. rewrite run_bind.
  rewrite (mapM_run (checkTuner deviceId)
             (fun pos i => negb (error (w_exec w pos
                                          (tunerCommand deviceId (index_toString i) "status"))))
             (fun i => EvExec (tunerCommand deviceId (index_toString i) "status"))).
  - rewrite run_ret. cbn [fst snd].
    change (imap _ [0; 1; 2; 3; 4; 5; 6; 7]) with
      (map (tunerAnswers deviceId w (length (trace st))) (List.seq 0 8)).
    now rewrite filter_map_length.
  - intros i st0. unfold checkTuner. now rewrite run_bind, run_exec, run_ret.
Qed.

Lemma getTunerCount_range_aux deviceId w st :
  let answering :=
    length (List.filter (tunerAnswers deviceId w (length (trace st))) (List.seq 0 8)) in
  let n := fst (getTunerCount deviceId w st) in
  (0 < answering -> n = answering) /\
  (answering = 0 -> n = 2) /\
  answering <= 8 /\
  1 <= n <= 8.
Proof.
  intros answering n. subst n. rewrite getTunerCount_run. cbv zeta. cbn [fst snd].
  fold answering.
  assert (Hle : answering <= 8).
  { subst answering. etransitivity; [apply List.filter_length_le|]. reflexivity. }
  destruct (Nat.ltb_spec 0 answering); repeat split; lia.
Qed.

(** X12. Counting tuners. [getTunerCount] sends the status query
    of each of the tuners 0 to 7, in this order, and changes nothing else.
    Its result is the number of these queries that come back without error
    (an idle tuner counts), or 2 when none does; so it is always between 1
    and 8. *)
Theorem getTunerCount_range (deviceId : string) (w : World) (st : State) :
  let answering :=
    length (List.filter (tunerAnswers deviceId w (length (trace st))) (List.seq 0 8)) in
  let n := fst (getTunerCount deviceId w st) in
  after (map (fun i => EvExec (tunerCommand deviceId (index_toString i) "status"))
             (List.seq 0 8))
        st (snd (getTunerCount deviceId w st)) /\
  (0 < answering -> n = answering) /\
  (answering = 0 -> n = 2) /\
  1 <= n <= 8.
Proof.
  intros answering n.
  destruct (getTunerCount_range_aux deviceId w st) as (H1 & H2 & _ & H3).
  split; [|exact (conj H1 (conj H2 H3))].
  rewrite getTunerCount_run. reflexivity.
Qed.

(** X13. What [getDeviceInfo] reports. When the model query fails
    it answers with model ["Unknown"], 2 tuners and no ATSC 3.0 support,
    and probes no tuner. Otherwise the model is the trimmed output, ATSC 3.0
    support is reported whatever the model is, and the tuner count is the
    one [getTunerCount] finds by probing, never one derived from the model
    name. In both cases the count is between 1 and 8. *)
Theorem getDeviceInfo_report (deviceId : string) (w : World) (st : State) :
  let query := "hdhomerun_config " +:+ deviceId +:+ " get /sys/model" in
  let r := w_exec w (length (trace st)) query in
  let st1 := set_trace (trace st ++ [EvExec query]) st in
  let info := fst (getDeviceInfo deviceId w st) in
  (error r = true ->
   getDeviceInfo deviceId w st = (DeviceInfo.mk "Unknown" 2 false, st1)) /\
  (error r = false ->
   getDeviceInfo deviceId w st =
   (DeviceInfo.mk (JS.trim (stdout r)) (fst (getTunerCount deviceId w st1)) true,
    snd (getTunerCount deviceId w st1))) /\
  DeviceInfo.atsc3Support info = negb (error r) /\
  1 <= DeviceInfo.tuners info <= 8.
Proof.
  intros query r st1 info. subst info. unfold getDeviceInfo.
  rewrite run_bind, run_exec. cbn [fst snd]. fold query r st1.
  destruct (error r).
  - rewrite run_ret. cbn [fst snd DeviceInfo.atsc3Support DeviceInfo.tuners negb].
    split; [reflexivity|]. split; [discriminate|]. split; [reflexivity|lia].
  - rewrite run_bind, run_ret. cbn [fst snd DeviceInfo.atsc3Support DeviceInfo.tuners].
    split; [discriminate|]. split; [reflexivity|]. split; [reflexivity|].
    exact (proj2 (proj2 (proj2 (getTunerCount_range_aux deviceId w st1)))).
Qed.

Lemma getDeviceInfo_report_witness :
  fst (getDeviceInfo "1075D4B1" world_four_tuners constructor) =
  DeviceInfo.mk "HDHR5-4US" 4 true.
Proof.
  rewrite (proj1 (proj2 (getDeviceInfo_report "1075D4B1" world_four_tuners constructor))
             eq_refl).
  vm_compute. reflexivity.
Defined.

(** ** The program list *)

(** X14. The retries stop at the first list that has programs. When the
    first [k] program-list queries are answered with an error or without
    programs and the next one, still within the retries, with a list that
    has programs, [tryGetPrograms] returns that list after exactly [k + 1]
    queries; later answers are not asked for. *)
Theorem tryGetPrograms_first_success (deviceId tn : string) (w : World)
    (retriesLeft k : nat) (st : State) :
  let query := tunerCommand deviceId tn "streaminfo" in
  let r := w_exec w (length (trace st) + k) query in
  k <= retriesLeft ->
  (forall j, j < k -> noPrograms (w_exec w (length (trace st) + j) query)) ->
  error r = false ->
  parsePrograms (stdout r) <> [] ->
  tryGetPrograms deviceId tn retriesLeft w st =
  (parsePrograms (stdout r), set_trace (trace st ++ repeat (EvExec query) (S k)) st).
Proof.
  cbv zeta. revert k st. induction retriesLeft as [|n IH]; intros k st Hk Hbad Hok Hsome.
  - assert (k = 0) by lia. subst k. rewrite Nat.add_0_r in *.
    cbn [tryGetPrograms]. rewrite run_bind, run_exec. cbn [fst snd]. rewrite Hok.
    now destruct (parsePrograms _).
  - cbn [tryGetPrograms]. rewrite run_bind, run_exec. cbn [fst snd].
    destruct k as [|k].
    + rewrite Nat.add_0_r in *. rewrite Hok.
      destruct (parsePrograms _); [congruence|reflexivity].
    + set (st1 := set_trace _ st).
      assert (Hlen : forall j, length (trace st1) + j = length (trace st) + S j).
      { intros j. subst st1. rewrite trace_set_trace, length_app. cbn [length]. lia. }
      assert (Hnext : tryGetPrograms deviceId tn n w st1 =
                (parsePrograms
                   (stdout (w_exec w (length (trace st) + S k)
                              (tunerCommand deviceId tn "streaminfo"))),
                 set_trace (trace st ++
                            repeat (EvExec (tunerCommand deviceId tn "streaminfo")) (S (S k)))
                           st)).
      { rewrite (IH k st1); rewrite ?Hlen; auto; try lia.
        - subst st1. rewrite trace_set_trace, set_trace_set_trace, <- app_assoc. reflexivity.
        - intros j Hj. rewrite Hlen. apply Hbad. lia. }
      pose proof (Hbad 0 (Nat.lt_0_succ _)) as H0. rewrite Nat.add_0_r in H0.
      destruct H0 as [Herr|Hempty].
      * now rewrite Herr.
      * destruct (error (w_exec w (length (trace st)) _)); [exact Hnext|].
        now rewrite Hempty.
Qed.

Lemma tryGetPrograms_first_success_witness :
  fst (tryGetPrograms "1075D4B1" "0" 3 world_programs_late
         (snd (getTunerStatus "1075D4B1" "0" world_programs_late constructor))) =
    [ProgramEntry.mk "3" "8.1" "WJW-DT" "WJW-DT" "" false false] /\
  length (trace (snd (tryGetPrograms "1075D4B1" "0" 3 world_programs_late
                        (snd (getTunerStatus "1075D4B1" "0" world_programs_late constructor))))) = 4.
Proof.
  rewrite (tryGetPrograms_first_success "1075D4B1" "0" world_programs_late 3 1
             (snd (getTunerStatus "1075D4B1" "0" world_programs_late constructor))).
  - split; vm_compute; reflexivity.
  - lia.
  - intros j Hj. assert (j = 0) by lia. subst j. right. vm_compute. reflexivity.
  - vm_compute. reflexivity.
  - vm_compute. discriminate.
Defined.

(** ** The channel scan *)

(** A pattern that starts with a literal matches only in a line that
    includes the literal. *)
Lemma search_literal l r s :
  search (Cat (Lit l) r) s <> None -> JS.includes l s = true.
Proof.
  induction s as [|a s IH]; cbn [search JS.includes];
    rewrite exec_at_Cat, exec_at_Lit;
    destruct (JS.strip_prefix l _); try reflexivity; [easy|exact IH].
Qed.

Lemma scanLine_nil line :
  JS.includes "SCANNING: " line && JS.includes "LOCK: " line = false ->
  scanLine [] line = [].
Proof.
  intros Hnot. unfold scanLine.
  destruct (search pattern_scanning line) as [sm|] eqn:Es;
    [|now destruct (search pattern_scan_program line)].
  destruct (search pattern_scan_lock line) as [lm|] eqn:El;
    [|now destruct (search pattern_scan_program line)].
  exfalso.
  assert (H1 : JS.includes "SCANNING: " line = true).
  { apply (search_literal "SCANNING: "
             (Seq [Grp 1 (Plus true (Chr JS.is_digit)); Lit " (";
                   Grp 2 (Plus true (Chr not_rparen)); Lit ")"])).
    change (search pattern_scanning line <> None). now rewrite Es. }
  assert (H2 : JS.includes "LOCK: " line = true).
  { apply (search_literal "LOCK: "
             (Seq [Grp 1 (Plus true (Chr is_word)); Lit " (ss=";
                   Grp 2 (Plus true (Chr JS.is_digit)); Lit " snq=";
                   Grp 3 (Plus true (Chr JS.is_digit)); Lit " seq=";
                   Grp 4 (Plus true (Chr JS.is_digit)); Lit ")"])).
    change (search pattern_scan_lock line <> None). now rewrite El. }
  rewrite H1, H2 in Hnot. discriminate.
Qed.

(** X15. A scanned channel needs its two lines in one. [scanChannels]
    reports a channel only for a line of the output that holds both the
    [SCANNING: ] and the [LOCK: ] text, and programs only after such a
    line. So when no line of the output holds both, as in the output of
    [hdhomerun_config], which puts each on a line of its own, the result is
    the empty list, whatever was found. *)
Theorem scanChannels_same_line (deviceId tn channelMap : string) (w : World) (st : State) :
  let r := w_exec w (length (trace st))
             ("hdhomerun_config " +:+ deviceId +:+ " scan /tuner" +:+ tn +:+ " " +:+ channelMap) in
  (forall line, line ∈ JS.split "010" (stdout r) ->
     JS.includes "SCANNING: " line && JS.includes "LOCK: " line = false) ->
  fst (scanChannels deviceId tn channelMap w st) = [].
Proof.
  intros r Hlines. unfold scanChannels. rewrite run_bind, run_exec, run_ret.
  cbn [fst snd]. fold r. destruct (error r); [reflexivity|].
  unfold parseScanOutput.
  induction (JS.split "010" (stdout r)) as [|line lines IH]; [reflexivity|].
  cbn [fold_left]. rewrite scanLine_nil.
  - apply IH. intros l Hl. apply Hlines. now apply list_elem_of_further.
  - apply Hlines. apply list_elem_of_here.
Qed.

Lemma scanChannels_same_line_witness :
  search pattern_scanning "SCANNING: 177000000 (us-bcast:7)" <> None /\
  search pattern_scan_lock "LOCK: 8vsb (ss=71 snq=83 seq=100)" <> None /\
  fst (scanChannels "1075D4B1" "0" "us-bcast" world_scan constructor) = [].
Proof.
  split; [vm_compute; discriminate|]. split; [vm_compute; discriminate|].
  apply scanChannels_same_line.
  intros line Hline. vm_compute in Hline.
  repeat (apply elem_of_cons in Hline as [->|Hline]; [vm_compute; reflexivity|]).
  now apply elem_of_nil in Hline.
Defined.

(** ** The PLP table *)

(** A greedy run of a class fails when what follows fails after every
    prefix of the class. *)
Lemma star_iter_class_fail cls k : forall s fuel c,
  String.length s <= fuel ->
  (forall v r, s = v +:+ r -> all_chars cls v = true -> k r c = None) ->
  star_iter true (exec_at (Chr cls)) k fuel s c = None.
Proof.
  induction s as [|a s IH]; intros fuel c Hfuel Hk.
  - assert (H0 : k "" c = None) by now apply (Hk "" "").
    destruct fuel; cbn [star_iter exec_at]; now rewrite ?H0.
  - destruct fuel as [|fuel]; [cbn in Hfuel; lia|].
    assert (H0 : k (String a s) c = None) by now apply (Hk "" (String a s)).
    cbn [star_iter exec_at]. destruct (cls a) eqn:Ea; [|now rewrite H0].
    cbn [String.length]. rewrite (proj2 (Nat.ltb_lt _ _) (Nat.lt_succ_diag_r _)).
    rewrite IH; [now rewrite H0|cbn in Hfuel; lia|].
    intros v r -> Hv. apply (Hk (String a v) r); [reflexivity|].
    cbn [all_chars]. now rewrite Ea, Hv.
Qed.

(** After a prefix of the class comes the rest of the run or its end. *)
Lemma span_prefix cls (p : string -> bool) : forall v s r,
  s = v +:+ r -> all_chars cls v = true ->
  (forall a t, cls a = true -> p (String a t) = false) ->
  p (snd (JS.span cls s)) = false ->
  p r = false.
Proof.
  induction v as [|b v IH]; intros s r -> Hv Hcls Hend.
  - rewrite append_nil in *. destruct r as [|a r]; [exact Hend|].
    cbn [JS.span] in Hend. destruct (cls a) eqn:Ea; [now apply Hcls|exact Hend].
  - cbn [all_chars] in Hv. apply andb_true_iff in Hv as [Hb Hv].
    rewrite append_cons in Hend. cbn [JS.span] in Hend. rewrite Hb in Hend.
    apply (IH (v +:+ r) r eq_refl Hv Hcls).
    now destruct (JS.span cls (v +:+ r)).
Qed.

Lemma is_digit_not_colon a : JS.is_digit a = true -> Ascii.eqb a ":" = false.
Proof.
  intros H. destruct (Ascii.eqb_spec a ":") as [->|]; [discriminate H|reflexivity].
Qed.

(** [/^(\d+):/] reads the digits before the colon. *)
Lemma plpId_spec line : plpId line = digits_before_colon line.
Proof.
  unfold plpId, pattern_plp_id, digits_before_colon. cbn [Seq]. unfold Plus.
  rewrite exec_at_Cat, exec_at_Grp, exec_at_Cat, exec_at_Chr.
  destruct line as [|a s]; [reflexivity|]. cbn [JS.span].
  destruct (JS.is_digit a) eqn:Ea; [|reflexivity].
  rewrite exec_at_Star.
  destruct (JS.span JS.is_digit s) as [v rest] eqn:Es.
  pose proof (span_eq _ _ _ _ Es) as Hs.
  set (k := fun s1 c1 => exec_at (Lit ":") s1 _ _).
  assert (Hk : forall s1 c1,
             k s1 c1 =
             match s1 with
             | String c _ =>
                 if Ascii.eqb c ":"
                 then Some ((1, JS.take (String.length (String a s) - String.length s1)
                                       (String a s)) :: c1)
                 else None
             | EmptyString => None
             end).
  { intros s1 c1. subst k. cbv beta. rewrite exec_at_Lit.
    destruct s1 as [|c s1]; [reflexivity|]. cbn [JS.strip_prefix].
    rewrite Ascii.eqb_sym. now destruct (Ascii.eqb c ":"). }
  destruct rest as [|c rest'].
  - rewrite star_iter_class_fail; [reflexivity|lia|].
    intros v' r' Hsplit Hv'. rewrite Hk.
    enough (H : starts_with_colon r' = false).
    { destruct r'; [reflexivity|]. cbn [starts_with_colon] in H. now rewrite H. }
    apply (span_prefix JS.is_digit starts_with_colon v' s r' Hsplit Hv').
    + intros b t Hb. now apply is_digit_not_colon.
    + now rewrite Es.
  - cbn [starts_with_colon]. destruct (Ascii.eqb c ":") eqn:Ec.
    + rewrite (star_iter_class JS.is_digit k
                 [(1, String a v)] s (String.length s) []); [reflexivity|lia|].
      rewrite Es. cbn [snd]. rewrite Hk, Ec. do 3 f_equal.
      rewrite Hs. cbn [String.length].
      replace (S (String.length (v +:+ String c rest')) - S (String.length rest'))
        with (String.length (String a v)).
      * rewrite <- (append_cons a v (String c rest')). apply take_append.
      * rewrite length_append. cbn [String.length]. lia.
    + rewrite star_iter_class_fail; [reflexivity|lia|].
      intros v' r' Hsplit Hv'. rewrite Hk.
      enough (H : starts_with_colon r' = false).
      { destruct r'; [reflexivity|]. cbn [starts_with_colon] in H. now rewrite H. }
      apply (span_prefix JS.is_digit starts_with_colon v' s r' Hsplit Hv').
      * intros b t Hb. now apply is_digit_not_colon.
      * rewrite Es. exact Ec.
Qed.

Lemma parsePlpTable_lookup text i :
  parsePlpTable text !! i = plpEntryOf <$> last (plp_lines i (nonblank_lines text)).
Proof.
  unfold parsePlpTable.
  induction (nonblank_lines text) as [|line lines IH] using rev_ind.
  - cbn. apply lookup_empty.
  - rewrite fold_left_app. cbn [fold_left]. unfold plp_lines in *. rewrite List.filter_app.
    cbn [List.filter]. destruct (plpId line) as [j|] eqn:Ej.
    + destruct (decide (j = i)) as [->|Hne].
      * rewrite lookup_insert_eq, bool_decide_eq_true_2 by reflexivity.
        now rewrite last_snoc.
      * rewrite lookup_insert_ne by exact Hne.
        rewrite bool_decide_eq_false_2 by congruence. now rewrite app_nil_r.
    + rewrite bool_decide_eq_false_2 by congruence. now rewrite app_nil_r.
Qed.

Lemma parsePlpTable_empty text :
  parsePlpTable text = ∅ <->
  forall line, line ∈ nonblank_lines text -> plpId line = None.
Proof.
  rewrite map_empty. split.
  - intros Hnone line Hin. destruct (plpId line) as [i|] eqn:Ei; [|reflexivity].
    specialize (Hnone i). rewrite parsePlpTable_lookup in Hnone.
    assert (Hl : line ∈ plp_lines i (nonblank_lines text)).
    { apply list_elem_of_In, filter_In. split; [now apply list_elem_of_In|].
      now apply bool_decide_eq_true_2. }
    destruct (plp_lines i (nonblank_lines text)) as [|l0 ls] using rev_ind;
      [now apply elem_of_nil in Hl|].
    now rewrite last_snoc in Hnone.
  - intros Hnone i. rewrite parsePlpTable_lookup.
    destruct (plp_lines i (nonblank_lines text)) as [|l0 ls] eqn:E; [reflexivity|].
    assert (Hl : l0 ∈ plp_lines i (nonblank_lines text)) by (rewrite E; apply list_elem_of_here).
    apply list_elem_of_In, filter_In in Hl as [Hl Hi].
    apply bool_decide_eq_true_1 in Hi.
    rewrite (Hnone l0) in Hi by now apply list_elem_of_In. discriminate.
Qed.

(** X16. Reading the PLP table. [getPlpInfo] answers [null] when the
    query fails or when no line of the output starts with digits and a
    colon. Otherwise the table has an entry for each such run of digits, and
    the entry is made of the last line for it alone: an earlier line for the
    same PLP leaves nothing behind. In an entry, each field holds the value
    of the leftmost [key=value] of its line and is unset when the line has
    none; [lls] and [lock] are [true] for the value [1] only. *)
Theorem getPlpInfo_table (deviceId tn : string) (w : World) (st : State) :
  let r := w_exec w (length (trace st)) (tunerCommand deviceId tn "plpinfo") in
  let lines := nonblank_lines (stdout r) in
  let res := fst (getPlpInfo deviceId tn w st) in
  (res = None <->
   error r = true \/ forall line, line ∈ lines -> digits_before_colon line = None) /\
  (forall table i, res = Some table ->
     table !! i =
     plpEntryOf <$> last (List.filter (fun line =>
                                         bool_decide (digits_before_colon line = Some i))
                                      lines)) /\
  (forall line,
     let e := plpEntryOf line in
     field_is "sfi" is_word (fun v => v) line (PlpEntry.sfi e) /\
     field_is "mod" is_word (fun v => v) line (PlpEntry.modulation e) /\
     field_is "cod" digit_or_slash (fun v => v) line (PlpEntry.coderate e) /\
     field_is "layer" is_word (fun v => v) line (PlpEntry.layer e) /\
     field_is "ti" is_word (fun v => v) line (PlpEntry.timeInterleaving e) /\
     field_is "lls" JS.is_digit (fun v => String.eqb v "1") line (PlpEntry.lls e) /\
     field_is "lock" JS.is_digit (fun v => String.eqb v "1") line (PlpEntry.lock e)).
Proof.
  intros r lines res. subst res. unfold getPlpInfo.
  rewrite run_bind, run_exec, run_ret. cbn [fst snd]. fold r.
  assert (Hfilter : forall i,
             List.filter (fun line => bool_decide (digits_before_colon line = Some i)) lines =
             plp_lines i lines).
  { intros i. unfold plp_lines. apply filter_ext. intros line. now rewrite plpId_spec. }
  split; [|split].
  - destruct (error r).
    + split; [now left|reflexivity].
    + unfold nonEmptyOrNull. destruct (decide (parsePlpTable (stdout r) = ∅)) as [He|Hne].
      * split; [|reflexivity]. intros _. right. intros line Hin.
        rewrite <- plpId_spec. now apply (proj1 (parsePlpTable_empty _) He).
      * split; [discriminate|]. intros [?|Hnone]; [discriminate|].
        exfalso. apply Hne, parsePlpTable_empty. intros line Hin.
        rewrite plpId_spec. now apply Hnone.
  - intros table i. destruct (error r); [discriminate|].
    unfold nonEmptyOrNull. destruct (decide (parsePlpTable (stdout r) = ∅)); [discriminate|].
    intros [= <-]. rewrite Hfilter. apply parsePlpTable_lookup.
  - intros line. unfold plpEntryOf.
    cbn [PlpEntry.sfi PlpEntry.modulation PlpEntry.coderate PlpEntry.layer
         PlpEntry.timeInterleaving PlpEntry.lls PlpEntry.lock].
    assert (Hraw : forall key cls,
               field_is key cls (fun v => v) line
                        (group 1 (search (key_pattern key cls) line))).
    { intros key cls. pose proof (field_is_pattern key cls (fun v => v) line) as H.
      now destruct (group 1 (search (key_pattern key cls) line)). }
    pose proof (fun key => field_is_pattern key JS.is_digit
                             (fun v => String.eqb v "1") line) as Hflag.
    split; [apply Hraw|]. split; [apply Hraw|]. split; [apply Hraw|].
    split; [apply Hraw|]. split; [apply Hraw|]. split; apply Hflag.
Qed.

(** ** The L1 table *)

(** A greedy run of a class, when what follows cannot start with a
    character of the class: the run is taken whole. *)
Lemma star_iter_class_then cls k c : forall s fuel,
  (forall a t, cls a = true -> k (String a t) c = None) ->
  String.length s <= fuel ->
  star_iter true (exec_at (Chr cls)) k fuel s c = k (snd (JS.span cls s)) c.
Proof.
  induction s as [|a s IH]; intros fuel Hk Hfuel.
  - destruct fuel; cbn [star_iter exec_at JS.span snd]; [reflexivity|].
    now destruct (k "" c).
  - destruct fuel as [|fuel]; [cbn in Hfuel; lia|].
    cbn [star_iter exec_at JS.span]. destruct (cls a) eqn:Ea.
    + cbn [String.length]. rewrite (proj2 (Nat.ltb_lt _ _) (Nat.lt_succ_diag_r _)).
      rewrite IH by (auto; cbn in Hfuel; lia).
      destruct (JS.span cls s) as [v r]. cbn [snd].
      destruct (k r c); [reflexivity|]. now apply Hk.
    + cbn [snd]. now destruct (k (String a s) c).
Qed.

Lemma is_word_not_equals a : is_word a = true -> Ascii.eqb "=" a = false.
Proof.
  intros H. destruct (Ascii.eqb_spec "=" a) as [<-|]; [discriminate H|reflexivity].
Qed.

Lemma span_all_chars cls s : all_chars cls (fst (JS.span cls s)) = true.
Proof.
  induction s as [|a s IH]; [reflexivity|]. cbn [JS.span].
  destruct (cls a) eqn:Ea; [|reflexivity].
  destruct (JS.span cls s) as [v r]. cbn [fst all_chars] in *. now rewrite Ea, IH.
Qed.

(** What [/(\w+)=([^\s]+)/] matches at the start of a string. *)
Lemma exec_at_key_value s c :
  exec_at (Grp 0 pattern_key_value) s [] (fun _ c => Some c) = Some c ->
  exists key val,
    capture 0 c = Some (key +:+ "=" +:+ val) /\
    key <> "" /\ all_chars is_word key = true /\
    val <> "" /\ all_chars not_space val = true.
Proof.
  unfold pattern_key_value. cbn [Seq]. unfold Plus.
  rewrite exec_at_Grp, exec_at_Cat, exec_at_Grp, exec_at_Cat, exec_at_Chr.
  destruct s as [|a s]; [discriminate|].
  destruct (is_word a) eqn:Ea; [|discriminate].
  rewrite exec_at_Star.
  set (k := fun s1 c1 => exec_at (Cat (Lit "=") _) s1 _ _).
  rewrite (star_iter_class_then is_word k []); [|subst k|lia].
  2:{ intros b t Hb. cbv beta. rewrite exec_at_Cat, exec_at_Lit. cbn [JS.strip_prefix].
      now rewrite (is_word_not_equals b Hb). }
  pose proof (span_all_chars is_word s) as Hkey.
  pose proof (span_app is_word s) as Hs.
  destruct (JS.span is_word s) as [v rest]. cbn [fst snd] in *.
  subst k. cbv beta. rewrite exec_at_Cat, exec_at_Lit.
  destruct rest as [|e rest1]; [discriminate|]. cbn [JS.strip_prefix].
  destruct (Ascii.eqb_spec "=" e) as [<-|]; [|discriminate].
  rewrite exec_at_Grp, exec_at_Cat, exec_at_Chr.
  destruct rest1 as [|b t]; [discriminate|].
  destruct (not_space b) eqn:Eb; [|discriminate].
  rewrite exec_at_Star.
  pose proof (span_all_chars not_space t) as Hval.
  pose proof (span_app not_space t) as Ht.
  destruct (JS.span not_space t) as [u rest2] eqn:Eu. cbn [fst snd] in *.
  erewrite star_iter_class; [| |rewrite Eu; reflexivity]; [|lia].
  intros [= <-]. exists (String a v), (String b u).
  split; [|split; [discriminate|split; [|split; [discriminate|]]]].
  - cbn [capture Nat.eqb]. f_equal.
    assert (E : String a s = (String a v +:+ "=" +:+ String b u) +:+ rest2).
    { rewrite Hs, Ht. rewrite !append_cons. f_equal.
      clear. induction v as [|x v IHv]; [reflexivity|]. rewrite !append_cons. now f_equal. }
    change (S (String.length s)) with (String.length (String a s)).
    rewrite E, (length_append _ rest2).
    replace (String.length (String a v +:+ "=" +:+ String b u) + String.length rest2 -
             String.length rest2)
      with (String.length (String a v +:+ "=" +:+ String b u)) by lia.
    apply take_append.
  - cbn [all_chars]. now rewrite Ea, Hkey.
  - cbn [all_chars]. now rewrite Eb, Hval.
Qed.

Lemma matchAll_key_value fuel : forall line m,
  m ∈ matchAll pattern_key_value fuel line ->
  exists key val,
    m = key +:+ "=" +:+ val /\
    key <> "" /\ all_chars is_word key = true /\
    val <> "" /\ all_chars not_space val = true.
Proof.
  induction fuel as [|fuel IH]; intros line m Hm; [now apply elem_of_nil in Hm|].
  cbn [matchAll] in Hm.
  destruct (exec_at (Grp 0 pattern_key_value) line [] (fun _ c => Some c)) as [c|] eqn:E.
  - apply exec_at_key_value in E as (key & val & Hc & Hrest). rewrite Hc in Hm.
    cbn [default] in Hm.
    destruct (key +:+ "=" +:+ val) as [|x y] eqn:Em; [now apply elem_of_nil in Hm|].
    apply elem_of_cons in Hm as [->|Hm]; [|now apply IH in Hm].
    exists key, val. now rewrite Em.
  - destruct line as [|a line]; [now apply elem_of_nil in Hm|]. now apply IH in Hm.
Qed.

Lemma head_split sep s :
  head (JS.split sep s) = Some (fst (JS.span (fun a => negb (Ascii.eqb a sep)) s)).
Proof.
  induction s as [|a s IH]; [reflexivity|]. cbn [JS.split JS.span].
  destruct (Ascii.eqb a sep); [reflexivity|]. cbn [negb].
  destruct (JS.split sep s) as [|l ls]; [discriminate|].
  destruct (JS.span _ s) as [v r]. cbn in *. congruence.
Qed.

(** [l1Data[key] = value] for a text [key=value]: the value is cut at its
    first [=]. *)
Lemma setL1_key_value l1Data key val :
  all_chars is_word key = true ->
  setL1 l1Data (key +:+ "=" +:+ val) =
  if String.eqb key "__proto__" then l1Data
  else <[key := Some (fst (JS.span not_equals val))]> l1Data.
Proof.
  intros Hkey. unfold setL1.
  change (key +:+ "=" +:+ val) with (key +:+ String "=" val).
  rewrite split_append.
  - now rewrite head_split.
  - clear -Hkey. induction key as [|a key IH]; [reflexivity|].
    cbn [all_chars] in *. apply andb_true_iff in Hkey as [Ha Hk].
    rewrite (IH Hk), andb_true_r. rewrite Ascii.eqb_sym.
    now rewrite (is_word_not_equals a Ha).
Qed.

Lemma parseL1Line_inv (Q : string -> option string -> Prop) line acc :
  (forall key v, acc !! key = Some v -> Q key v) ->
  (forall key val,
     (key +:+ "=" +:+ val) ∈ keyValueTexts line ->
     key <> "" -> all_chars is_word key = true -> key <> "__proto__" ->
     val <> "" -> all_chars not_space val = true ->
     Q key (Some (fst (JS.span not_equals val)))) ->
  forall key v, parseL1Line acc line !! key = Some v -> Q key v.
Proof.
  intros Hacc Hnew. unfold parseL1Line. fold (keyValueTexts line).
  assert (Hgen : forall texts acc0,
             (forall m, m ∈ texts -> m ∈ keyValueTexts line) ->
             (forall key v, acc0 !! key = Some v -> Q key v) ->
             forall key v, fold_left setL1 texts acc0 !! key = Some v -> Q key v).
  { induction texts as [|m texts IH]; intros acc0 Hsub Hacc0; [exact Hacc0|].
    cbn [fold_left]. apply IH.
    - intros m' Hm'. apply Hsub. now apply list_elem_of_further.
    - intros key v Hkv.
      pose proof (Hsub m (list_elem_of_here _ _)) as Hm.
      destruct (matchAll_key_value _ _ _ Hm) as (k0 & val & -> & Hk1 & Hk2 & Hv1 & Hv2).
      rewrite (setL1_key_value acc0 k0 val Hk2) in Hkv.
      destruct (String.eqb_spec k0 "__proto__") as [Hp|Hp]; [now apply Hacc0|].
      destruct (decide (k0 = key)) as [<-|Hne].
      + rewrite lookup_insert_eq in Hkv. injection Hkv as <-. now apply Hnew.
      + rewrite lookup_insert_ne in Hkv by exact Hne. now apply Hacc0. }
  apply Hgen; auto.
Qed.

Lemma parseL1Lines_inv (Q : string -> option string -> Prop) lines : forall acc,
  (forall key v, acc !! key = Some v -> Q key v) ->
  (forall line key val,
     line ∈ lines ->
     (key +:+ "=" +:+ val) ∈ keyValueTexts line ->
     key <> "" -> all_chars is_word key = true -> key <> "__proto__" ->
     val <> "" -> all_chars not_space val = true ->
     Q key (Some (fst (JS.span not_equals val)))) ->
  forall key v, fold_left parseL1Line lines acc !! key = Some v -> Q key v.
Proof.
  induction lines as [|line lines IH]; intros acc Hacc Hnew; [exact Hacc|].
  cbn [fold_left]. apply IH.
  - apply parseL1Line_inv; [exact Hacc|].
    intros key val. apply Hnew. apply list_elem_of_here.
  - intros l key val Hl. apply Hnew. now apply list_elem_of_further.
Qed.

(** X17. Reading the L1 table. [getL1Info] answers [null] when the query
    fails. Every key of a table it answers with is a non-empty run of word
    characters other than [__proto__], and its value comes from a
    [key=value] text of a line of the output: it is that value up to its
    first [=] sign, so what follows a [=] inside a value is dropped. *)
Theorem getL1Info_table (deviceId tn : string) (w : World) (st : State) :
  let r := w_exec w (length (trace st)) (tunerCommand deviceId tn "l1info") in
  let res := fst (getL1Info deviceId tn w st) in
  (error r = true -> res = None) /\
  forall table key v,
    res = Some table -> table !! key = Some v ->
    key <> "" /\ all_chars is_word key = true /\ key <> "__proto__" /\
    exists line val,
      line ∈ nonblank_lines (stdout r) /\
      (key +:+ "=" +:+ val) ∈ keyValueTexts line /\
      val <> "" /\ all_chars not_space val = true /\
      v = Some (fst (JS.span not_equals val)).
Proof.
  intros r res. subst res. unfold getL1Info.
  rewrite run_bind, run_exec, run_ret. cbn [fst snd]. fold r.
  split; [now intros ->|].
  intros table key v. destruct (error r); [discriminate|].
  unfold nonEmptyOrNull. destruct (decide (parseL1Table (stdout r) = ∅)); [discriminate|].
  intros [= <-]. revert key v. unfold parseL1Table.
  apply (parseL1Lines_inv
           (fun key v =>
              key <> "" /\ all_chars is_word key = true /\ key <> "__proto__" /\
              exists line val,
                line ∈ nonblank_lines (stdout r) /\
                (key +:+ "=" +:+ val) ∈ keyValueTexts line /\
                val <> "" /\ all_chars not_space val = true /\
                v = Some (fst (JS.span not_equals val)))).
  - intros key v H. now rewrite lookup_empty in H.
  - intros line key val Hl Hm Hk1 Hk2 Hp Hv1 Hv2.
    split; [exact Hk1|]. split; [exact Hk2|]. split; [exact Hp|].
    exists line, val. now repeat split.
Qed.

(** ** The single-tuner tick *)





(** ** The stream routes *)

Lemma discoverDevices_devices forceRefresh w st :
  NoDup (map Device.id (fst (discoverDevices forceRefresh w st))) /\
  devices (snd (discoverDevices forceRefresh w st)) = fst (discoverDevices forceRefresh w st).
Proof.
  rewrite discoverDevices_run. cbn zeta. cbn [fst snd]. split; [|reflexivity].
  destruct (mergeDevices_fresh (fst (autoStage forceRefresh w st))) as (Ha1 & _ & _ & Ha4).
  cbn zeta in *.
  destruct (mergeDevices (fst (autoStage forceRefresh w st)) ([], ∅)) as [devsA setA].
  cbn [fst snd] in *.
  now destruct (mergeDevices_spec (fst (manualStage forceRefresh w st)) devsA setA Ha4 Ha1)
    as (_ & H2 & _).
Qed.

Lemma find_by_id d (l : list Device.t) :
  NoDup (map Device.id l) -> d ∈ l ->
  List.find (fun d' => String.eqb (Device.id d') (Device.id d)) l = Some d.
Proof.
  induction l as [|x l IH]; intros Hnd Hin; [now apply elem_of_nil in Hin|].
  cbn [map] in Hnd. apply NoDup_cons in Hnd as [Hx Hnd]. cbn [List.find].
  apply elem_of_cons in Hin as [->|Hin]; [now rewrite String.eqb_refl|].
  destruct (String.eqb_spec (Device.id x) (Device.id d)) as [E|_]; [|now apply IH].
  exfalso. apply Hx. rewrite E. now apply list_elem_of_fmap_2.
Qed.

Lemma find_no_id i (l : list Device.t) :
  i ∉ map Device.id l -> List.find (fun d' => String.eqb (Device.id d') i) l = None.
Proof.
  induction l as [|x l IH]; intros Hout; [reflexivity|].
  cbn [map] in Hout. apply not_elem_of_cons in Hout as [Hne Hout]. cbn [List.find].
  destruct (String.eqb_spec (Device.id x) i) as [E|_]; [congruence|now apply IH].
Qed.

(** X19. A stream URL for every listed device. After a discovery, the
    stream-URL route asked for the id of a device of the returned list,
    with a channel and a program, answers with the URL at the address of
    that very device; asked for an id that is not in the list, it answers
    404; and without a channel or without a program it answers 400, whatever
    the id. *)
Theorem streamUrlRoute_after_discovery (forceRefresh : bool) (w : World) (st : State)
    (ch program : string) :
  JS.truthy ch = true ->
  JS.truthy program = true ->
  let devs := fst (discoverDevices forceRefresh w st) in
  let st' := snd (discoverDevices forceRefresh w st) in
  (forall d, d ∈ devs ->
     streamUrlRoute (Device.id d) (Some ch) (Some program) st' =
     JsonUrl ("http://" +:+ Device.ip d +:+ ":5004/auto/ch" +:+ ch +:+ "-" +:+ program)) /\
  (forall i, i ∉ map Device.id devs ->
     streamUrlRoute i (Some ch) (Some program) st' = JsonError 404 "Device not found") /\
  (forall i c p, missing c || missing p = true ->
     streamUrlRoute i c p st' = JsonError 400 "Missing ch or program query parameter").
Proof.
  intros Hch Hp devs st'.
  destruct (discoverDevices_devices forceRefresh w st) as [Hnd Hdevs].
  fold devs st' in Hnd, Hdevs.
  assert (Hgiven : missing (Some ch) || missing (Some program) = false).
  { cbn. now rewrite Hch, Hp. }
  split; [|split].
  - intros d Hd. unfold streamUrlRoute. rewrite Hgiven, Hdevs.
    now rewrite (find_by_id d devs Hnd Hd).
  - intros i Hi. unfold streamUrlRoute. rewrite Hgiven, Hdevs.
    now rewrite (find_no_id i devs Hi).
  - intros i c p Hmiss. unfold streamUrlRoute.
    destruct c as [c|]; [|reflexivity]. destruct p as [p|]; [|reflexivity].
    now rewrite Hmiss.
Qed.

Lemma streamUrlRoute_after_discovery_witness :
  streamUrlRoute "10.0.0.5" (Some "14") (Some "3")
    (snd (discoverDevices false world_manual constructor)) =
  JsonUrl "http://10.0.0.5:5004/auto/ch14-3".
Proof.
  assert (Hd : Device.mk "10.0.0.5" "10.0.0.5" "HDHomeRun 1075D4B1 (HDHR5-4US)" true
               ∈ fst (discoverDevices false world_manual constructor)).
  { vm_compute. apply list_elem_of_here. }
  exact (proj1 (streamUrlRoute_after_discovery false world_manual constructor "14" "3"
                  eq_refl eq_refl) _ Hd).
Defined.

Lemma sanitize_chars name : all_chars is_filename_char (sanitize name) = true.
Proof.
  induction name as [|a name IH]; [reflexivity|]. cbn [sanitize all_chars].
  rewrite IH, andb_true_r. now destruct (is_filename_char a) eqn:E.
Qed.

Lemma sanitize_fixed name : all_chars is_filename_char name = true -> sanitize name = name.
Proof.
  induction name as [|a name IH]; [reflexivity|]. cbn [sanitize all_chars].
  intros H. apply andb_true_iff in H as [Ha Hn]. now rewrite Ha, (IH Hn).
Qed.

Lemma all_chars_impl (p q : ascii -> bool) s :
  (forall a, p a = true -> q a = true) -> all_chars p s = true -> all_chars q s = true.
Proof.
  intros Hpq. induction s as [|a s IH]; [reflexivity|]. cbn [all_chars].
  intros H. apply andb_true_iff in H as [Ha Hs]. now rewrite (Hpq a Ha), (IH Hs).
Qed.

Lemma is_filename_char_header a : is_filename_char a = true -> is_header_char a = true.
Proof.
  destruct a as [[] [] [] [] [] [] [] []]; vm_compute; intros H;
    (reflexivity || discriminate H).
Qed.

(** X20. The file name of a playlist. When the name parameter is a string
    that is not empty, the playlist route never fails on the file name: it
    answers with the playlist, with 400 or with 404, and the file name of
    the playlist is the name with every character other than a letter, a
    digit, [.], [_] and [-] replaced by [_]. That file name has the length
    of the name and holds such characters only; a name that holds only such
    characters is kept as it is, so replacing twice is replacing once. When
    the name parameter is not a string (it is repeated, or written with
    brackets), the route fails instead: with [ch], [program] and the device
    there, it answers 500. *)
Theorem playlistRoute_filename (id : string) (ch program : option QueryValue) (name : string)
    (st : State) :
  JS.truthy name = true ->
  match playlistRoute id ch program (Some (QString name)) st with
  | Playlist filename content =>
      filename = sanitize name /\
      exists device c p,
        ch = Some c /\ program = Some p /\
        List.find (fun d => String.eqb (Device.id d) id) (devices st) = Some device /\
        content = "#EXTM3U" +:+ newline +:+ "#EXTINF:-1," +:+ name +:+ newline +:+
                  streamUrlOf device (render c) (render p) +:+ newline
  | JsonError code _ => code = 400 \/ code = 404
  | JsonUrl _ => False
  end /\
  all_chars is_filename_char (sanitize name) = true /\
  String.length (sanitize name) = String.length name /\
  sanitize (sanitize name) = sanitize name /\
  (all_chars is_filename_char name = true -> sanitize name = name) /\
  (forall rendered device,
     absent ch || absent program = false ->
     List.find (fun d => String.eqb (Device.id d) id) (devices st) = Some device ->
     playlistRoute id ch program (Some (QOther rendered)) st =
     JsonError 500 "name.replace is not a function").
Proof.
  intros Hname. split; [|split; [apply sanitize_chars|split; [|split; [|split]]]].
  - unfold playlistRoute.
    destruct ch as [c|]; [|now left]. destruct program as [p|]; [|now left].
    destruct (absent (Some c) || absent (Some p)); [now left|].
    destruct (List.find _ (devices st)) as [device|] eqn:Ef; [|now right].
    cbn [absent]. rewrite Hname. cbn [negb].
    rewrite (all_chars_impl _ _ _ is_filename_char_header (sanitize_chars name)).
    split; [reflexivity|]. now exists device, c, p.
  - induction name as [|a name' IH]; [reflexivity|]. cbn [sanitize String.length].
    destruct name' as [|b name'']; [reflexivity|]. now rewrite IH.
  - apply sanitize_fixed, sanitize_chars.
  - apply sanitize_fixed.
  - intros rendered device Hgiven Hfind. unfold playlistRoute.
    destruct ch as [c|]; [|discriminate]. destruct program as [p|].
    + now rewrite Hgiven, Hfind.
    + cbn in Hgiven. now rewrite orb_true_r in Hgiven.
Qed.

Lemma playlistRoute_filename_witness :
  JS.truthy "Fox 8/WJW" = true /\
  all_chars is_filename_char (sanitize "Fox 8/WJW") = true /\
  sanitize "Fox 8/WJW" = "Fox_8_WJW" /\
  playlistRoute "10.0.0.5" (Some (QString "14")) (Some (QString "3")) (Some (QOther "Fox,8"))
    (snd (discoverDevices false world_manual constructor)) =
  JsonError 500 "name.replace is not a function".
Proof.
  pose proof (playlistRoute_filename "10.0.0.5" (Some (QString "14")) (Some (QString "3"))
                "Fox 8/WJW" (snd (discoverDevices false world_manual constructor)) eq_refl)
    as (_ & Hchars & _ & _ & _ & Hother).
  split; [reflexivity|]. split; [exact Hchars|]. split; [vm_compute; reflexivity|].
  apply (Hother "Fox,8"
           (Device.mk "10.0.0.5" "10.0.0.5" "HDHomeRun 1075D4B1 (HDHR5-4US)" true)).
  - reflexivity.
  - vm_compute. reflexivity.
Defined.

(** ** The signal estimate is one line *)

(** X21. The four buckets of the signal estimate lie on one line. For
    counters of up to three digits the estimate of the signal level is
    [signalRaw / 2 - 90], rounded to one decimal place, whichever bucket
    the counter falls in and whatever the SNR counter is: the boundaries at
    80, 60 and 20 make no difference to the result. *)
Theorem estimate_linear (signalRaw : Z) (snrRaw : float) :
  (0 <= signalRaw < Z.of_nat counterBound)%Z ->
  fst (estimate (Num.Z2float signalRaw) snrRaw) = tenths (5 * signalRaw - 900).
Proof.
  intros Hsig. destruct (estimate_agrees_at signalRaw Hsig) as [Hss _].
  rewrite spec_ss_tenths_linear in Hss. exact Hss.
Qed.

Lemma estimate_linear_witness :
  (0 <= 71 < Z.of_nat counterBound)%Z /\
  fst (estimate (Num.Z2float 71) 83) = tenths (-545).
Proof.
  assert (H : (0 <= 71 < Z.of_nat counterBound)%Z)
    by (vm_compute; split; [discriminate|reflexivity]).
  split; [exact H|]. exact (estimate_linear 71 83 H).
Defined.

(** ** The front end: channel numbers *)

Lemma channel_agrees_all : forallb channel_agrees (List.seq 0 35) = true.
Proof. vm_compute. reflexivity. Qed.

(** X22. From frequency to channel number. For each of the broadcast
    channels 2 to 36, [frequencyToChannel] maps the centre frequency of the
    channel, and the frequencies up to 2.75 MHz to either side of it (in
    steps of 250 kHz), to the number of the channel. A frequency in the low
    VHF band is always mapped to one of the channels 2 to 6, and a frequency
    outside the three bands to no channel. *)
Theorem frequencyToChannel_plan :
  (forall c k : Z,
     (2 <= c <= 36)%Z -> (-11 <= k <= 11)%Z ->
     frequencyToChannel (Num.Z2float (nearCentre c k)) = Some (Num.Z2float c)) /\
  (forall freqHz : float,
     let freqMhz := (freqHz / 1000000)%float in
     (54 <=? freqMhz)%float && (freqMhz <=? 88)%float = true ->
     exists r, frequencyToChannel freqHz = Some r /\ r ∈ [2; 3; 4; 5; 6]%float) /\
  (forall freqHz : float,
     let freqMhz := (freqHz / 1000000)%float in
     (54 <=? freqMhz)%float && (freqMhz <=? 88)%float = false ->
     (174 <=? freqMhz)%float && (freqMhz <=? 216)%float = false ->
     (470 <=? freqMhz)%float && (freqMhz <=? 608)%float = false ->
     frequencyToChannel freqHz = None).
Proof.
  split; [|split].
  - intros c k Hc Hk. pose proof channel_agrees_all as Hall.
    rewrite List.forallb_forall in Hall.
    specialize (Hall (Z.to_nat (c - 2))).
    assert (Hin : In (Z.to_nat (c - 2)) (List.seq 0 35)) by (apply in_seq; lia).
    specialize (Hall Hin). unfold channel_agrees in Hall.
    rewrite List.forallb_forall in Hall.
    specialize (Hall (Z.to_nat (k + 11))).
    assert (Hin' : In (Z.to_nat (k + 11)) (List.seq 0 23)) by (apply in_seq; lia).
    specialize (Hall Hin').
    replace (2 + Z.of_nat (Z.to_nat (c - 2)))%Z with c in Hall by lia.
    replace (Z.of_nat (Z.to_nat (k + 11)) - 11)%Z with k in Hall by lia.
    destruct (frequencyToChannel (Num.Z2float (nearCentre c k))) as [r|]; [|discriminate].
    apply FloatAxioms.Leibniz.eqb_spec in Hall. now rewrite Hall.
  - intros freqHz freqMhz Hband. unfold frequencyToChannel. fold freqMhz. rewrite Hband.
    cbn [fold_left vhfLowChannels fst snd].
    repeat match goal with
           | |- context [if ?b then _ else _] => destruct b
           end;
      cbn [fst]; eexists; (split; [reflexivity|]); set_solver.
  - intros freqHz freqMhz H1 H2 H3. unfold frequencyToChannel. fold freqMhz.
    now rewrite H1, H2, H3.
Qed.

Lemma frequencyToChannel_plan_witness :
  frequencyToChannel 605250000 = Some 36%float.
Proof.
  assert (Hc : (2 <= 36 <= 36)%Z) by lia.
  assert (Hk : (-11 <= 1 <= 11)%Z) by lia.
  exact (proj1 frequencyToChannel_plan 36%Z 1%Z Hc Hk).
Defined.

(** ** Worked examples *)

(** The cloud lists two tuners at one address, which is also configured by
    hand next to an unreachable host: one entry for the address, the first
    cloud one, then the placeholder of the unreachable host. *)
Example discoverDevices_collision :
  fst (httpDiscoverDevices world_collision constructor) =
    [Device.mk "192.168.1.20" "192.168.1.20" "HDHomeRun 10AB12CD" true;
     Device.mk "192.168.1.20" "192.168.1.20" "HDHomeRun 10AB12CE" true] /\
  fst (discoverDevices false world_collision constructor) =
    [Device.mk "192.168.1.20" "192.168.1.20" "HDHomeRun 10AB12CD" true;
     offlineDevice "tv.local"].
Proof. split; reflexivity. Qed.

(** A session is started, switched to antenna mode and stopped twice: the
    first timer is cancelled by the switch, the second by the first stop,
    and the second stop changes nothing. *)
Example session_lifecycle :
  let st1 := startMonitoring socket_a "1075D4B1" "0" constructor in
  let st2 := startAntennaMode socket_a "1075D4B1" 3 st1 in
  let st3 := stopMonitoring (Some socket_a) st2 in
  timers st1 !! 0 = Some (SingleTask (socket_id socket_a) "1075D4B1" "0") /\
  timers st2 !! 0 = None /\
  timers st2 !! 1 = Some (AntennaTask (socket_id socket_a) "1075D4B1" 3) /\
  monitoringIntervals st2 !! socket_id socket_a = Some 1 /\
  timers st3 !! 1 = None /\
  monitoringIntervals st3 !! socket_id socket_a = None /\
  stopMonitoring (Some socket_a) st3 = st3.
Proof.
  cbn zeta. do 6 (split; [vm_compute; reflexivity|]).
  apply stopMonitoring_twice.
Qed.

(** A debug line as the device prints it: raw counters 86 and 19. *)
Example getTunerStatus_estimate :
  tunerStatusOf
    (Some "ch=8vsb:177000000 lock=8vsb ss=71 snq=83 seq=100 bps=19393000 pps=1670")
    (Some "tun: ch=8vsb:177000000 lock=8vsb:177000000 ss=71 snq=83 seq=100 dbg=86-19/-1817") =
  Some (TunerStatus.mk (Some "8vsb:177000000") true
          (Some 71%float) (Some 83%float) (Some 100%float)
          (Some 19393000%float) (Some 1670%float)
          (Some (-47)%float) (Some 5.9%float) (Some "86-19/-1817")).
Proof. vm_compute. reflexivity. Qed.

(** The two formats of the program list, a suffix in parentheses, and a
    line that is neither. *)
Example parsePrograms_example :
  parsePrograms "tsid=0x0DC9
program=3: 8.1 WJW-DT
4: 8.2 Antenna TV (encrypted)
service=5: 8.3 NEXTGEN (atsc3)" =
  [ProgramEntry.mk "3" "8.1" "WJW-DT" "WJW-DT" "" false false;
   ProgramEntry.mk "4" "8.2" "Antenna TV" "Antenna TV" "encrypted" true false;
   ProgramEntry.mk "5" "8.3" "NEXTGEN" "NEXTGEN" "atsc3" false true].
Proof. vm_compute. reflexivity. Qed.

(** A tuner set to a channel it cannot lock on reports [lock=none]: the
    token is there, so [lock] is [true], and the program list is asked for. *)
Example lock_none_is_present :
  TunerStatus.lock (parseStatusLine "ch=8vsb:177000000 lock=none ss=40 snq=0 seq=0 bps=0 pps=0") = true /\
  notTuned (Some (parseStatusLine "ch=8vsb:177000000 lock=none ss=40 snq=0 seq=0 bps=0 pps=0")) = false.
Proof. split; reflexivity. Qed.

(** A PLP table of two PLPs and a line that belongs to none. *)
Example parsePlpTable_example :
  let table := parsePlpTable "0: sfi=0 mod=qam256 cod=10/15 layer=core ti=cti lls=1 lock=1
1: sfi=0 mod=qam16 cod=7/15 layer=core ti=hti lls=0 lock=0
bsid=1" in
  table !! "0" = Some (PlpEntry.mk (Some "0") (Some "qam256") (Some "10/15") (Some "core")
                                   (Some "cti") (Some true) (Some true)) /\
  table !! "1" = Some (PlpEntry.mk (Some "0") (Some "qam16") (Some "7/15") (Some "core")
                                   (Some "hti") (Some false) (Some false)) /\
  table !! "bsid" = None.
Proof. cbv zeta. repeat split; vm_compute; reflexivity. Qed.

(** An L1 line: a value with an equals sign is cut there, a key without a
    value is skipped, and [__proto__] is no key. *)
Example parseL1Table_example :
  let table := parseL1Table "l1_basic_mode=1 fft_size=8192 x=a=b y= __proto__=5" in
  table !! "l1_basic_mode" = Some (Some "1") /\
  table !! "fft_size" = Some (Some "8192") /\
  table !! "x" = Some (Some "a") /\
  table !! "y" = None /\
  table !! "__proto__" = None.
Proof. cbv zeta. repeat split; vm_compute; reflexivity. Qed.

(** A scan output with the two texts of a channel on one line: the channel
    is reported, with the programs of the lines after it. *)
Example parseScanOutput_example :
  parseScanOutput "SCANNING: 177000000 (us-bcast:7) LOCK: 8vsb (ss=71 snq=83 seq=100)
TSID: 0x0DC9
PROGRAM 3: 8.1 WJW-DT
PROGRAM 4: 8.2 Antenna TV" =
  [ScanChannel.mk "177000000" "us-bcast:7" "8vsb" 71 83 100
     [ScanProgram.mk "3" "8.1" "WJW-DT"; ScanProgram.mk "4" "8.2" "Antenna TV"]].
Proof. vm_compute. reflexivity. Qed.

(** A tick for an idle tuner: three queries, and no table. *)
Example monitorTick_idle :
  fst (monitorTick "1075D4B1" "0" world_one_tuner_down constructor) =
    mkTunerEvent (Some status_none) None None None /\
  trace (snd (monitorTick "1075D4B1" "0" world_one_tuner_down constructor)) =
    [tunerQuery "1075D4B1" "0" "status"; tunerQuery "1075D4B1" "0" "debug";
     tunerQuery "1075D4B1" "0" "program"].
Proof. split; vm_compute; reflexivity. Qed.

(** Two hosts looked up together: both model queries go out before either
    discover query. *)
Example getDevicesByHosts_order :
  trace (snd (getDevicesByHosts ["10.0.0.5"; "10.0.0.6"] world_two_hosts constructor)) =
    [EvExec "hdhomerun_config 10.0.0.5 get /sys/hwmodel";
     EvExec "hdhomerun_config 10.0.0.6 get /sys/hwmodel";
     EvExec "hdhomerun_config discover 10.0.0.5";
     EvExec "hdhomerun_config discover 10.0.0.6"] /\
  map Device.name (fst (getDevicesByHosts ["10.0.0.5"; "10.0.0.6"] world_two_hosts constructor)) =
    ["HDHomeRun HDHR5-4US (10.0.0.5)"; "HDHomeRun HDHR5-4US (10.0.0.6)"].
Proof. split; vm_compute; reflexivity. Qed.

(** Counters too long for a Number to hold digit by digit are printed with
    the digits of the Number, and very long ones with an exponent. *)
Example Number_toString_example :
  Num.Number_toString (Num.parseInt "86") = "86" /\
  Num.Number_toString (Num.parseInt "18446744073709551616") = "18446744073709552000" /\
  Num.Number_toString (Num.parseInt "1000000000000000000000") = "1e+21" /\
  Num.Number_toString (Num.parseInt "1180591620717411303424") = "1.1805916207174113e+21".
Proof.
  split; [vm_compute; reflexivity|]. split; [vm_compute; reflexivity|].
  split; vm_compute; reflexivity.
Qed.
